(** * lindas-hydro-scraper: the scrape / map / store core, embedded and verified

    The development follows the repository's layout:

    - [Py]            the Python values and built-ins the code relies on
                      (JSON values, truthiness, [in], subscripting, [.get],
                      [str.split], [str.replace], [str.strip], exceptions);
    - [PyDecimal]     [decimal.Decimal]: constructor from a string and [str()];
    - [PyDatetime]    [datetime.fromisoformat] and [datetime.isoformat];
    - [Constants]     [core/constants.py];
    - [Query]         [models/query.py] (the [Parameter] enumeration);
    - [Model]         [models/measurement.py] (the pydantic [Measurement]);
    - [DataProcessor] [core/data_processor.py];
    - [SparqlClient]  [core/sparql_client.py];
    - [CsvHandler]    [utils/csv_handler.py];
    - [QueryBuilder]  [core/query_builder.py];
    - [Scraper]       [scrapers/lindas_scraper.py];
    - [Config]        [core/config.py] (the validators of [Settings]).

    Every function of the repository is translated from its source text and
    keeps its name.  Functions of the Python runtime and of third-party
    packages (pydantic, csv, pandas) are models of CPython 3.11, pydantic 2
    and pandas 2; each one says which part of the library's behaviour it
    covers.  The repository pins no version, and three library functions
    read texts differently from one version to the next
    ([decimal.Decimal], [datetime.fromisoformat], pydantic's conversion of
    a string to [int]): the validators of [Model] take them from the class
    [Libraries], whose instance [reference] holds the models of this file,
    and a statement worded with a variable [lib] holds for every version.
    A [str] is kept as a [string] whose characters are the code points
    below 256.  What the outside world decides (the answers of the
    endpoint, whether a file can be read or written) is an argument of the
    function that meets it.

    The second half states and proves the properties: the definitions the
    statements are worded with, the unit tests of the repository replayed
    on the embedding, then, claim by claim, the theorems, and after them
    further properties of the same code and of the code around it (X1,
    X2, ...). *)

From Stdlib Require Import ZArith NArith String Ascii List Bool PrimFloat.
From Stdlib Require Import DecimalString.
From stdpp Require Import gmap strings list fin_maps.

Set Warnings "-register-all,-clear-no-such-hyp,-inexact-float".

(* ===================================================================== *)
(** * Python values and built-ins *)
(* ===================================================================== *)

Module Py.

(** Exception classes.  Only the class is kept: no claim depends on the text
    of an exception. *)
Inductive exn :=
  | TypeError | AttributeError | KeyError | ValueError | OverflowError
  | ValidationError            (* pydantic.ValidationError *)
  | SPARQLWrapperException     (* SPARQLWrapper.SPARQLExceptions *)
  | OSError.

(** A computation that returns a value or raises. *)
Inductive res (A : Type) :=
  | Ok (a : A)
  | Raise (e : exn).
Arguments Ok {A} a.
Arguments Raise {A} e.

#[global] Instance res_ret : MRet res := fun _ a => Ok a.
#[global] Instance res_bind : MBind res := fun _ _ f m =>
  match m with Ok a => f a | Raise e => Raise e end.

(** What [json.loads] (through [SPARQLWrapper]'s [convert()]) can produce.
    A float is carried by its [repr] (the shortest string that reads back to
    it): the code only ever tests a JSON float for truth, passes it to
    [str()] or hands it to pydantic. *)
Inductive pyval :=
  | PNone
  | PBool (b : bool)
  | PInt (z : Z)
  | PFloat (repr : string)
  | PStr (s : string)
  | PList (l : list pyval)
  | PDict (d : gmap string pyval).

(** Logging: a record keeps its level and the message as the f-string is
    written in the source, the interpolated expressions left in braces. *)
Inductive level := DEBUG | INFO | WARNING | ERROR.
Definition log_record : Type := level * string.

(** ** Strings *)

Definition string_of_N (n : N) : string := NilEmpty.string_of_uint (N.to_uint n).

Definition string_of_Z (z : Z) : string :=
  match z with
  | Z0 => "0"
  | Zpos p => string_of_N (Npos p)
  | Zneg p => "-" +:+ string_of_N (Npos p)
  end.

(** [str(z)] for an [int]: [None] stands for the [ValueError] CPython 3.11
    raises when the number has more than 4300 digits. *)
Definition str_of_int (z : Z) : option string :=
  if (4300 <? String.length (string_of_N (Z.abs_N z)))%nat then None
  else Some (string_of_Z z).

(** [needle in hay] for two strings. *)
Fixpoint contains (needle hay : string) : bool :=
  String.prefix needle hay ||
  match hay with
  | EmptyString => false
  | String _ hay' => contains needle hay'
  end.

Definition string_of_rev (l : list ascii) : string :=
  string_of_list_ascii (rev l).

(** [s.split(sep)] for a non-empty [sep]: the separators are found left to
    right and do not overlap.  [skip] counts the characters of a separator
    still to be passed over, [cur] is the piece read so far, reversed. *)
Fixpoint split_aux (sep : string) (skip : nat) (cur : list ascii) (s : string)
  : list string :=
  match s with
  | EmptyString => [string_of_rev cur]
  | String c s' =>
      match skip with
      | S k => split_aux sep k cur s'
      | O =>
          if String.prefix sep s
          then string_of_rev cur :: split_aux sep (String.length sep - 1) [] s'
          else split_aux sep 0 (c :: cur) s'
      end
  end.

Definition split (sep s : string) : list string := split_aux sep 0 [] s.

(** [l[-1]] on a list of strings that is never empty here. *)
Definition last_item (l : list string) : string := List.last l EmptyString.

(** [s.replace(old, new)] for a non-empty [old], which is
    [new.join(s.split(old))]. *)
Definition replace (old new s : string) : string :=
  String.concat new (split old s).

Definition lower_char (c : ascii) : ascii :=
  let n := nat_of_ascii c in
  if ((65 <=? n)%nat && (n <=? 90)%nat) ||
     ((192 <=? n)%nat && (n <=? 222)%nat && negb (n =? 215)%nat)
  then ascii_of_nat (n + 32) else c.

(** [s.lower()]: the capital letters are A to Z and the accented capitals
    (code points 192 to 222, the multiplication sign apart). *)
Fixpoint lower (s : string) : string :=
  match s with
  | EmptyString => EmptyString
  | String c s' => String (lower_char c) (lower s')
  end.

(** The characters for which [str.isspace()] holds: the ASCII white space,
    the four ASCII separators, NEL and the no-break space. *)
Definition py_space (c : ascii) : bool :=
  let n := nat_of_ascii c in
  ((9 <=? n)%nat && (n <=? 13)%nat) || ((28 <=? n)%nat && (n <=? 32)%nat) ||
  (n =? 133)%nat || (n =? 160)%nat.

(** The characters of Unicode's White_Space property, which Rust's
    [str::trim] (used by pydantic-core) removes; they are also the
    characters [int()] skips around a literal. *)
Definition unicode_space (c : ascii) : bool :=
  let n := nat_of_ascii c in
  ((9 <=? n)%nat && (n <=? 13)%nat) || (n =? 32)%nat ||
  (n =? 133)%nat || (n =? 160)%nat.

Fixpoint drop_while (p : ascii -> bool) (l : list ascii) : list ascii :=
  match l with
  | [] => []
  | c :: l' => if p c then drop_while p l' else l
  end.

Definition strip_with (p : ascii -> bool) (s : string) : string :=
  string_of_list_ascii
    (rev (drop_while p (rev (drop_while p (list_ascii_of_string s))))).

(** [s.strip()]. *)
Definition strip (s : string) : string := strip_with py_space s.

(** ** Truth, membership, subscripting *)

(** [bool(v)]. *)
Definition truthy (v : pyval) : bool :=
  match v with
  | PNone => false
  | PBool b => b
  | PInt z => negb (z =? 0)%Z
  | PFloat r => negb (String.eqb r "0.0" || String.eqb r "-0.0")
  | PStr s => negb (String.eqb s EmptyString)
  | PList l => match l with [] => false | _ => true end
  | PDict d => negb (bool_decide (d = ∅))
  end.

Definition is_dict (v : pyval) : bool :=
  match v with PDict _ => true | _ => false end.

Definition is_list (v : pyval) : bool :=
  match v with PList _ => true | _ => false end.

Definition is_none (v : pyval) : bool :=
  match v with PNone => true | _ => false end.

(** [v == key] for a string literal [key]. *)
Definition eq_str (key : string) (v : pyval) : bool :=
  match v with PStr s => String.eqb s key | _ => false end.

(** [key in container] for a string literal [key]: key membership in a dict,
    substring test on a string, element test on a list, [TypeError] on a
    value that is not a container. *)
Definition py_in (key : string) (container : pyval) : res bool :=
  match container with
  | PDict d => Ok (bool_decide (is_Some (d !! key)))
  | PStr s => Ok (contains key s)
  | PList l => Ok (existsb (eq_str key) l)
  | PNone | PBool _ | PInt _ | PFloat _ => Raise TypeError
  end.

(** [container[key]] for a string literal [key]. *)
Definition py_getitem (container : pyval) (key : string) : res pyval :=
  match container with
  | PDict d => match d !! key with Some v => Ok v | None => Raise KeyError end
  | _ => Raise TypeError
  end.

(** [obj.get(key, dflt)]: only a dict has the method. *)
Definition py_get (obj : pyval) (key : string) (dflt : pyval) : res pyval :=
  match obj with
  | PDict d => Ok (default dflt (d !! key))
  | _ => Raise AttributeError
  end.

(** [for x in v]: the items a [for] loop visits. *)
Definition py_iter (v : pyval) : res (list pyval) :=
  match v with
  | PList l => Ok l
  | PStr s => Ok (map (fun c => PStr (String c EmptyString)) (list_ascii_of_string s))
  | PDict d => Ok (map (fun kv => PStr kv.1) (map_to_list d))
  | PNone | PBool _ | PInt _ | PFloat _ => Raise TypeError
  end.

(** [v.split(sep)[-1]]: only a string has the method. *)
Definition py_split_last (v : pyval) (sep : string) : res string :=
  match v with
  | PStr s => Ok (last_item (split sep s))
  | _ => Raise AttributeError
  end.

End Py.

(* ===================================================================== *)
(** * [decimal.Decimal] *)
(* ===================================================================== *)

Module PyDecimal.
Import Py.

(** A decimal is a sign, a coefficient and an exponent, or a special value.
    The coefficient is kept as a number: Python stores its digits without
    leading zeros.  [diag] is the payload of a NaN, [0] for none. *)
Inductive Decimal :=
  | Finite (neg : bool) (coeff : N) (exp : Z)
  | Infinity (neg : bool)
  | NaN (neg : bool) (signaling : bool) (diag : N).

Definition is_finite (d : Decimal) : bool :=
  match d with Finite _ _ _ => true | _ => false end.

Definition is_digit (c : ascii) : bool :=
  let n := nat_of_ascii c in (48 <=? n)%nat && (n <=? 57)%nat.

Definition digit_val (c : ascii) : N := N.of_nat (nat_of_ascii c - 48).

Definition digits_value (ds : list ascii) : N :=
  fold_left (fun acc c => (10 * acc + digit_val c)%N) ds 0%N.

Fixpoint span_digits (l : list ascii) : list ascii * list ascii :=
  match l with
  | [] => ([], [])
  | c :: l' =>
      if is_digit c
      then let '(ds, r) := span_digits l' in (c :: ds, r)
      else ([], l)
  end.

Definition parse_sign (l : list ascii) : bool * list ascii :=
  match l with
  | c :: l' =>
      if Ascii.eqb c "-" then (true, l')
      else if Ascii.eqb c "+" then (false, l')
      else (false, l)
  | [] => (false, [])
  end.

(** The optional exponent [E[+-]digits] that ends a numeric string. *)
Definition parse_exponent (l : list ascii) : option Z :=
  match l with
  | [] => Some 0%Z
  | c :: l' =>
      if Ascii.eqb c "e" then
        let '(neg, r) := parse_sign l' in
        let '(ds, rest) := span_digits r in
        match ds, rest with
        | _ :: _, [] =>
            let v := Z.of_N (digits_value ds) in
            Some (if neg then (- v)%Z else v)
        | _, _ => None
        end
      else None
  end.

Definition parse_nan (neg signaling : bool) (payload : list ascii)
  : option Decimal :=
  if forallb is_digit payload
  then Some (NaN neg signaling (digits_value payload))
  else None.

(** The largest exponent and the smallest exponent of the C implementation
    of [decimal] on a 64-bit build ([MAX_EMAX], and [Etiny] of the widest
    context). *)
Definition MAX_EMAX : Z := 999999999999999999.
Definition MIN_ETINY : Z := -1999999999999999997.

(** The constructor takes a string only when the number it writes is held
    exactly: the exponent of its leading digit is at most [MAX_EMAX] and
    its exponent at least [MIN_ETINY]. *)
Definition exact (coeff : N) (exp : Z) : bool :=
  let digits := Z.of_nat (String.length (string_of_N coeff)) in
  (exp + digits - 1 <=? MAX_EMAX)%Z && (MIN_ETINY <=? exp)%Z.

(** [[sign] digits [. digits] [exponent]] with a digit before or after the
    point. *)
Definition parse_number (neg : bool) (l : list ascii) : option Decimal :=
  let '(ip, r1) := span_digits l in
  let '(fp, r2) :=
    match r1 with
    | c :: r1' => if Ascii.eqb c "." then span_digits r1' else ([], r1)
    | [] => ([], [])
    end in
  match ip ++ fp with
  | [] => None
  | ds =>
      match parse_exponent r2 with
      | Some e =>
          let coeff := digits_value ds in
          let exp := (e - Z.of_nat (length fp))%Z in
          if exact coeff exp then Some (Finite neg coeff exp) else None
      | None => None
      end
  end.

(** [Decimal(s)] for a string, as the C implementation of CPython 3.11
    reads it: [None] stands for [InvalidOperation].  The constructor strips
    white space, drops underscores, and reads the rest without regard to
    case. *)
Definition Decimal_of_string (s : string) : option Decimal :=
  let l := List.filter (fun c => negb (Ascii.eqb c "_"))
                  (list_ascii_of_string (lower (strip s))) in
  let '(neg, r) := parse_sign l in
  let rs := string_of_list_ascii r in
  if String.eqb rs "inf" || String.eqb rs "infinity" then Some (Infinity neg)
  else if String.prefix "nan" rs then parse_nan neg false (skipn 3 r)
  else if String.prefix "snan" rs then parse_nan neg true (skipn 4 r)
  else parse_number neg r.

Definition zeros (n : nat) : string := string_of_list_ascii (repeat "0"%char n).

(** ["%+d" % z]. *)
Definition signed (z : Z) : string :=
  if (z <? 0)%Z then string_of_Z z else "+" +:+ string_of_Z z.

(** [str(d)]: plain notation when the exponent is at most 0 and more than
    -6 digits stand left of the point, scientific notation otherwise. *)
Definition Decimal_str (d : Decimal) : string :=
  match d with
  | Infinity neg => (if neg then "-" else "") +:+ "Infinity"
  | NaN neg signaling diag =>
      (if neg then "-" else "") +:+ (if signaling then "sNaN" else "NaN")
      +:+ (if (diag =? 0)%N then "" else string_of_N diag)
  | Finite neg coeff exp =>
      let int := string_of_N coeff in
      let len := Z.of_nat (String.length int) in
      let leftdigits := (exp + len)%Z in
      let dotplace :=
        if (exp <=? 0)%Z && (-6 <? leftdigits)%Z then leftdigits else 1%Z in
      let '(intpart, fracpart) :=
        if (dotplace <=? 0)%Z then
          ("0", "." +:+ zeros (Z.to_nat (- dotplace)) +:+ int)
        else if (len <=? dotplace)%Z then
          (int +:+ zeros (Z.to_nat (dotplace - len)), "")
        else
          (String.substring 0 (Z.to_nat dotplace) int,
           "." +:+ String.substring (Z.to_nat dotplace)
                                    (Z.to_nat (len - dotplace)) int) in
      let e :=
        if (leftdigits =? dotplace)%Z then ""
        else "E" +:+ signed (leftdigits - dotplace) in
      (if neg then "-" else "") +:+ intpart +:+ fracpart +:+ e
  end.

End PyDecimal.

(* ===================================================================== *)
(** * [datetime.datetime] *)
(* ===================================================================== *)

Module PyDatetime.
Import Py PyDecimal.

(** [tzinfo] is the UTC offset of a fixed-offset [timezone], in
    microseconds; [None] is a naive datetime. *)
Record datetime := mk_datetime {
  year : N; month : N; day : N;
  hour : N; minute : N; second : N; microsecond : N;
  tzinfo : option Z
}.

Definition is_leap (y : N) : bool :=
  ((y mod 4 =? 0) && (negb (y mod 100 =? 0) || (y mod 400 =? 0)))%N.

Definition days_in_month (y m : N) : N :=
  (if m =? 2 then (if is_leap y then 29 else 28)
   else if (m =? 4) || (m =? 6) || (m =? 9) || (m =? 11) then 30
   else 31)%N.

(** The range checks of the [datetime] and [timezone] constructors. *)
Definition valid_datetime (d : datetime) : bool :=
  ((1 <=? year d) && (year d <=? 9999) &&
   (1 <=? month d) && (month d <=? 12) &&
   (1 <=? day d) && (day d <=? days_in_month (year d) (month d)) &&
   (hour d <=? 23) && (minute d <=? 59) && (second d <=? 59) &&
   (microsecond d <=? 999999))%N &&
  match tzinfo d with
  | None => true
  | Some off => (Z.abs off <? 86400000000)%Z
  end.

(** ** [datetime.fromisoformat], as CPython 3.11 implements it in C

    The parser works on the UTF-8 bytes of the text, a C string: past its
    last byte stands the terminator.  Positions are indices into it. *)

Definition NUL : ascii := ascii_of_nat 0.

(** The UTF-8 bytes of a text of code points below 256. *)
Definition utf8 (s : string) : list ascii :=
  flat_map (fun c =>
              let n := nat_of_ascii c in
              if (n <? 128)%nat then [c]
              else [ascii_of_nat (192 + n / 64); ascii_of_nat (128 + n mod 64)])
           (list_ascii_of_string s).

(** [dtstr[i]]. *)
Definition byte_at (dtstr : list ascii) (i : nat) : ascii := nth i dtstr NUL.

(** [parse_digits]: [num_digits] digits from position [p], added to [var];
    the value and the position after them. *)
Fixpoint parse_digits (dtstr : list ascii) (p : nat) (num_digits : nat)
  (var : N) : option (N * nat) :=
  match num_digits with
  | O => Some (var, p)
  | S k =>
      let c := byte_at dtstr p in
      if is_digit c
      then parse_digits dtstr (S p) k (10 * var + digit_val c)%N
      else None
  end.

(** The loop that passes over the digits at [p]; the terminator is no
    digit. *)
Fixpoint skip_digits (dtstr : list ascii) (fuel : nat) (p : nat) : nat :=
  match fuel with
  | O => p
  | S fuel' =>
      if is_digit (byte_at dtstr p) then skip_digits dtstr fuel' (S p) else p
  end.

(** [_find_isoformat_datetime_separator]: where the date ends, told from
    the characters 4 and 5 ([YYYY-MM-DD], [YYYYMMDD], [YYYY-Www],
    [YYYYWww], [YYYY-Www-d], [YYYYWwwd]); [None] is the code -1. *)
Definition _find_isoformat_datetime_separator (dtstr : list ascii) (len : nat)
  : option nat :=
  if (len =? 7)%nat then Some 7%nat
  else if Ascii.eqb (byte_at dtstr 4) "-" then
    if Ascii.eqb (byte_at dtstr 5) "W" then
      if (len <? 8)%nat then None
      else if (8 <? len)%nat && Ascii.eqb (byte_at dtstr 8) "-" then
        if (len =? 9)%nat then None
        else if (10 <? len)%nat && is_digit (byte_at dtstr 10) then Some 8%nat
        else Some 10%nat
      else Some 8%nat
    else Some 10%nat
  else if Ascii.eqb (byte_at dtstr 4) "W" then
    let idx := skip_digits dtstr (len - 7) 7 in
    if (idx <? 9)%nat then Some idx
    else if Nat.even idx then Some 7%nat
    else Some 8%nat
  else Some 8%nat.

(** The days before 1 January of year [y], for [y] at least 1. *)
Definition days_before_year (y : N) : N :=
  let y' := (y - 1)%N in (y' * 365 + y' / 4 - y' / 100 + y' / 400)%N.

Definition days_before_month (y m : N) : N :=
  (nth (N.to_nat m) [0; 0; 31; 59; 90; 120; 151; 181; 212; 243; 273; 304; 334] 0
   + (if (2 <? m) && is_leap y then 1 else 0))%N.

(** [ord_to_ymd], for an ordinal of at least 1. *)
Definition ord_to_ymd (ordinal : N) : N * N * N :=
  let o := (ordinal - 1)%N in
  let n400 := (o / 146097)%N in
  let n := (o mod 146097)%N in
  let n100 := (n / 36524)%N in
  let n := (n mod 36524)%N in
  let n4 := (n / 1461)%N in
  let n := (n mod 1461)%N in
  let n1 := (n / 365)%N in
  let n := (n mod 365)%N in
  let year := (n400 * 400 + 1 + n100 * 100 + n4 * 4 + n1)%N in
  if ((n1 =? 4) || (n100 =? 4))%N then ((year - 1)%N, 12%N, 31%N)
  else
    let month := ((n + 50) / 32)%N in
    let preceding := days_before_month year month in
    if (n <? preceding)%N then
      let month' := (month - 1)%N in
      let preceding' := (preceding - days_in_month year month')%N in
      (year, month', (n - preceding' + 1)%N)
    else (year, month, (n - preceding + 1)%N).

(** [iso_to_ymd]: the date of day [iso_day] of week [iso_week] of an ISO
    year; week 1 starts on the Monday before 1 January, or on the next
    Monday when 1 January falls after a Thursday.  The ISO year 0 is left
    out: none of its days is a date of the years 1 to 9999. *)
Definition iso_to_ymd (iso_year iso_week iso_day : N) : option (N * N * N) :=
  if (iso_year =? 0)%N then None
  else
    let first_day := (days_before_year iso_year + 1)%N in
    let first_weekday := ((first_day + 6) mod 7)%N in
    let week_ok :=
      ((0 <? iso_week) && (iso_week <? 53))%N ||
      ((iso_week =? 53)%N &&
       ((first_weekday =? 3)%N || ((first_weekday =? 2)%N && is_leap iso_year))) in
    if negb week_ok then None
    else if negb ((0 <? iso_day) && (iso_day <? 8))%N then None
    else
      let week1_monday :=
        (first_day - first_weekday + (if 3 <? first_weekday then 7 else 0))%N in
      Some (ord_to_ymd (week1_monday + (iso_week - 1) * 7 + iso_day - 1)%N).

(** [parse_isoformat_date], on the bytes before position [len]. *)
Definition parse_isoformat_date (dtstr : list ascii) (len : nat)
  : option (N * N * N) :=
  '(year, p) ← parse_digits dtstr 0 4 0;
  let uses_separator := Ascii.eqb (byte_at dtstr p) "-" in
  let p := if uses_separator then S p else p in
  if Ascii.eqb (byte_at dtstr p) "W" then
    '(iso_week, p) ← parse_digits dtstr (S p) 2 0;
    if (p <? len)%nat then
      if uses_separator && negb (Ascii.eqb (byte_at dtstr p) "-") then None
      else
        '(iso_day, _) ← parse_digits dtstr (if uses_separator then S p else p) 1 0;
        iso_to_ymd year iso_week iso_day
    else iso_to_ymd year iso_week 1
  else
    '(month, p) ← parse_digits dtstr p 2 0;
    if uses_separator && negb (Ascii.eqb (byte_at dtstr p) "-") then None
    else
      '(day, _) ← parse_digits dtstr (if uses_separator then S p else p) 2 0;
      Some (year, month, day).

(** What [parse_hh_mm_ss_ff] gives when it does not fail: its return code
    ([rest] is the code 1: it stopped before the terminator) and the
    hour, minute, second and microsecond. *)
Record clock := mk_clock {
  rest : bool;
  hh : N; mm : N; ss : N; ff : N
}.

(** The fraction of [parse_hh_mm_ss_ff]: up to six digits are read, the
    digits after them are skipped. *)
Definition parse_ff (tstr : list ascii) (p_end p : nat) (vals : list N)
  : option clock :=
  let to_parse := Nat.min (p_end - p) 6 in
  '(microsecond, p) ← parse_digits tstr p to_parse 0;
  let p := skip_digits tstr (length tstr) p in
  Some (mk_clock (negb (Ascii.eqb (byte_at tstr p) NUL))
                 (nth 0 vals 0%N) (nth 1 vals 0%N) (nth 2 vals 0%N)
                 (microsecond * 10 ^ N.of_nat (6 - to_parse))%N).

(** The loop [for (i = 0; i < 3; ++i)] of [parse_hh_mm_ss_ff] with
    [3 - i = left], then the fraction. *)
Fixpoint parse_hh_mm_ss (tstr : list ascii) (p_end : nat) (left : nat)
  (has_separator : bool) (p : nat) (vals : list N) : option clock :=
  match left with
  | O => parse_ff tstr p_end p vals
  | S left' =>
      '(v, p) ← parse_digits tstr p 2 0;
      let vals := vals ++ [v] in
      let c := byte_at tstr p in
      let p := S p in
      let has_separator :=
        if (left =? 3)%nat then Ascii.eqb c ":" else has_separator in
      if (p_end <=? p)%nat then
        Some (mk_clock (negb (Ascii.eqb c NUL))
                       (nth 0 vals 0%N) (nth 1 vals 0%N) (nth 2 vals 0%N) 0)
      else if has_separator && Ascii.eqb c ":" then
        parse_hh_mm_ss tstr p_end left' has_separator p vals
      else if Ascii.eqb c "." || Ascii.eqb c "," then parse_ff tstr p_end p vals
      else if negb has_separator then
        parse_hh_mm_ss tstr p_end left' has_separator (p - 1) vals
      else None
  end.

(** [parse_hh_mm_ss_ff], on the bytes from [p] to [p_end]:
    [HH[:?MM[:?SS[{.,}f+]]]]. *)
Definition parse_hh_mm_ss_ff (tstr : list ascii) (p p_end : nat) : option clock :=
  parse_hh_mm_ss tstr p_end 3 true p [].

Definition is_tz_mark (c : ascii) : bool :=
  Ascii.eqb c "Z" || Ascii.eqb c "+" || Ascii.eqb c "-".

(** The [do ... while (++tzinfo_pos < p_end)] loop of
    [parse_isoformat_time]: the position of the first [Z], [+] or [-]. *)
Fixpoint find_tzinfo (dtstr : list ascii) (fuel : nat) (tzinfo_pos p_end : nat)
  : nat :=
  if is_tz_mark (byte_at dtstr tzinfo_pos) then tzinfo_pos
  else
    match fuel with
    | S fuel' =>
        if (S tzinfo_pos <? p_end)%nat
        then find_tzinfo dtstr fuel' (S tzinfo_pos) p_end
        else S tzinfo_pos
    | O => S tzinfo_pos
    end.

(** [parse_isoformat_time] on the [dtlen] bytes from [p], followed by
    [tzinfo_from_isoformat_results]: the clock and the offset in
    microseconds.  An offset of no whole second is UTC whatever its
    fraction. *)
Definition parse_isoformat_time (dtstr : list ascii) (p dtlen : nat)
  : option (clock * option Z) :=
  let p_end := (p + dtlen)%nat in
  let tzinfo_pos := find_tzinfo dtstr dtlen p p_end in
  t ← parse_hh_mm_ss_ff dtstr p tzinfo_pos;
  if (tzinfo_pos =? p_end)%nat then
    if rest t then None else Some (t, None)
  else if Ascii.eqb (byte_at dtstr tzinfo_pos) "Z" then
    if Ascii.eqb (byte_at dtstr (S tzinfo_pos)) NUL then Some (t, Some 0%Z)
    else None
  else
    tz ← parse_hh_mm_ss_ff dtstr (S tzinfo_pos) p_end;
    if rest tz then None
    else
      let tzoffset := (hh tz * 3600 + mm tz * 60 + ss tz)%N in
      if (tzoffset =? 0)%N then Some (t, Some 0%Z)
      else
        let total := Z.of_N (tzoffset * 1000000 + ff tz) in
        Some (t, Some (if Ascii.eqb (byte_at dtstr tzinfo_pos) "-"
                       then (- total)%Z else total)).

(** The bytes of the character at [p], read off its first byte. *)
Definition char_width (dtstr : list ascii) (p : nat) : nat :=
  let b := nat_of_ascii (byte_at dtstr p) in
  if (b <? 128)%nat then 1%nat
  else if (240 <=? b)%nat then 4%nat
  else if (224 <=? b)%nat then 3%nat
  else if (192 <=? b)%nat then 2%nat
  else 0%nat.

(** [datetime.fromisoformat(s)]: a date, then, after one character of any
    kind, a time with or without an offset.  [None] stands for
    [ValueError]: a text of fewer than 7 characters, a part that does not
    parse, or fields out of range. *)
Definition fromisoformat (s : string) : option datetime :=
  if (String.length s <? 7)%nat then None
  else
    let dtstr := utf8 s in
    let len := length dtstr in
    separator_location ← _find_isoformat_datetime_separator dtstr len;
    '(year, month, day) ← parse_isoformat_date dtstr separator_location;
    '(t, tz) ←
      (if (separator_location <? len)%nat then
         let p := (separator_location + char_width dtstr separator_location)%nat in
         parse_isoformat_time dtstr p (len - p)
       else Some (mk_clock false 0 0 0 0, None));
    let dt := mk_datetime year month day (hh t) (mm t) (ss t) (ff t) tz in
    if valid_datetime dt then Some dt else None.

(** ["%0<width>d" % n]. *)
Definition pad (width : nat) (n : N) : string :=
  let s := string_of_N n in
  zeros (width - String.length s) +:+ s.

(** The offset as [isoformat] prints it. *)
Definition format_offset (tz : option Z) : string :=
  match tz with
  | None => ""
  | Some off =>
      let sign := if (off <? 0)%Z then "-" else "+" in
      let a := Z.to_N (Z.abs off) in
      let hh := (a / 3600000000)%N in
      let r := (a mod 3600000000)%N in
      let mm := (r / 60000000)%N in
      let r' := (r mod 60000000)%N in
      let ss := (r' / 1000000)%N in
      let us := (r' mod 1000000)%N in
      sign +:+ pad 2 hh +:+ ":" +:+ pad 2 mm +:+
      (if (r' =? 0)%N then ""
       else ":" +:+ pad 2 ss +:+
            (if (us =? 0)%N then "" else "." +:+ pad 6 us))
  end.

(** [d.isoformat()]. *)
Definition isoformat (d : datetime) : string :=
  pad 4 (year d) +:+ "-" +:+ pad 2 (month d) +:+ "-" +:+ pad 2 (day d) +:+ "T"
  +:+ pad 2 (hour d) +:+ ":" +:+ pad 2 (minute d) +:+ ":" +:+ pad 2 (second d)
  +:+ (if (microsecond d =? 0)%N then "" else "." +:+ pad 6 (microsecond d))
  +:+ format_offset (tzinfo d).

End PyDatetime.

(* ===================================================================== *)
(** * [core/constants.py] *)
(* ===================================================================== *)

Module Constants.

Definition LINDAS_BASE_URL : string := "https://environment.ld.admin.ch/foen/hydro".
Definition DIMENSION_URL : string := LINDAS_BASE_URL +:+ "/dimension".

Definition CSV_COLUMNS : list string :=
  [ "timestamp"; "station_id"; "discharge"; "water_level"; "danger_level";
    "water_temperature"; "is_liter" ].

Definition MAX_RETRIES : Z := 3.
Definition INITIAL_RETRY_DELAY : Z := 2.

End Constants.

(* ===================================================================== *)
(** * [models/query.py] *)
(* ===================================================================== *)

Module Query.
Import Constants.

(** [class Parameter(str, Enum)]; [Parameter] is a reserved word here. *)
Inductive Param :=
  | STATION | DISCHARGE | MEASUREMENT_TIME | WATER_LEVEL | DANGER_LEVEL
  | WATER_TEMPERATURE | IS_LITER.

(** [list(Parameter)], in declaration order. *)
Definition all_parameters : list Param :=
  [ STATION; DISCHARGE; MEASUREMENT_TIME; WATER_LEVEL; DANGER_LEVEL;
    WATER_TEMPERATURE; IS_LITER ].

(** [p.value]. *)
Definition value (p : Param) : string :=
  match p with
  | STATION => "station"
  | DISCHARGE => "discharge"
  | MEASUREMENT_TIME => "measurementTime"
  | WATER_LEVEL => "waterLevel"
  | DANGER_LEVEL => "dangerLevel"
  | WATER_TEMPERATURE => "waterTemperature"
  | IS_LITER => "isLiter"
  end.

(** [p.uri]. *)
Definition uri (p : Param) : string :=
  match p with
  | IS_LITER => "http://example.com/isLiter"
  | _ => DIMENSION_URL +:+ "/" +:+ value p
  end.

End Query.

(* ===================================================================== *)
(** * [models/measurement.py] *)
(* ===================================================================== *)

Module Model.
Import Py PyDecimal PyDatetime.

(** [class Measurement(BaseModel)]. *)
Record Measurement := mk_Measurement {
  station_id : string;
  timestamp : datetime;
  discharge : option Decimal;
  water_level : option Decimal;
  water_temperature : option Decimal;
  danger_level : option Z;
  is_liter : option bool
}.

(** What the validators take from libraries whose versions read texts in
    ways of their own: [decimal.Decimal(s)] ([None] for
    [InvalidOperation]), [datetime.fromisoformat(s)] ([None] for
    [ValueError]) and pydantic's conversion of a string to [int] in lax
    mode ([None] for a validation error). *)
Class Libraries := {
  decimal_Decimal : string -> option Decimal;
  datetime_fromisoformat : string -> option datetime;
  pydantic_int : string -> option Z
}.

(** ** pydantic's lax mode *)

(** Rust's [str::parse] for an integer: an optional sign and decimal
    digits. *)
Definition parse_integer (l : list ascii) : option Z :=
  let '(neg, r) := parse_sign l in
  match r with
  | [] => None
  | _ =>
      if forallb is_digit r
      then let v := Z.of_N (digits_value r) in Some (if neg then (- v)%Z else v)
      else None
  end.

(** The text before the first point, when nothing but zeros follows the
    point. *)
Fixpoint strip_decimal_zeros (l : list ascii) : option (list ascii) :=
  match l with
  | [] => None
  | c :: l' =>
      if Ascii.eqb c "."
      then if forallb (Ascii.eqb "0") l' then Some [] else None
      else cons c <$> strip_decimal_zeros l'
  end.

(** pydantic's conversion of a string to [int] in lax mode, as
    pydantic-core 2 does it: the string is trimmed and, if it has at most
    4300 characters, read as an integer, or as an integer followed by a
    point and zeros ("3.0" is 3).  What some versions read beyond that
    (underscores between digits) is left out. *)
Definition int_of_string (s : string) : option Z :=
  let l := list_ascii_of_string (strip_with unicode_space s) in
  if (4300 <? length l)%nat then None
  else
    match parse_integer l with
    | Some z => Some z
    | None => strip_decimal_zeros l ≫= parse_integer
    end.

(** pydantic's conversion of a float to [int] in lax mode: the float must
    be finite, have no fractional part and lie strictly between -2^63 and
    2^63.  The float is read from its [repr]. *)
Definition int_of_float (r : string) : option Z :=
  match Decimal_of_string r with
  | Some (Finite neg c e) =>
      let v :=
        if (0 <=? e)%Z then Some (Z.of_N c * 10 ^ e)%Z
        else if (Z.of_N c mod 10 ^ (- e) =? 0)%Z
             then Some (Z.of_N c / 10 ^ (- e))%Z
             else None in
      z ← (fun z => if neg then (- z)%Z else z) <$> v;
      if (- 2 ^ 63 <? z)%Z && (z <? 2 ^ 63)%Z then Some z else None
  | _ => None
  end.

(** The libraries as the models of this file have them: CPython 3.11 and
    pydantic 2. *)
#[global] Instance reference : Libraries := {|
  decimal_Decimal := Decimal_of_string;
  datetime_fromisoformat := fromisoformat;
  pydantic_int := int_of_string
|}.

(** ** The validators and the fields *)

Section Validators.
Context {lib : Libraries}.

(** [Decimal(str(v))], [None] for the exceptions [parse_decimal] catches.
    [str] of a list or a dict opens with a bracket and [str] of [None] or
    a bool is a word: neither reads as a decimal. *)
Definition Decimal_of_str (v : pyval) : option Decimal :=
  match v with
  | PStr s => decimal_Decimal s
  | PInt z => str_of_int z ≫= decimal_Decimal
  | PFloat r => decimal_Decimal r
  | PBool b => decimal_Decimal (if b then "True" else "False")
  | PNone => decimal_Decimal "None"
  | PList _ | PDict _ => None
  end.

(** [parse_decimal], the [mode="before"] validator of the three decimal
    fields. *)
Definition parse_decimal (v : pyval) : option Decimal :=
  match v with
  | PNone => None
  | _ =>
      if match v with PStr s => String.eqb (strip s) "" | _ => false end
      then None
      else Decimal_of_str v
  end.

(** [parse_timestamp], the [mode="before"] validator of [timestamp].  A JSON
    value is never a [datetime] instance, so the first test of the source
    fails. *)
Definition parse_timestamp (v : pyval) : res datetime :=
  match v with
  | PStr s =>
      match datetime_fromisoformat (replace "Z" "+00:00" s) with
      | Some d => Ok d
      | None => Raise ValueError
      end
  | _ => Raise ValueError
  end.

(** [parse_bool], the [mode="before"] validator of [is_liter]. *)
Definition parse_bool (v : pyval) : option bool :=
  match v with
  | PNone => None
  | PBool b => Some b
  | PStr s =>
      let v_lower := strip (lower s) in
      if existsb (String.eqb v_lower) ["true"; "1"; "yes"] then Some true
      else if existsb (String.eqb v_lower) ["false"; "0"; "no"] then Some false
      else None
  | _ => None
  end.

(** pydantic's lax [int] validation of an input value: an [int] as it is,
    a bool as 0 or 1, a float without fractional part, a string that reads
    as an integer. *)
Definition int_lax (v : pyval) : option Z :=
  match v with
  | PInt z => Some z
  | PBool b => Some (if b then 1 else 0)%Z
  | PStr s => pydantic_int s
  | PFloat r => int_of_float r
  | PNone | PList _ | PDict _ => None
  end.

(** Field [station_id: str] under [str_strip_whitespace=True]. *)
Definition validate_station_id (o : option pyval) : res string :=
  match o with
  | Some (PStr s) => Ok (strip_with unicode_space s)
  | _ => Raise ValidationError
  end.

(** Field [timestamp: datetime]: required; an error of the validator
    becomes a [ValidationError]. *)
Definition validate_timestamp (o : option pyval) : res datetime :=
  match o with
  | Some v =>
      match parse_timestamp v with
      | Ok d => Ok d
      | Raise _ => Raise ValidationError
      end
  | None => Raise ValidationError
  end.

(** A field [Decimal | None = None]: the validator runs on a supplied
    value, and pydantic then refuses a decimal that is not finite. *)
Definition validate_decimal (o : option pyval) : res (option Decimal) :=
  match o with
  | None => Ok None
  | Some v =>
      match parse_decimal v with
      | None => Ok None
      | Some d => if is_finite d then Ok (Some d) else Raise ValidationError
      end
  end.

(** Field [danger_level: int | None = Field(None, ge=0, le=5)]. *)
Definition validate_danger_level (o : option pyval) : res (option Z) :=
  match o with
  | None | Some PNone => Ok None
  | Some v =>
      match int_lax v with
      | Some z =>
          if (0 <=? z)%Z && (z <=? 5)%Z then Ok (Some z)
          else Raise ValidationError
      | None => Raise ValidationError
      end
  end.

(** Field [is_liter: bool | None = None]. *)
Definition validate_is_liter (o : option pyval) : res (option bool) :=
  match o with
  | None => Ok None
  | Some v => Ok (parse_bool v)
  end.

(** The constructor called with [data] as its keyword arguments: every
    field is validated and any failure raises [ValidationError]. *)
Definition Measurement_init (data : gmap string pyval) : res Measurement :=
  sid ← validate_station_id (data !! "station_id");
  ts ← validate_timestamp (data !! "timestamp");
  q ← validate_decimal (data !! "discharge");
  wl ← validate_decimal (data !! "water_level");
  wt ← validate_decimal (data !! "water_temperature");
  dl ← validate_danger_level (data !! "danger_level");
  il ← validate_is_liter (data !! "is_liter");
  mret (mk_Measurement sid ts q wl wt dl il).

End Validators.

(** [has_measurements]. *)
Definition has_measurements (m : Measurement) : bool :=
  existsb (fun field => bool_decide (is_Some field))
          [discharge m; water_level m; water_temperature m].

Definition str_opt {A} (f : A -> string) (o : option A) : option string :=
  f <$> o.

(** [to_csv_dict]. *)
Definition to_csv_dict (m : Measurement) : gmap string (option string) :=
  list_to_map
    [ ("timestamp", Some (isoformat (timestamp m)));
      ("station_id", Some (station_id m));
      ("discharge", str_opt Decimal_str (discharge m));
      ("water_level", str_opt Decimal_str (water_level m));
      ("danger_level", str_opt string_of_Z (danger_level m));
      ("water_temperature", str_opt Decimal_str (water_temperature m));
      ("is_liter", str_opt (fun b : bool => if b then "true" else "false")
                           (is_liter m)) ].

(** [unique_key]. *)
Definition unique_key (m : Measurement) : string :=
  isoformat (timestamp m) +:+ "_" +:+ station_id m.

End Model.

(* ===================================================================== *)
(** * [core/data_processor.py] *)
(* ===================================================================== *)

Module DataProcessor.
Import Py PyDecimal PyDatetime Model.

(** The [field_mapping] dictionary of [_map_predicate_to_field]. *)
Definition field_mapping : gmap string string :=
  list_to_map
    [ ("measurementTime", "timestamp");
      ("discharge", "discharge");
      ("waterLevel", "water_level");
      ("waterTemperature", "water_temperature");
      ("dangerLevel", "danger_level");
      ("isLiter", "is_liter") ].

(** [_map_predicate_to_field].  The argument is whatever the binding
    carries, so [in] and [.split] are those of an arbitrary value. *)
Definition _map_predicate_to_field (predicate_uri : pyval)
  : res (option string) :=
  in_dimension ← py_in "/dimension/" predicate_uri;
  if in_dimension : bool then
    param_name ← py_split_last predicate_uri "/dimension/";
    mret (field_mapping !! param_name)
  else
    in_example ← py_in "example.com/" predicate_uri;
    if in_example : bool then
      param_name ← py_split_last predicate_uri "example.com/";
      mret (field_mapping !! param_name)
    else mret None.

(** [_validate_results]: the chain of [and] stops at its first falsy
    operand; [bool()] is taken of the operand it stops at. *)
Definition _validate_results (results : pyval) : res bool :=
  if negb (truthy results) then mret false
  else if negb (is_dict results) then mret false
  else
    has_results ← py_in "results" results;
    if negb has_results then mret false
    else
      section ← py_getitem results "results";
      has_bindings ← py_in "bindings" section;
      if negb has_bindings then mret false
      else
        section' ← py_getitem results "results";
        bindings ← py_getitem section' "bindings";
        mret (truthy bindings).

(** The body of the [for] loop of [_extract_data], on one binding. *)
Definition extract_binding (data : gmap string pyval) (binding : pyval)
  : res (gmap string pyval) :=
  p ← py_get binding "predicate" (PDict ∅);
  predicate ← py_get p "value" (PStr "");
  o ← py_get binding "object" (PDict ∅);
  value ← py_get o "value" PNone;
  if negb (truthy predicate) || is_none value then mret data
  else
    field_name ← _map_predicate_to_field predicate;
    match field_name with
    | Some f => if String.eqb f "" then mret data else mret (<[f := value]> data)
    | None => mret data
    end.

(** The loop itself: the bindings in order, stopping at the first
    exception. *)
Fixpoint extract_loop (data : gmap string pyval) (bindings : list pyval)
  : res (gmap string pyval) :=
  match bindings with
  | [] => mret data
  | binding :: rest =>
      data' ← extract_binding data binding;
      extract_loop data' rest
  end.

(** [_extract_data]. *)
Definition _extract_data (results : pyval) (station_id : string)
  : res (gmap string pyval) :=
  let data : gmap string pyval := {[ "station_id" := PStr station_id ]} in
  section ← py_getitem results "results";
  bindings ← py_getitem section "bindings";
  items ← py_iter bindings;
  extract_loop data items.

(** [data.get("timestamp")] tested for truth. *)
Definition has_timestamp (data : gmap string pyval) : bool :=
  truthy (default PNone (data !! "timestamp")).

Section Processing.
Context {lib : Libraries}.

(** [process_results]: the value returned or the exception that escapes,
    with the records logged on the way.  Only the construction of the
    Measurement stands inside the [try]. *)
Definition process_results (results : pyval) (station_id : string)
  : list log_record * res (option Measurement) :=
  match _validate_results results with
  | Raise e => ([], Raise e)
  | Ok false =>
      ([(WARNING, "Invalid results structure for station {station_id}")],
       Ok None)
  | Ok true =>
      match _extract_data results station_id with
      | Raise e => ([], Raise e)
      | Ok data =>
          if negb (has_timestamp data) then
            ([(WARNING, "No timestamp found for station {station_id}")],
             Ok None)
          else
            match Measurement_init data with
            | Ok measurement =>
                if has_measurements measurement then ([], Ok (Some measurement))
                else
                  ([(WARNING,
                     "No valid measurements found for station {station_id}")],
                   Ok None)
            | Raise _ =>
                ([(ERROR,
                   "Error creating measurement for station {station_id}: {e}")],
                 Ok None)
            end
      end
  end.

End Processing.

End DataProcessor.

(* ===================================================================== *)
(** * [core/sparql_client.py] *)
(* ===================================================================== *)

Module SparqlClient.
Import Py.

(** A delay is an [int] (the default [INITIAL_RETRY_DELAY]) or a [float]
    (what the settings supply); a float is an IEEE 754 binary64 number. *)
Inductive number :=
  | NInt (z : Z)
  | NFloat (f : float).

(** [retry_delay *= 2]. *)
Definition times2 (d : number) : number :=
  match d with
  | NInt z => NInt (z * 2)
  | NFloat f => NFloat (f * 2)%float
  end.

(** [time.sleep(d)] raises [ValueError] on a negative delay or a NaN and
    [OverflowError] on a delay beyond the range of the nanosecond clock
    (taken here as 9223372036 seconds). *)
Definition time_sleep (d : number) : res unit :=
  match d with
  | NInt z =>
      if (z <? 0)%Z then Raise ValueError
      else if (9223372036 <? z)%Z then Raise OverflowError
      else Ok tt
  | NFloat f =>
      if PrimFloat.is_nan f || (f <? 0)%float then Raise ValueError
      else if (9223372036 <? f)%float then Raise OverflowError
      else Ok tt
  end.

(** [len(v)]. *)
Definition py_len (v : pyval) : res nat :=
  match v with
  | PList l => Ok (length l)
  | PStr s => Ok (String.length s)
  | PDict d => Ok (size d)
  | PNone | PBool _ | PInt _ | PFloat _ => Raise TypeError
  end.

(** [class SparqlClient]: the fields set by [__init__]. *)
Record client := mk_client {
  endpoint_url : string;
  max_retries : Z;
  initial_delay : number
}.

(** [SparqlClient(endpoint_url)], with the defaults of [__init__]. *)
Definition default_client (endpoint_url : string) : client :=
  mk_client endpoint_url Constants.MAX_RETRIES
            (NInt Constants.INITIAL_RETRY_DELAY).

(** What one call of [self._client.query().convert()] does: it returns the
    converted response or raises. *)
Inductive outcome :=
  | Converted (results : pyval)
  | Raises (e : exn).

(** What a run of [execute_query] does to the outside, in order. *)
Inductive event :=
  | Query                      (* one request sent to the endpoint *)
  | Sleep (d : number)         (* one completed [time.sleep(d)] *)
  | Log (r : log_record).

(** [_validate_results]. *)
Definition _validate_results (results : pyval) : res bool :=
  if negb (is_dict results) then mret false
  else
    has_results ← py_in "results" results;
    if negb has_results then mret false
    else
      section ← py_getitem results "results";
      has_bindings ← py_in "bindings" section;
      if negb has_bindings then mret false
      else
        section' ← py_getitem results "results";
        bindings ← py_getitem section' "bindings";
        mret (is_list bindings).

(** [len(results.get("results", {}).get("bindings", []))]. *)
Definition bindings_count (results : pyval) : res nat :=
  section ← py_get results "results" (PDict ∅);
  bindings ← py_get section "bindings" (PList []);
  py_len bindings.

(** How one pass through the loop body ends. *)
Inductive pass :=
  | Return (r : option pyval)      (* a [return] statement *)
  | Continue (retry_delay : number) (* on to the next attempt *)
  | Escape (e : exn).              (* an exception leaves [execute_query] *)

(** The handler [except SPARQLWrapperException]; an exception raised by
    [time.sleep] inside a handler is caught by no other clause. *)
Definition on_sparql_error (c : client) (attempt : nat) (retry_delay : number)
  : list event * pass :=
  let warned :=
    [Log (WARNING,
          "SPARQL query failed (attempt {attempt + 1}/{self.max_retries}): {e}")] in
  if (Z.of_nat attempt <? max_retries c - 1)%Z then
    let told := warned ++ [Log (INFO, "Retrying in {retry_delay} seconds...")] in
    match time_sleep retry_delay with
    | Ok _ => (told ++ [Sleep retry_delay], Continue (times2 retry_delay))
    | Raise e => (told, Escape e)
    end
  else (warned, Continue retry_delay).

(** The handlers of the [try] statement, for an exception raised in its
    body. *)
Definition on_exception (c : client) (attempt : nat) (retry_delay : number)
  (e : exn) : list event * pass :=
  match e with
  | SPARQLWrapperException => on_sparql_error c attempt retry_delay
  | _ => ([Log (ERROR, "Unexpected error executing query: {e}")], Return None)
  end.

(** The body of the [try] statement once the response is converted. *)
Definition on_results (results : pyval) : res (list event * pass) :=
  valid ← _validate_results results;
  if valid : bool then
    _ ← bindings_count results;
    mret ([Log (INFO, "Query successful, retrieved {bindings_count} bindings")],
          Return (Some results))
  else
    mret ([Log (WARNING, "Query returned empty or invalid results")],
          Return None).

(** One pass through the body of the [for] loop. *)
Definition attempt_once (c : client) (answer : outcome) (attempt : nat)
  (retry_delay : number) : list event * pass :=
  let started :=
    [Log (DEBUG, "Executing query (attempt {attempt + 1}/{self.max_retries})");
     Query] in
  let '(evs, p) :=
    match answer with
    | Converted results =>
        match on_results results with
        | Ok r => r
        | Raise e => on_exception c attempt retry_delay e
        end
    | Raises e => on_exception c attempt retry_delay e
    end in
  (started ++ evs, p).

(** The [for attempt in range(self.max_retries)] loop with what follows it;
    [endpoint k] is the endpoint's answer to the request of attempt [k]. *)
Fixpoint attempts (c : client) (endpoint : nat -> outcome) (remaining : nat)
  (attempt : nat) (retry_delay : number) : list event * res (option pyval) :=
  match remaining with
  | O =>
      ([Log (ERROR,
             "Query failed after {self.max_retries} attempts. Last error: {last_error}")],
       Ok None)
  | S remaining' =>
      let '(evs, p) := attempt_once c (endpoint attempt) attempt retry_delay in
      match p with
      | Return r => (evs, Ok r)
      | Escape e => (evs, Raise e)
      | Continue retry_delay' =>
          let '(evs', r) :=
            attempts c endpoint remaining' (S attempt) retry_delay' in
          (evs ++ evs', r)
      end
  end.

(** [execute_query]. *)
Definition execute_query (c : client) (endpoint : nat -> outcome)
  : list event * res (option pyval) :=
  attempts c endpoint (Z.to_nat (max_retries c)) 0 (initial_delay c).

(** [test_connection]: whether the test query
    [SELECT ?s WHERE { ?s ?p ?o } LIMIT 1] returned a result. *)
Definition test_connection (c : client) (endpoint : nat -> outcome)
  : list event * bool :=
  let '(evs, r) := execute_query c endpoint in
  match r with
  | Ok (Some _) => (evs, true)
  | Ok None => (evs, false)
  | Raise _ => (evs ++ [Log (ERROR, "Connection test failed: {e}")], false)
  end.

(** The requests sent and the delays slept, read off a trace. *)
Definition queries (evs : list event) : nat :=
  length (List.filter (fun e => match e with Query => true | _ => false end) evs).

Definition sleeps (evs : list event) : list number :=
  omap (fun e => match e with Sleep d => Some d | _ => None end) evs.

(** The trace without its log records. *)
Definition effects (evs : list event) : list event :=
  List.filter (fun e => match e with Log _ => false | _ => true end) evs.

End SparqlClient.

(* ===================================================================== *)
(** * [utils/csv_handler.py] *)
(* ===================================================================== *)

Module CsvHandler.
Import Py Constants Model.

(** A CSV file is read and written through [csv] and [pandas]; it is kept
    here as its lines, the header line first, each line as its cells.
    Quoting only matters for the text of a line, see [format_line]. *)
Abbreviation line := (list string).

(** [class CsvHandler]: the file at [self.csv_path] ([None] when the path
    does not exist) and the set [self._processed_keys]. *)
Record handler := mk_handler {
  csv_file : option (list line);
  _processed_keys : gset string
}.

(** ** [csv.DictWriter] *)

(** A row dictionary laid out under [fieldnames]: a missing key and [None]
    are both written as the empty cell. *)
Definition dict_to_line (fieldnames : list string)
  (rowdict : gmap string (option string)) : line :=
  map (fun key => match rowdict !! key with Some (Some s) => s | _ => "" end)
      fieldnames.

Definition quote_char : ascii := ascii_of_nat 34.

Definition needs_quotes (c : ascii) : bool :=
  Ascii.eqb c "," || Ascii.eqb c quote_char ||
  Ascii.eqb c (ascii_of_nat 13) || Ascii.eqb c (ascii_of_nat 10).

Fixpoint double_quotes (s : string) : string :=
  match s with
  | EmptyString => EmptyString
  | String c s' =>
      if Ascii.eqb c quote_char
      then String c (String c (double_quotes s'))
      else String c (double_quotes s')
  end.

(** A cell under [QUOTE_MINIMAL]. *)
Definition format_cell (s : string) : string :=
  if existsb needs_quotes (list_ascii_of_string s)
  then String quote_char (double_quotes s) +:+ String quote_char EmptyString
  else s.

(** The text of a line, without its terminator. *)
Definition format_line (l : line) : string :=
  String.concat "," (map format_cell l).

(** [open(path, "a")] then [writerows]: the path is created when absent. *)
Definition append_lines (f : option (list line)) (ls : list line)
  : option (list line) :=
  Some (default [] f ++ ls).

(** ** [pandas] *)

(** The cell texts [read_csv] reads as missing, also under [dtype=str]. *)
Definition na_values : list string :=
  [ ""; "#N/A"; "#N/A N/A"; "#NA"; "-1.#IND"; "-1.#QNAN"; "-NaN"; "-nan";
    "1.#IND"; "1.#QNAN"; "<NA>"; "N/A"; "NA"; "NULL"; "NaN"; "None"; "n/a";
    "nan"; "null" ].

(** A cell as [read_csv] yields it: [None] is NaN. *)
Definition pd_cell (s : string) : option string :=
  if existsb (String.eqb s) na_values then None else Some s.

Record DataFrame := mk_frame {
  columns : list string;
  rows : list (list (option string))
}.

(** A line under a header of [n] columns: short lines are filled with
    NaN. *)
Definition read_row (n : nat) (l : line) : list (option string) :=
  map (fun i => pd_cell (nth i l "")) (seq 0 n).

Definition blank_char (c : ascii) : bool :=
  Ascii.eqb c " " || Ascii.eqb c (ascii_of_nat 9).

(** A line [read_csv] passes over ([skip_blank_lines]): one whose text is
    empty or made of blanks and tabs. *)
Definition blank_line (l : line) : bool :=
  match l with
  | [] => true
  | [cell] => forallb blank_char (list_ascii_of_string cell)
  | _ => false
  end.

(** [pd.read_csv(path, dtype=str)] on the lines of an existing file.  Blank
    lines are passed over; the first line left is the header, and a file
    with none raises [EmptyDataError], a [ValueError].  When the first line
    under the header has more cells than the header, its leading cells in
    excess are taken as the index of the frame, in every line; a later
    line with more cells than that raises [ParserError], a [ValueError].
    (The names of the header are taken as they are: a header with a
    repeated or an empty name is outside what is modelled.) *)
Definition read_csv (lines : list line) : res DataFrame :=
  match List.filter (fun l => negb (blank_line l)) lines with
  | [] => Raise ValueError
  | header :: body =>
      let n := length header in
      let width :=
        match body with
        | [] => n
        | first :: _ => Nat.max n (length first)
        end in
      if forallb (fun l => (length l <=? width)%nat) body
      then Ok (mk_frame header
                        (map (fun l => read_row n (skipn (width - n) l)) body))
      else Raise ValueError
  end.

Fixpoint col_index (name : string) (cols : list string) : option nat :=
  match cols with
  | [] => None
  | c :: cols' =>
      if String.eqb c name then Some O else S <$> col_index name cols'
  end.

(** The value of a row at a column index. *)
Definition cell_at (row : list (option string)) (i : nat) : option string :=
  nth i row None.

(** The key of a data-frame row, as the set comprehensions build it:
    [f"{row['timestamp']}_{row['station_id']}"] when both [row.get(...)]
    pass [pd.notna]. *)
Definition row_key (cols : list string) (row : list (option string))
  : option string :=
  match col_index "timestamp" cols, col_index "station_id" cols with
  | Some i, Some j =>
      match cell_at row i, cell_at row j with
      | Some t, Some s => Some (t +:+ "_" +:+ s)
      | _, _ => None
      end
  | _, _ => None
  end.

Definition frame_keys (df : DataFrame) : gset string :=
  list_to_set (omap (row_key (columns df)) (rows df)).

(** The values [drop_duplicates] compares, NaN equal to NaN. *)
Definition pair_at (i j : nat) (row : list (option string))
  : option string * option string :=
  (cell_at row i, cell_at row j).

(** Rows whose pair was seen before are dropped: [keep="first"]. *)
Fixpoint keep_first (i j : nat) (seen : list (option string * option string))
  (rs : list (list (option string))) : list (list (option string)) :=
  match rs with
  | [] => []
  | r :: rs' =>
      if bool_decide (pair_at i j r ∈ seen)
      then keep_first i j seen rs'
      else r :: keep_first i j (pair_at i j r :: seen) rs'
  end.

(** [df.drop_duplicates(subset=["timestamp", "station_id"], keep="first")];
    [KeyError] when a column of the subset is missing. *)
Definition drop_duplicates (df : DataFrame) : res DataFrame :=
  match col_index "timestamp" (columns df),
        col_index "station_id" (columns df) with
  | Some i, Some j => Ok (mk_frame (columns df) (keep_first i j [] (rows df)))
  | _, _ => Raise KeyError
  end.

(** [df.to_csv(path, index=False)]: NaN is written as the empty cell. *)
Definition to_csv (df : DataFrame) : list line :=
  columns df :: map (map (default "")) (rows df).

(** ** The handler *)

(** [_ensure_csv_exists]; [writable] tells whether the file can be
    created.  An [OSError] here is not caught. *)
Definition _ensure_csv_exists (writable : bool) (f : option (list line))
  : res (list log_record * option (list line)) :=
  match f with
  | Some _ => Ok ([], f)
  | None =>
      if writable
      then Ok ([(INFO, "Created new CSV file: {self.csv_path}")],
               Some [CSV_COLUMNS])
      else Raise OSError
  end.

(** [_load_processed_keys]; [readable] tells whether the read succeeds.
    [st_size > 0] holds when the file has a line. *)
Definition _load_processed_keys (readable : bool) (f : option (list line))
  : list log_record * gset string :=
  match f with
  | Some (l :: ls) =>
      match (if readable then read_csv (l :: ls) else Raise OSError) with
      | Ok df =>
          ([(DEBUG, "Loaded {len(self._processed_keys)} existing records")],
           frame_keys df)
      | Raise _ => ([(ERROR, "Error loading existing records: {e}")], ∅)
      end
  | _ => ([], ∅)
  end.

(** [__init__], on the file found at [csv_path]. *)
Definition init (writable readable : bool) (f : option (list line))
  : res (list log_record * handler) :=
  '(logs1, f') ← _ensure_csv_exists writable f;
  let '(logs2, keys) := _load_processed_keys readable f' in
  mret (logs1 ++ logs2, mk_handler f' keys).

(** The body of the loop of [save_measurements]. *)
Definition stage (acc : list (gmap string (option string)) * gset string)
  (measurement : Measurement)
  : list (gmap string (option string)) * gset string :=
  let '(new_records, keys) := acc in
  if bool_decide (unique_key measurement ∉ keys)
  then (new_records ++ [to_csv_dict measurement],
        keys ∪ {[ unique_key measurement ]})
  else acc.

(** [save_measurements]; [writable] tells whether the append succeeds.  A
    write that fails is taken to fail before any row reaches the file. *)
Definition save_measurements (measurements : list Measurement)
  (writable : bool) (h : handler) : list log_record * nat * handler :=
  match measurements with
  | [] => ([], O, h)
  | _ =>
      let '(new_records, keys) :=
        fold_left stage measurements ([], _processed_keys h) in
      match new_records with
      | [] => ([], length new_records, mk_handler (csv_file h) keys)
      | _ =>
          if writable then
            ([(INFO, "Saved {len(new_records)} new records to {self.csv_path}")],
             length new_records,
             mk_handler
               (append_lines (csv_file h)
                  (map (dict_to_line CSV_COLUMNS) new_records))
               keys)
          else
            ([(ERROR, "Error writing to CSV: {e}")], O,
             mk_handler (csv_file h) keys)
      end
  end.

(** [remove_duplicates]; [readable] and [writable] tell whether the read
    and the rewrite succeed.  A rewrite that fails is taken to leave the
    file as it was. *)
Definition remove_duplicates (readable writable : bool) (h : handler)
  : list log_record * nat * handler :=
  match csv_file h with
  | None => ([(WARNING, "CSV file does not exist")], O, h)
  | Some lines =>
      let failed := ([(ERROR, "Error removing duplicates: {e}")], O, h) in
      match (if readable then read_csv lines else Raise OSError) with
      | Raise _ => failed
      | Ok df =>
          let initial_count := length (rows df) in
          match drop_duplicates df with
          | Raise _ => failed
          | Ok df_cleaned =>
              let removed_count :=
                (initial_count - length (rows df_cleaned))%nat in
              if (0 <? removed_count)%nat then
                if writable then
                  ([(INFO, "Removed {removed_count} duplicate records")],
                   removed_count,
                   mk_handler (Some (to_csv df_cleaned)) (frame_keys df_cleaned))
                else failed
              else ([], removed_count, h)
          end
      end
  end.

(** [get_record_count]. *)
Definition get_record_count (readable : bool) (h : handler) : nat :=
  match csv_file h with
  | None => O
  | Some lines =>
      match (if readable then read_csv lines else Raise OSError) with
      | Ok df => length (rows df)
      | Raise _ => O
      end
  end.

End CsvHandler.

(* ===================================================================== *)
(** * [core/query_builder.py] *)
(* ===================================================================== *)

Module QueryBuilder.
Import Py PyDecimal Constants Query.

(** [LINDAS_GRAPH] of [core/constants.py]. *)
Definition LINDAS_GRAPH : string := "https://lindas.admin.ch/foen/hydro".

(** The digits of an integer literal: decimal digits, with single
    underscores allowed between two of them. *)
Fixpoint literal_digits (l : list ascii) : option (list ascii) :=
  match l with
  | [] => None
  | c :: l' =>
      if is_digit c then
        match l' with
        | [] => Some [c]
        | u :: l'' =>
            if Ascii.eqb u "_"
            then cons c <$> literal_digits l''
            else cons c <$> literal_digits l'
        end
      else None
  end.

(** [int(s)] for a [str] of ASCII characters: white space around (blank,
    tab, line feed, vertical tab, form feed, carriage return), an optional
    sign, the digits.  [None] stands for [ValueError], which is also what a
    literal of more than 4300 digits raises. *)
Definition py_int (s : string) : option Z :=
  let '(neg, r) :=
    parse_sign (list_ascii_of_string (strip_with unicode_space s)) in
  match literal_digits r with
  | Some ds =>
      if (4300 <? length ds)%nat then None
      else
        let v := Z.of_N (digits_value ds) in
        Some (if neg then (- v)%Z else v)
  | None => None
  end.

(** An element of [params.parameters]: a member of the [Parameter]
    enumeration, or a plain string (what a model configured with
    [use_enum_values] holds in place of a member). *)
Inductive item :=
  | Member (p : Param)
  | Plain (s : string).

(** [class QueryParameters(BaseModel)]. *)
Record QueryParameters := mk_QueryParameters {
  site_code : string;
  parameters : list item
}.

(** [QueryParameters(site_code=..., parameters=...)] called with a [str]
    and a list of members of [Parameter]: pydantic validates both and, the
    model being configured with [use_enum_values = True], keeps the value of
    each member, a plain string, in place of the member. *)
Definition QueryParameters_init (site_code : string) (parameters : list Param)
  : QueryParameters :=
  mk_QueryParameters site_code (map (fun p => Plain (value p)) parameters).

(** [class SparqlQueryBuilder]: the field set by [__init__]. *)
Record builder := mk_builder {
  base_url : string
}.

(** [SparqlQueryBuilder()], with the default of [__init__]. *)
Definition default_builder : builder := mk_builder LINDAS_BASE_URL.

(** [_validate_parameters].  Every exception it raises is a [ValueError]:
    the one of [int()] is replaced by another of the same class, the one
    of the range test is raised again as it is. *)
Definition _validate_parameters (params : QueryParameters) : res unit :=
  if String.eqb (site_code params) "" then Raise ValueError
  else
    match py_int (site_code params) with
    | None => Raise ValueError
    | Some code_int =>
        if negb ((1 <=? code_int)%Z && (code_int <=? 9999)%Z)
        then Raise ValueError
        else
          match parameters params with
          | [] => Raise ValueError
          | _ :: _ => Ok tt
          end
    end.

(** [param.uri]: a plain string has no such attribute. *)
Definition item_uri (param : item) : res string :=
  match param with
  | Member p => Ok (uri p)
  | Plain _ => Raise AttributeError
  end.

(** The list comprehension [[f"<{param.uri}>" for param in parameters]]. *)
Fixpoint param_uris (parameters : list item) : res (list string) :=
  match parameters with
  | [] => Ok []
  | param :: rest =>
      u ← item_uri param;
      us ← param_uris rest;
      mret (("<" +:+ u +:+ ">") :: us)
  end.

Definition newline : string := String (ascii_of_nat 10) EmptyString.

(** [_build_parameters_filter]. *)
Definition _build_parameters_filter (parameters : list item) : res string :=
  us ← param_uris parameters;
  mret (String.concat ("," +:+ newline +:+ "    ") us).

(** [build_query]. *)
Definition build_query (b : builder) (params : QueryParameters) : res string :=
  _ ← _validate_parameters params;
  params_filter ← _build_parameters_filter (parameters params);
  mret ("PREFIX schema: <http://schema.org/>" +:+ newline +:+
        "PREFIX rdf: <http://www.w3.org/1999/02/22-rdf-syntax-ns#>" +:+ newline +:+
        "PREFIX rdfs: <http://www.w3.org/2000/01/rdf-schema#>" +:+ newline +:+
        newline +:+
        "SELECT ?predicate ?object" +:+ newline +:+
        "FROM <" +:+ LINDAS_GRAPH +:+ ">" +:+ newline +:+
        "WHERE {" +:+ newline +:+
        "  BIND(<" +:+ base_url b +:+ "/river/observation/" +:+
          site_code params +:+ "> AS ?subject)" +:+ newline +:+
        "  ?subject ?predicate ?object ." +:+ newline +:+
        "  FILTER (?predicate IN (" +:+ newline +:+
        "    " +:+ params_filter +:+ newline +:+
        "  ))" +:+ newline +:+
        "}").

End QueryBuilder.

(* ===================================================================== *)
(** * [scrapers/lindas_scraper.py] *)
(* ===================================================================== *)

Module Scraper.
Import Py Query Model QueryBuilder.

(** [class LindasHydroScraper]: the settings the methods read
    ([settings.site_codes], and [settings.parameters], which [Settings]
    validates as members of [Parameter]) and the components [__init__]
    builds from them.  The store of [csv_handler] changes as the scraper
    runs and is passed to [run] on its own. *)
Record scraper := mk_scraper {
  site_codes : list string;
  parameters : list Param;
  sparql_client : SparqlClient.client;
  query_builder : builder
}.

Definition logged (logs : list log_record) : list SparqlClient.event :=
  map SparqlClient.Log logs.

Section Scraping.
Context {lib : Libraries}.

(** [_scrape_site]; [endpoint k] is the endpoint's answer to the request
    of attempt [k] for this site.  Only a [ValueError] of the builder is
    caught here. *)
Definition _scrape_site (s : scraper) (endpoint : nat -> SparqlClient.outcome)
  (site_code : string) : list SparqlClient.event * res (option Measurement) :=
  let started := logged [(DEBUG, "Processing site {site_code}")] in
  let query_params := QueryParameters_init site_code (parameters s) in
  match build_query (query_builder s) query_params with
  | Raise ValueError =>
      (started ++
       logged [(ERROR, "Invalid parameters for site {site_code}: {e}")],
       Ok None)
  | Raise e => (started, Raise e)
  | Ok query =>
      let '(evs, r) :=
        SparqlClient.execute_query (sparql_client s) endpoint in
      match r with
      | Raise e => (started ++ evs, Raise e)
      | Ok None => (started ++ evs, Ok None)
      | Ok (Some results) =>
          if negb (truthy results) then (started ++ evs, Ok None)
          else
            let '(logs, measurement) :=
              DataProcessor.process_results results site_code in
            match measurement with
            | Ok (Some m) =>
                (started ++ evs ++ logged logs ++
                 logged [(DEBUG,
                          "Retrieved measurement for site {site_code}: {measurement.timestamp}")],
                 Ok (Some m))
            | _ => (started ++ evs ++ logged logs, measurement)
            end
      end
  end.

(** The [for site_code in self.settings.site_codes] loop of [run], entered
    at the site of index [i] with what was logged, collected and counted so
    far; [answers i] is the endpoint for the requests of that site.  Every
    exception of [_scrape_site] is caught and counted. *)
Fixpoint sites_loop (s : scraper) (answers : nat -> nat -> SparqlClient.outcome)
  (i : nat) (codes : list string)
  (evs : list SparqlClient.event) (measurements : list Measurement)
  (errors : nat) : list SparqlClient.event * list Measurement * nat :=
  match codes with
  | [] => (evs, measurements, errors)
  | site_code :: rest =>
      let '(evs1, r) := _scrape_site s (answers i) site_code in
      match r with
      | Ok (Some measurement) =>
          sites_loop s answers (S i) rest (evs ++ evs1)
                     (measurements ++ [measurement]) errors
      | Ok None =>
          sites_loop s answers (S i) rest
            (evs ++ evs1 ++
             logged [(WARNING, "No data retrieved for site {site_code}")])
            measurements errors
      | Raise _ =>
          sites_loop s answers (S i) rest
            (evs ++ evs1 ++
             logged [(ERROR, "Error processing site {site_code}: {e}")])
            measurements (S errors)
      end
  end.

(** [run], on the store [h] of [self.csv_handler]: what happens, in order,
    and the store left.  [connection] is the endpoint for the connection
    test, [writable] tells whether the append of the save succeeds. *)
Definition run (s : scraper) (connection : nat -> SparqlClient.outcome)
  (answers : nat -> nat -> SparqlClient.outcome) (writable : bool)
  (h : CsvHandler.handler) : list SparqlClient.event * CsvHandler.handler :=
  let started :=
    logged [(INFO,
             "Starting data collection for {len(self.settings.site_codes)} sites")] in
  let '(evs0, connected) :=
    SparqlClient.test_connection (sparql_client s) connection in
  if negb connected then
    (started ++ evs0 ++
     logged [(ERROR, "Failed to connect to SPARQL endpoint")], h)
  else
    let '(evs, measurements, errors) :=
      sites_loop s answers 0 (site_codes s) [] [] 0 in
    match measurements with
    | [] =>
        (started ++ evs0 ++ evs ++
         logged [(WARNING, "No measurements collected from any site")], h)
    | _ :: _ =>
        let '(logs, new_count, h') :=
          CsvHandler.save_measurements measurements writable h in
        (started ++ evs0 ++ evs ++ logged logs ++
         logged [(INFO,
                  "Completed: {len(measurements)} sites processed, {new_count} new records saved, {errors} errors")],
         h')
    end.

End Scraping.

(** [clean_duplicates]: the count returned and the store left. *)
Definition clean_duplicates (readable writable : bool) (h : CsvHandler.handler)
  : list SparqlClient.event * nat * CsvHandler.handler :=
  let '(logs, removed, h') :=
    CsvHandler.remove_duplicates readable writable h in
  (logged logs ++
   logged [if (0 <? removed)%nat
           then (INFO, "Removed {removed} duplicate records")
           else (INFO, "No duplicates found")],
   removed, h').

End Scraper.

(* ===================================================================== *)
(** * [core/config.py]: the validators of [Settings] *)
(* ===================================================================== *)

Module Config.
Import Py Query.

(** [[x.strip() for x in v.split(",") if x.strip()]], the comprehension both
    validators start with. *)
Definition comma_separated (v : string) : list string :=
  map strip
      (List.filter (fun x => negb (String.eqb (strip x) "")) (split "," v)).

(** [parse_site_codes], the [mode="before"] validator of [site_codes]: a
    string is cut at its commas, anything else is passed on as it is. *)
Definition parse_site_codes (v : pyval) : pyval :=
  match v with
  | PStr s => PList (map PStr (comma_separated s))
  | _ => v
  end.

(** [Parameter(name)]: the member whose value is [name], [ValueError] when
    there is none. *)
Definition Parameter_of_value (name : string) : res Param :=
  match List.find (fun p => String.eqb (value p) name) all_parameters with
  | Some p => Ok p
  | None => Raise ValueError
  end.

(** An element of the list [parse_parameters] returns: a member, or a
    value that is no string, passed on as it is. *)
Inductive parsed :=
  | Parsed (p : Param)
  | Passed (v : pyval).

(** [Parameter(p) if isinstance(p, str) else p]. *)
Definition parse_element (p : pyval) : res parsed :=
  match p with
  | PStr name => m ← Parameter_of_value name; mret (Parsed m)
  | _ => Ok (Passed p)
  end.

(** A list comprehension whose element expression may raise: the first
    exception ends it. *)
Fixpoint comprehension {A B : Type} (f : A -> res B) (l : list A)
  : res (list B) :=
  match l with
  | [] => Ok []
  | x :: l' =>
      y ← f x;
      ys ← comprehension f l';
      mret (y :: ys)
  end.

(** [parse_parameters], the [mode="before"] validator of [parameters]. *)
Definition parse_parameters (v : pyval) : res (list parsed) :=
  match v with
  | PStr s =>
      comprehension (fun name => m ← Parameter_of_value name; mret (Parsed m))
                    (comma_separated s)
  | PList l => comprehension parse_element l
  | _ => Ok []
  end.

End Config.

(* ===================================================================== *)
(** * Properties *)
(* ===================================================================== *)

Import Py PyDecimal PyDatetime Constants Query Model.

(** ** Building responses *)

(** One binding of a SPARQL JSON result:
    [{"predicate": {"value": p}, "object": {"value": o}}]. *)
Definition binding (p : string) (o : pyval) : pyval :=
  PDict (<["predicate" := PDict {[ "value" := PStr p ]}]>
          {[ "object" := PDict {[ "value" := o ]} ]}).

(** [{"results": {"bindings": bs}}]. *)
Definition response (bs : pyval) : pyval :=
  PDict {[ "results" := PDict {[ "bindings" := bs ]} ]}.

(** The names of the fields of the Record ([Measurement.model_fields]). *)
Definition model_fields : list string :=
  [ "station_id"; "timestamp"; "discharge"; "water_level";
    "water_temperature"; "danger_level"; "is_liter" ].

(** The response shape the client accepts, in the words of its contract: a
    mapping that contains a "results" section that contains a "bindings"
    list. *)
Definition well_formed (results : pyval) : bool :=
  match results with
  | PDict d =>
      match d !! "results" with
      | Some (PDict section) =>
          match section !! "bindings" with
          | Some (PList _) => true
          | _ => false
          end
      | _ => false
      end
  | _ => false
  end.

(** The first [k] waits of a run that starts with delay [d] all go through:
    [d], [2d], [4d], ... are delays [time.sleep] takes. *)
Fixpoint sleeps_succeed (d : SparqlClient.number) (k : nat) : bool :=
  match k with
  | O => true
  | S k' =>
      match SparqlClient.time_sleep d with
      | Ok _ => sleeps_succeed (SparqlClient.times2 d) k'
      | Raise _ => false
      end
  end.

(** The first [n] delays of the exponential backoff that starts at [d]. *)
Fixpoint backoff_delays (d : SparqlClient.number) (n : nat)
  : list SparqlClient.number :=
  match n with
  | O => []
  | S n' => d :: backoff_delays (SparqlClient.times2 d) n'
  end.

(** The bindings of a result set, where it has the response shape. *)
Definition bindings_of (results : pyval) : option (list pyval) :=
  match results with
  | PDict d =>
      match d !! "results" with
      | Some (PDict section) =>
          match section !! "bindings" with
          | Some (PList l) => Some l
          | _ => None
          end
      | _ => None
      end
  | _ => None
  end.

(** A binding carries the predicate URI [u] and the object value [v]: it is
    a mapping whose "predicate" and "object" entries are mappings with
    "value" entries [u], a string, and [v], which is not null. *)
Definition carries (b : pyval) (u : string) (v : pyval) : Prop :=
  exists d dp dobj : gmap string pyval,
    b = PDict d /\
    d !! "predicate" = Some (PDict dp) /\ dp !! "value" = Some (PStr u) /\
    d !! "object" = Some (PDict dobj) /\ dobj !! "value" = Some v /\
    v <> PNone.

Section Coercions.
Context {lib : Libraries}.

(** The timestamp the extracted fields hold, when it can be parsed. *)
Definition timestamp_of (data : gmap string pyval) : option datetime :=
  match data !! "timestamp" with
  | Some v => match parse_timestamp v with Ok d => Some d | Raise _ => None end
  | None => None
  end.

(** An extracted decimal field after coercion: null when the field is
    absent, blank or not a decimal. *)
Definition coerced (data : gmap string pyval) (field : string)
  : option Decimal :=
  data !! field ≫= parse_decimal.

Definition measured_fields : list string :=
  [ "discharge"; "water_level"; "water_temperature" ].

(** At least one of discharge, water level, water temperature is non-null
    after coercion. *)
Definition measured (data : gmap string pyval) : bool :=
  existsb (fun field => bool_decide (is_Some (coerced data field)))
          measured_fields.

(** No coerced decimal is an infinity or a NaN. *)
Definition finite_decimals (data : gmap string pyval) : bool :=
  forallb (fun field =>
             match coerced data field with
             | Some d => is_finite d
             | None => true
             end)
          measured_fields.

(** The danger level the extracted fields hold, read as an integer. *)
Definition danger_level_of (data : gmap string pyval) : option Z :=
  data !! "danger_level" ≫= int_lax.

(** The danger level, when one was extracted, is an integer from 0 to 5. *)
Definition danger_level_ok (data : gmap string pyval) : bool :=
  match data !! "danger_level" with
  | None | Some PNone => true
  | Some _ =>
      match danger_level_of data with
      | Some z => (0 <=? z)%Z && (z <=? 5)%Z
      | None => false
      end
  end.

(** The Record the extracted fields are coerced to, given the parsed
    timestamp. *)
Definition record_of (sid : string) (data : gmap string pyval)
  (ts : datetime) : Measurement :=
  mk_Measurement (strip_with unicode_space sid) ts
    (coerced data "discharge") (coerced data "water_level")
    (coerced data "water_temperature")
    (danger_level_of data) (data !! "is_liter" ≫= parse_bool).

(** A result set bears only the given parameters: it has the response
    shape and each of its bindings carries the URI of one of them. *)
Definition bears_only (ps : list Param) (results : pyval) : Prop :=
  exists bs, bindings_of results = Some bs /\
    forall b, b ∈ bs -> exists p v, p ∈ ps /\ carries b (uri p) v.

(** The acceptance condition as C1 words it. *)
Definition claimed_acceptable (data : gmap string pyval) : bool :=
  bool_decide (is_Some (timestamp_of data)) && measured data.

(** The acceptance condition of the code. *)
Definition acceptable (data : gmap string pyval) : bool :=
  claimed_acceptable data && finite_decimals data && danger_level_ok data.

End Coercions.

(** A record is new to the store when its key is neither in the index nor
    the key of a record met earlier in the same batch. *)
Definition is_new (index : gset string) (earlier : list Measurement)
  (m : Measurement) : bool :=
  bool_decide ((unique_key m ∉ index) /\
               (unique_key m ∉ (unique_key <$> earlier))).

(** The records of a batch that are new, in input order; [earlier] is the
    part of the batch already gone through. *)
Fixpoint select_new (index : gset string) (earlier ms : list Measurement)
  : list Measurement :=
  match ms with
  | [] => []
  | m :: ms' =>
      (if is_new index earlier m then [m] else [])
      ++ select_new index (earlier ++ [m]) ms'
  end.

(** The keys of a batch. *)
Definition batch_keys (ms : list Measurement) : gset string :=
  list_to_set (unique_key <$> ms).

(** The line a Record is written as. *)
Definition record_line (m : Measurement) : CsvHandler.line :=
  CsvHandler.dict_to_line CSV_COLUMNS (to_csv_dict m).

(** A call on a store: a save of a batch or a de-duplication pass, each
    with what the file system lets it do. *)
Inductive call :=
  | Save (ms : list Measurement) (writable : bool)
  | Dedup (readable writable : bool).

(** The count a call returns and the store it leaves. *)
Definition perform (h : CsvHandler.handler) (c : call)
  : nat * CsvHandler.handler :=
  match c with
  | Save ms writable =>
      let '(_, n, h') := CsvHandler.save_measurements ms writable h in (n, h')
  | Dedup readable writable =>
      let '(_, n, h') := CsvHandler.remove_duplicates readable writable h in
      (n, h')
  end.

(** The store after a sequence of calls. *)
Definition after (calls : list call) (h : CsvHandler.handler)
  : CsvHandler.handler :=
  fold_left (fun h c => (perform h c).2) calls h.

(** No de-duplication pass of the sequence drops a row. *)
Fixpoint drops_nothing (calls : list call) (h : CsvHandler.handler) : bool :=
  match calls with
  | [] => true
  | c :: calls' =>
      match c with
      | Dedup _ _ => ((perform h c).1 =? 0)%nat
      | Save _ _ => true
      end && drops_nothing calls' (perform h c).2
  end.

(** The (timestamp, station) pair of a line under the store's header, as
    [pandas] reads it. *)
Definition pair_of (l : CsvHandler.line) : option string * option string :=
  (CsvHandler.pd_cell (nth 0 l ""), CsvHandler.pd_cell (nth 1 l "")).

(** A cell as [pandas] writes it back after reading it: a text it reads as
    missing is written back as the empty text. *)
Definition written_back (cell : string) : string :=
  if existsb (String.eqb cell) CsvHandler.na_values then "" else cell.

(** Two readings of station 2044 taken at the same time that differ in
    the discharge only, and the line of an older reading. *)
Definition reading (discharge : string) : Measurement :=
  mk_Measurement "2044" (mk_datetime 2024 1 15 10 30 0 0 (Some 0%Z))
    (Decimal_of_string discharge) None None None None.

Definition older_line : CsvHandler.line :=
  [ "2024-01-14T10:30:00+00:00"; "2044"; "120.00"; ""; ""; ""; "" ].

(** The requests and waits of a run that sends [n] requests and starts its
    waits at [d]: one wait between two requests, each twice the one
    before, none after the last request. *)
Fixpoint schedule (d : SparqlClient.number) (n : nat)
  : list SparqlClient.event :=
  match n with
  | O => []
  | S n' =>
      SparqlClient.Query ::
      match n' with
      | O => []
      | S _ => SparqlClient.Sleep d :: schedule (SparqlClient.times2 d) n'
      end
  end.

(** The "predicate" entry of a binding as the extraction can read it: absent,
    or a mapping whose "value" entry, where it has one, is a string. *)
Definition readable_predicate (o : option pyval) : bool :=
  match o with
  | None => true
  | Some (PDict d) =>
      match d !! "value" with
      | None | Some (PStr _) => true
      | Some _ => false
      end
  | Some _ => false
  end.

(** The "object" entry of a binding as the extraction can read it: absent,
    or a mapping. *)
Definition readable_object (o : option pyval) : bool :=
  match o with
  | None | Some (PDict _) => true
  | Some _ => false
  end.

(** A binding the extraction can read: a mapping with such entries.  Every
    binding of the SPARQL 1.1 JSON results format is one. *)
Definition readable_binding (b : pyval) : bool :=
  match b with
  | PDict d =>
      readable_predicate (d !! "predicate") && readable_object (d !! "object")
  | _ => false
  end.

(** The key the index holds for a (timestamp, station) pair, when neither
    value is missing. *)
Definition key_of_pair (p : option string * option string) : option string :=
  match p with
  | (Some t, Some s) => Some (t +:+ "_" +:+ s)
  | _ => None
  end.

(** The key [_load_processed_keys] reads off a line under the store's
    header, if it reads one. *)
Definition line_key (l : CsvHandler.line) : option string :=
  CsvHandler.row_key CSV_COLUMNS (CsvHandler.read_row (length CSV_COLUMNS) l).

(** The keys of the lines under the header, in file order. *)
Definition file_keys (body : list CsvHandler.line) : list string :=
  omap line_key body.

(** A file as the store keeps it: the header of [CSV_COLUMNS], then lines
    of seven cells. *)
Definition kept_file (f : option (list CsvHandler.line))
  (body : list CsvHandler.line) : Prop :=
  f = Some (CSV_COLUMNS :: body) /\
  Forall (fun l => length l = length CSV_COLUMNS) body.

(** The station identifier is a text [pandas] reads back as it is, not one
    of its markers of a missing value (the empty text, NA, nan, null, ...). *)
Definition plain_station (m : Measurement) : bool :=
  negb (existsb (String.eqb (station_id m)) CsvHandler.na_values).

(** Every batch saved by the calls holds such records only. *)
Definition plain_batches (calls : list call) : bool :=
  forallb (fun c =>
             match c with
             | Save ms _ => forallb plain_station ms
             | Dedup _ _ => true
             end) calls.

(** Every write of the calls goes through. *)
Definition writes_succeed (calls : list call) : bool :=
  forallb (fun c =>
             match c with
             | Save _ writable => writable
             | Dedup _ _ => true
             end) calls.

(** The store is in step with its file: the file is one the store keeps, no
    key stands on two of its lines, and every key [_load_processed_keys]
    reads off it is in the index. *)
Definition in_step (h : CsvHandler.handler) : Prop :=
  exists body,
    kept_file (CsvHandler.csv_file h) body /\
    NoDup (file_keys body) /\
    (CsvHandler._load_processed_keys true (CsvHandler.csv_file h)).2
      ⊆ CsvHandler._processed_keys h.

(** The store holds exactly what its file holds: it is in step with the
    file, every line of the file has a key, and the index is the set of
    those keys. *)
Definition matches_file (h : CsvHandler.handler) : Prop :=
  exists body,
    kept_file (CsvHandler.csv_file h) body /\
    NoDup (file_keys body) /\
    Forall (fun l => is_Some (line_key l)) body /\
    CsvHandler._processed_keys h = list_to_set (file_keys body).

(** Every line of the store's file has a key, no key stands on two lines,
    and the index holds the keys of the file. *)
Definition keyed_store (h : CsvHandler.handler) : Prop :=
  exists body,
    kept_file (CsvHandler.csv_file h) body /\
    NoDup (file_keys body) /\
    Forall (fun l => is_Some (line_key l)) body /\
    list_to_set (file_keys body) ⊆ CsvHandler._processed_keys h.

(** The characters of a text [isoformat] prints. *)
Definition iso_char (c : ascii) : bool :=
  is_digit c || existsb (Ascii.eqb c) ["-"; "T"; ":"; "."; "+"]%char.

(** The IRI of the station a query is about, in angle brackets. *)
Definition subject_of (b : QueryBuilder.builder)
  (params : QueryBuilder.QueryParameters) : string :=
  "<" +:+ QueryBuilder.base_url b +:+ "/river/observation/" +:+
  QueryBuilder.site_code params +:+ ">".


(** A text that [comma_separated] yields as it is: not empty, no white
    space at either end, no comma. *)
Definition plain_item (x : string) : Prop :=
  x <> "" /\ strip x = x /\ contains "," x = false.

(** Closes a conjunction of equations between closed terms by running
    both sides. *)
Ltac by_evaluation := repeat apply conj; vm_compute; reflexivity.

(** Proves that a string is one of a list written out. *)
Ltac in_list := repeat constructor.

(** Splits a membership in a list written out into its cases. *)
Ltac cases_of_list H :=
  repeat (apply elem_of_cons in H as [H | H]; [subst |]);
  [.. | apply elem_of_nil in H; destruct H].

(* --------------------------------------------------------------------- *)
(** ** The repository's unit tests, replayed on the embedding *)

Section UnitTests.
Import DataProcessor.

(** [test_data_processor.py::test_validate_results_invalid_cases]. *)
Example test_validate_results_invalid_cases :
  _validate_results PNone = Ok false /\
  _validate_results (PStr "invalid") = Ok false /\
  _validate_results (PDict ∅) = Ok false /\
  _validate_results (PDict {[ "results" := PDict ∅ ]}) = Ok false /\
  _validate_results (response (PList [])) = Ok false.
Proof. by_evaluation. Qed.

(** [test_map_predicate_to_field_dimension_uri], [..._example_com_uri],
    [..._unknown_uri] and [..._unmapped_parameter]. *)
Example test_map_predicate_to_field :
  _map_predicate_to_field <$>
    [ PStr "http://example.com/dimension/measurementTime";
      PStr "http://example.com/dimension/waterLevel";
      PStr "http://example.com/isLiter";
      PStr "http://unknown.com/property";
      PStr "http://example.com/unknown/property";
      PStr "invalid_uri";
      PStr "http://example.com/dimension/unknownParam" ] =
  [ Ok (Some "timestamp"); Ok (Some "water_level"); Ok (Some "is_liter");
    Ok None; Ok None; Ok None; Ok None ].
Proof. by_evaluation. Qed.

(** [test_extract_data_missing_predicate] and
    [test_extract_data_missing_object]. *)
Example test_extract_data_missing_entries :
  _extract_data
    (response (PList [PDict {[ "object" := PDict {[ "value" := PStr "123.45" ]} ]}]))
    "STATION001" = Ok {[ "station_id" := PStr "STATION001" ]} /\
  _extract_data
    (response (PList [PDict {[ "predicate" :=
        PDict {[ "value" := PStr "http://example.com/dimension/discharge" ]} ]}]))
    "STATION001" = Ok {[ "station_id" := PStr "STATION001" ]}.
Proof. by_evaluation. Qed.

(** [test_process_results_missing_timestamp],
    [test_process_results_no_measurements] and
    [test_process_results_invalid_measurement_data], with the records the
    tests expect in the log. *)
Example test_process_results_none :
  process_results
    (response (PList [binding "http://example.com/dimension/discharge"
                              (PStr "123.45")]))
    "STATION001" =
    ([(WARNING, "No timestamp found for station {station_id}")], Ok None) /\
  process_results
    (response (PList [binding "http://example.com/dimension/measurementTime"
                              (PStr "2024-01-15T10:30:00Z")]))
    "STATION001" =
    ([(WARNING, "No valid measurements found for station {station_id}")],
     Ok None) /\
  process_results
    (response (PList [binding "http://example.com/dimension/measurementTime"
                              (PStr "invalid_timestamp");
                      binding "http://example.com/dimension/discharge"
                              (PStr "123.45")]))
    "STATION001" =
    ([(ERROR, "Error creating measurement for station {station_id}: {e}")],
     Ok None).
Proof. by_evaluation. Qed.

(** [test_measurement.py::test_parse_decimal_invalid_values] and
    [test_parse_decimal_from_string]. *)
Example test_parse_decimal :
  parse_decimal <$> [PStr "invalid"; PStr "not_a_number"; PStr ""; PStr "15.5"] =
  [None; None; None; Some (Finite false 155 (-1))].
Proof. by_evaluation. Qed.

(** [test_parse_timestamp_from_iso_string_with_z] and
    [test_parse_timestamp_invalid_format]. *)
Example test_parse_timestamp :
  parse_timestamp (PStr "2024-01-15T10:30:00Z") =
    parse_timestamp (PStr "2024-01-15T10:30:00+00:00") /\
  parse_timestamp (PStr "2024-01-15T10:30:00Z") =
    Ok (mk_datetime 2024 1 15 10 30 0 0 (Some 0%Z)) /\
  parse_timestamp (PStr "invalid_timestamp") = Raise ValueError.
Proof. by_evaluation. Qed.

(** [test_danger_level_validation]. *)
Example test_danger_level_validation :
  validate_danger_level <$> (Some <$> (PInt <$> [0; 5; -1; 6; 10]%Z)) =
  [ Ok (Some 0%Z); Ok (Some 5%Z); Raise ValidationError;
    Raise ValidationError; Raise ValidationError ].
Proof. by_evaluation. Qed.

(** [test_to_csv_dict] and [test_unique_key_generation], on a naive
    timestamp. *)
Example test_to_csv_dict :
  let m :=
    mk_Measurement "STATION001" (mk_datetime 2024 1 15 10 30 0 0 None)
      (Decimal_of_string "123.45") (Decimal_of_string "456.78")
      (Decimal_of_string "15.5") (Some 3%Z) (Some false) in
  CsvHandler.dict_to_line CSV_COLUMNS (to_csv_dict m) =
    [ "2024-01-15T10:30:00"; "STATION001"; "123.45"; "456.78"; "3"; "15.5";
      "false" ] /\
  unique_key m = "2024-01-15T10:30:00_STATION001".
Proof. by_evaluation. Qed.

Import SparqlClient.

(** [test_sparql_client.py::test_validate_results_invalid_cases]. *)
Example test_client_validate_results_invalid_cases :
  SparqlClient._validate_results <$>
    [ PStr "invalid"; PNone; PList []; PDict ∅;
      PDict {[ "results" := PDict ∅ ]};
      response (PStr "not_a_list") ] =
  [ Ok false; Ok false; Ok false; Ok false; Ok false; Ok false ].
Proof. by_evaluation. Qed.

(** [test_execute_query_retry_on_failure]: two failures, then a response;
    three requests and sleeps of 0.01 and 0.02 seconds. *)
Example test_execute_query_retry_on_failure :
  let answer := response (PList [PDict {[ "s" := PDict ∅ ]}]) in
  let run :=
    execute_query (mk_client "http://example.com/sparql" 3 (NFloat 0.01))
      (fun k => if (k <? 2)%nat then Raises SPARQLWrapperException
                else Converted answer) in
  run.2 = Ok (Some answer) /\
  queries run.1 = 3%nat /\
  sleeps run.1 = [NFloat 0.01; NFloat 0.02].
Proof. by_evaluation. Qed.

(** [test_execute_query_max_retries_exceeded] and
    [test_execute_query_unexpected_exception]. *)
Example test_execute_query_failures :
  let exceeded :=
    execute_query (mk_client "http://example.com/sparql" 2 (NFloat 0.01))
      (fun _ => Raises SPARQLWrapperException) in
  let unexpected :=
    execute_query (mk_client "http://example.com/sparql" 3 (NInt 2))
      (fun _ => Raises ValueError) in
  (exceeded.2 = Ok None /\ queries exceeded.1 = 2%nat) /\
  (unexpected.2 = Ok None /\ queries unexpected.1 = 1%nat).
Proof. by_evaluation. Qed.

End UnitTests.

(* --------------------------------------------------------------------- *)
(** ** The Parameter enumeration and the mapper (C6) *)

Section ParameterLockstep.
Import DataProcessor.

Lemma station_uri_unmapped :
  _map_predicate_to_field (PStr (uri STATION)) = Ok None.
Proof. vm_compute. reflexivity. Qed.

(** C6, as stated, fails: the URI of the member [STATION] carries the
    dimension marker but its suffix, "station", is no key of the mapper's
    table, so the mapper answers [None] for it. *)
Lemma lockstep_fails_at_station :
  ~ (forall p : Param, exists f : string,
        _map_predicate_to_field (PStr (uri p)) = Ok (Some f) /\
        f ∈ model_fields).
Proof.
  intros H. destruct (H STATION) as (f & Hf & _).
  rewrite station_uri_unmapped in Hf. discriminate.
Qed.

(** C6, amended: the URI of every member of the enumeration other than
    [STATION] is translated by the mapper to the name of a Record field;
    the URI of [STATION] is translated to nothing (the station field is
    filled from the station identifier of the request). *)
Theorem parameter_uri_maps_to_field (p : Param) :
  match p with
  | STATION => _map_predicate_to_field (PStr (uri p)) = Ok None
  | _ => exists f : string,
           _map_predicate_to_field (PStr (uri p)) = Ok (Some f) /\
           f ∈ model_fields
  end.
Proof.
  destruct p; first [ exact station_uri_unmapped | eexists; split;
    [ vm_compute; reflexivity | unfold model_fields; in_list ] ].
Qed.

End ParameterLockstep.

(** ** The retrying client (C4, C5) *)

Section Backoff.
Import SparqlClient.

(** C4: with initial delay 1.0 and 4 attempts allowed, when each of the
    four requests fails with a [SPARQLWrapperException], [execute_query]
    sends exactly 4 requests, sleeps exactly 3 times, for 1.0, 2.0 and 4.0
    seconds in that order, each sleep between two requests and none after
    the last, and returns [None]. *)
Theorem backoff_sequence (url : string) (endpoint : nat -> outcome) :
  (forall k, (k < 4)%nat -> endpoint k = Raises SPARQLWrapperException) ->
  let run := execute_query (mk_client url 4 (NFloat 1)) endpoint in
  run.2 = Ok None /\
  queries run.1 = 4%nat /\
  sleeps run.1 = [NFloat 1; NFloat 2; NFloat 4] /\
  effects run.1 =
    [Query; Sleep (NFloat 1); Query; Sleep (NFloat 2); Query;
     Sleep (NFloat 4); Query].
Proof.
  intros H run. subst run. unfold execute_query. simpl.
  unfold attempt_once.
  rewrite (H 0%nat), (H 1%nat), (H 2%nat), (H 3%nat) by lia.
  by_evaluation.
Qed.

Lemma backoff_sequence_witness :
  let run := execute_query (mk_client "https://ld.admin.ch/query" 4 (NFloat 1))
                           (fun _ => Raises SPARQLWrapperException) in
  run.2 = Ok None /\
  queries run.1 = 4%nat /\
  sleeps run.1 = [NFloat 1; NFloat 2; NFloat 4] /\
  effects run.1 =
    [Query; Sleep (NFloat 1); Query; Sleep (NFloat 2); Query;
     Sleep (NFloat 4); Query].
Proof.
  apply (backoff_sequence "https://ld.admin.ch/query"
           (fun _ => Raises SPARQLWrapperException)).
  intros k _. reflexivity.
Defined.

End Backoff.

Section RetryLoop.
Import SparqlClient.

Variable c : client.
Variable endpoint : nat -> outcome.

Lemma queries_app (evs evs' : list event) :
  queries (evs ++ evs') = (queries evs + queries evs')%nat.
Proof. unfold queries. rewrite List.filter_app, length_app. reflexivity. Qed.

Lemma sleeps_app (evs evs' : list event) :
  sleeps (evs ++ evs') = sleeps evs ++ sleeps evs'.
Proof. unfold sleeps. apply omap_app. Qed.

(** On a converted response the pass returns at once: the response when it
    is well-formed, [None] otherwise, whatever the validation met on the
    way (also a [TypeError] of its own, which the last handler absorbs). *)
Lemma attempt_once_converted (results : pyval) (a : nat) (d : number) :
  exists evs,
    attempt_once c (Converted results) a d =
      (evs, Return (if well_formed results then Some results else None)) /\
    queries evs = 1%nat.
Proof.
  unfold attempt_once, on_results, _validate_results, bindings_count.
  destruct results as [| b | z | r | s | l | dm]; simpl;
    try (eexists; split; reflexivity).
  destruct (dm !! "results") as [section|] eqn:Hsec; simpl;
    [| eexists; split; reflexivity ].
  destruct section as [| b | z | r | s | l | ds]; simpl;
    try (eexists; split; reflexivity).
  - destruct (contains "bindings" s); simpl; eexists; split; reflexivity.
  - destruct (existsb (eq_str "bindings") l); simpl; eexists; split; reflexivity.
  - destruct (ds !! "bindings") as [bs|] eqn:Hbs; simpl;
      [| eexists; split; reflexivity ].
    destruct bs; simpl; eexists; split; reflexivity.
Qed.

(** On a transient error with attempts left and a delay that can be slept,
    the pass goes on with the delay doubled. *)
Lemma attempt_once_transient (a : nat) (d : number) :
  (Z.of_nat a < max_retries c - 1)%Z ->
  time_sleep d = Ok tt ->
  exists evs,
    attempt_once c (Raises SPARQLWrapperException) a d =
      (evs, Continue (times2 d)) /\
    queries evs = 1%nat.
Proof.
  intros Ha Hd. unfold attempt_once, on_exception, on_sparql_error.
  apply Z.ltb_lt in Ha. rewrite Ha, Hd. eexists; split; reflexivity.
Qed.

(** The loop entered at attempt [a] with [k] transient failures ahead of a
    response. *)
Lemma attempts_reach (results : pyval) (k : nat) :
  forall (remaining a : nat) (d : number),
    (forall i, (i < k)%nat ->
               endpoint (a + i)%nat = Raises SPARQLWrapperException) ->
    endpoint (a + k)%nat = Converted results ->
    (Z.of_nat (a + k) < max_retries c)%Z ->
    sleeps_succeed d k = true ->
    (k < remaining)%nat ->
    let run := attempts c endpoint remaining a d in
    run.2 = Ok (if well_formed results then Some results else None) /\
    queries run.1 = S k.
Proof.
  induction k as [|k IH]; intros remaining a d Hfail Hres Hmax Hsl Hrem run;
    subst run; (destruct remaining as [|remaining]; [lia|]); simpl.
  - rewrite Nat.add_0_r in Hres. rewrite Hres.
    destruct (attempt_once_converted results a d) as (evs & -> & Hq).
    split; [reflexivity | exact Hq].
  - specialize (Hfail 0%nat ltac:(lia)) as H0. rewrite Nat.add_0_r in H0.
    rewrite H0. simpl in Hsl.
    destruct (time_sleep d) as [[]|] eqn:Hd; [|discriminate].
    destruct (attempt_once_transient a d ltac:(lia) Hd) as (evs & -> & Hq).
    destruct (IH remaining (S a) (times2 d)) as [Hr Hqs].
    + intros i Hi. replace (S a + i)%nat with (a + S i)%nat by lia.
      apply Hfail. lia.
    + replace (S a + k)%nat with (a + S k)%nat by lia. exact Hres.
    + replace (S a + k)%nat with (a + S k)%nat by lia. exact Hmax.
    + exact Hsl.
    + lia.
    + destruct (attempts c endpoint remaining (S a) (times2 d)) as [evs' r].
      simpl in Hr, Hqs |- *. rewrite queries_app, Hq, Hqs. auto.
Qed.

(** C5: when the endpoint answers attempt [k] with a response (the earlier
    attempts having failed with transient errors and been waited out),
    [execute_query] returns that response unchanged if it is well-formed,
    an empty "bindings" list included, and [None] if it is not; either way
    attempt [k] is the last request sent. *)
Theorem response_decides (k : nat) (results : pyval) :
  (Z.of_nat k < max_retries c)%Z ->
  (forall i, (i < k)%nat -> endpoint i = Raises SPARQLWrapperException) ->
  sleeps_succeed (initial_delay c) k = true ->
  endpoint k = Converted results ->
  let run := execute_query c endpoint in
  run.2 = Ok (if well_formed results then Some results else None) /\
  queries run.1 = S k.
Proof.
  intros Hk Hfail Hsl Hres. unfold execute_query.
  apply attempts_reach; simpl; auto. lia.
Qed.

(** On a transient error at the last attempt the pass ends without a
    wait. *)
Lemma attempt_once_last (a : nat) (d : number) :
  (max_retries c - 1 <= Z.of_nat a)%Z ->
  exists evs,
    attempt_once c (Raises SPARQLWrapperException) a d = (evs, Continue d) /\
    queries evs = 1%nat /\ sleeps evs = [].
Proof.
  intros Ha. unfold attempt_once, on_exception, on_sparql_error.
  apply Z.ltb_ge in Ha. rewrite Ha. eexists; repeat split; reflexivity.
Qed.

Lemma attempt_once_waits (a : nat) (d : number) :
  (Z.of_nat a < max_retries c - 1)%Z ->
  time_sleep d = Ok tt ->
  exists evs,
    attempt_once c (Raises SPARQLWrapperException) a d =
      (evs, Continue (times2 d)) /\
    queries evs = 1%nat /\ sleeps evs = [d].
Proof.
  intros Ha Hd. unfold attempt_once, on_exception, on_sparql_error.
  apply Z.ltb_lt in Ha. rewrite Ha, Hd. eexists; repeat split; reflexivity.
Qed.

(** The loop when every answer is a transient error: one request per
    attempt, a wait between two attempts, the delay doubled each time. *)
Lemma attempts_all_fail :
  (forall k, endpoint k = Raises SPARQLWrapperException) ->
  forall (remaining a : nat) (d : number),
    Z.of_nat (a + remaining) = max_retries c ->
    sleeps_succeed d (remaining - 1) = true ->
    let run := attempts c endpoint remaining a d in
    run.2 = Ok None /\
    queries run.1 = remaining /\
    sleeps run.1 = backoff_delays d (remaining - 1).
Proof.
  intros Hfail. induction remaining as [|remaining IH]; intros a d Hmax Hsl run;
    subst run; simpl.
  - repeat split; reflexivity.
  - rewrite Hfail. destruct remaining as [|remaining].
    + destruct (attempt_once_last a d ltac:(lia)) as (evs & -> & Hq & Hs).
      simpl. rewrite queries_app, sleeps_app, Hq, Hs. repeat split; reflexivity.
    + simpl in Hsl. destruct (time_sleep d) as [[]|] eqn:Hd; [|discriminate].
      destruct (attempt_once_waits a d ltac:(lia) Hd) as (evs & -> & Hq & Hs).
      specialize (IH (S a) (times2 d) ltac:(lia)).
      replace (S remaining - 1)%nat with remaining in IH by lia.
      specialize (IH Hsl). cbv zeta in IH.
      replace (S (S remaining) - 1)%nat with (S remaining) by lia.
      cbv beta iota zeta.
      destruct (attempts c endpoint (S remaining) (S a) (times2 d))
        as [evs' r].
      cbn [fst snd] in IH |- *. destruct IH as (-> & Hq' & Hs').
      rewrite queries_app, sleeps_app, Hq, Hs, Hq', Hs'.
      repeat split; reflexivity.
Qed.

(** X5: exponential backoff in general.  When every request fails with a
    transient error, [execute_query] sends [max_retries] requests, waits
    between them for the initial delay, twice that, four times that, ...
    and returns [None]. *)
Lemma backoff_in_general :
  (forall k, endpoint k = Raises SPARQLWrapperException) ->
  (0 <= max_retries c)%Z ->
  sleeps_succeed (initial_delay c) (Z.to_nat (max_retries c) - 1) = true ->
  let run := execute_query c endpoint in
  run.2 = Ok None /\
  queries run.1 = Z.to_nat (max_retries c) /\
  sleeps run.1 =
    backoff_delays (initial_delay c) (Z.to_nat (max_retries c) - 1).
Proof.
  intros Hfail Hn Hsl. unfold execute_query.
  apply attempts_all_fail; auto. simpl. lia.
Qed.

End RetryLoop.

Section ResponseShapeExamples.
Import SparqlClient.

Lemma response_decides_witness :
  let c := mk_client "https://ld.admin.ch/query" 3 (NInt 2) in
  let endpoint := fun k : nat =>
    match k with
    | O => Raises SPARQLWrapperException
    | _ => Converted (response (PList []))
    end in
  let run := execute_query c endpoint in
  run.2 = Ok (Some (response (PList []))) /\ queries run.1 = 2%nat.
Proof.
  apply (response_decides (mk_client "https://ld.admin.ch/query" 3 (NInt 2))
           (fun k : nat =>
              match k with
              | O => Raises SPARQLWrapperException
              | _ => Converted (response (PList []))
              end)
           1%nat (response (PList []))).
  - simpl. lia.
  - intros i Hi. destruct i; [reflexivity | lia].
  - reflexivity.
  - reflexivity.
Defined.

(** A malformed response is not retried either: here "results" holds a
    string, the validation itself raises [TypeError], and the run ends
    with [None] after the one request. *)
Example malformed_not_retried :
  let run := execute_query (mk_client "https://ld.admin.ch/query" 3 (NInt 2))
               (fun _ => Converted (PDict {[ "results" := PStr "bindings" ]})) in
  run.2 = Ok None /\ queries run.1 = 1%nat.
Proof. by_evaluation. Qed.

End ResponseShapeExamples.


(* --------------------------------------------------------------------- *)
(** ** Malformed responses in the mapper (C2) *)

Section MalformedResponses.
Import DataProcessor.
Context {lib : Libraries}.

(** What the structural validation turns down is answered with [None]. *)
Lemma process_results_rejects (results : pyval) (sid : string) :
  _validate_results results = Ok false ->
  process_results results sid =
    ([(WARNING, "Invalid results structure for station {station_id}")], Ok None).
Proof. intros H. unfold process_results. rewrite H. reflexivity. Qed.

Example empty_mapping_rejected (sid : string) :
  (process_results (PDict ∅) sid).2 = Ok None /\
  (process_results PNone sid).2 = Ok None /\
  (process_results (response (PList [])) sid).2 = Ok None.
Proof. repeat split; reflexivity. Qed.

(** C2 does not hold of the code: [process_results] lets an exception
    escape when a nested entry has the wrong type.  With a binding that is
    a string instead of a mapping, the validation passes (the "bindings"
    list is not empty) and [binding.get] raises [AttributeError] in
    [_extract_data]; with a number under "results", the test
    ["bindings" in results["results"]] of [_validate_results] raises
    [TypeError].  Neither call stands inside the [try] of
    [process_results]. *)
Theorem process_results_raises (sid : string) :
  (process_results (response (PList [PStr "x"])) sid).2 = Raise AttributeError /\
  (process_results (PDict {[ "results" := PInt 5 ]}) sid).2 = Raise TypeError.
Proof. by_evaluation. Qed.

End MalformedResponses.

(* --------------------------------------------------------------------- *)
(** ** From a response to a stored row (C7) *)

Section EndToEnd.
Import DataProcessor CsvHandler.

(** C7: the response for station "2044" that carries
    measurementTime=2024-01-15T10:30:00Z and discharge=123.45 is mapped to
    a Record, and a store created on a fresh path and asked to save that
    Record holds, under the header line
    [timestamp,station_id,discharge,water_level,danger_level,water_temperature,is_liter],
    exactly the line [2024-01-15T10:30:00+00:00,2044,123.45,,,,]. *)
Theorem end_to_end_row :
  exists (m : Measurement) (logs : list log_record) (h0 : handler),
    (process_results
       (response (PList [ binding (uri MEASUREMENT_TIME) (PStr "2024-01-15T10:30:00Z");
                          binding (uri DISCHARGE) (PStr "123.45") ]))
       "2044").2 = Ok (Some m) /\
    init true true None = Ok (logs, h0) /\
    (save_measurements [m] true h0).1.2 = 1%nat /\
    map format_line <$> csv_file (save_measurements [m] true h0).2 =
      Some [ "timestamp,station_id,discharge,water_level,danger_level,water_temperature,is_liter";
             "2024-01-15T10:30:00+00:00,2044,123.45,,,," ].
Proof.
  eexists; eexists; eexists.
  split; [vm_compute; reflexivity|].
  split; [vm_compute; reflexivity|].
  split; vm_compute; reflexivity.
Qed.

End EndToEnd.

(* --------------------------------------------------------------------- *)
(** ** Field extraction (C10) *)

Section Extraction.
Import DataProcessor.

Lemma bind_Ok {A B : Type} (m : res A) (f : A -> res B) (b : B) :
  m ≫= f = Ok b -> exists a, m = Ok a /\ f a = Ok b.
Proof. destruct m as [a|e]; simpl; [eauto | discriminate]. Qed.

Lemma py_get_Ok (obj : pyval) (key : string) (dflt v : pyval) :
  py_get obj key dflt = Ok v ->
  exists d, obj = PDict d /\ v = default dflt (d !! key).
Proof.
  destruct obj; simpl; try discriminate. intros [= <-]. eauto.
Qed.

(** The names the mapper can answer. *)
Lemma field_mapping_range (k f : string) :
  field_mapping !! k = Some f ->
  f ∈ [ "timestamp"; "discharge"; "water_level"; "water_temperature";
        "danger_level"; "is_liter" ].
Proof.
  unfold field_mapping. intros H. apply elem_of_list_to_map_2 in H.
  repeat (apply elem_of_cons in H as [H | H];
          [ injection H as _ ->; in_list |]).
  apply elem_of_nil in H. destruct H.
Qed.

Lemma mapped_field_range (p : pyval) (f : string) :
  _map_predicate_to_field p = Ok (Some f) ->
  f ∈ [ "timestamp"; "discharge"; "water_level"; "water_temperature";
        "danger_level"; "is_liter" ].
Proof.
  unfold _map_predicate_to_field. intros H.
  destruct (py_in "/dimension/" p) as [[|]|] eqn:H1; simpl in H;
    [| | discriminate].
  - destruct (py_split_last p "/dimension/") as [n|]; simpl in H;
      [| discriminate].
    injection H as H. eapply field_mapping_range, H.
  - destruct (py_in "example.com/" p) as [[|]|] eqn:H2; simpl in H;
      [| discriminate | discriminate].
    destruct (py_split_last p "example.com/") as [n|]; simpl in H;
      [| discriminate].
    injection H as H. eapply field_mapping_range, H.
Qed.

Lemma mapped_field_not_empty (p : pyval) (f : string) :
  _map_predicate_to_field p = Ok (Some f) -> String.eqb f "" = false.
Proof.
  intros H. apply mapped_field_range in H.
  cases_of_list H; reflexivity.
Qed.

Lemma mapped_field_not_station (p : pyval) (f : string) :
  _map_predicate_to_field p = Ok (Some f) -> f <> "station_id".
Proof.
  intros H. apply mapped_field_range in H.
  cases_of_list H; discriminate.
Qed.

(** A recognized URI is a non-empty string. *)
Lemma mapped_uri_truthy (u f : string) :
  _map_predicate_to_field (PStr u) = Ok (Some f) -> truthy (PStr u) = true.
Proof.
  destruct u; [vm_compute; discriminate | reflexivity].
Qed.

(** What one pass of the loop does to [data] when it does not raise: it
    leaves it alone or stores, under the field of a recognized URI, the
    value the binding carries. *)
Lemma extract_binding_cases (data data' : gmap string pyval) (b : pyval) :
  extract_binding data b = Ok data' ->
  data' = data \/
  exists u v f, carries b u v /\
              _map_predicate_to_field (PStr u) = Ok (Some f) /\
              data' = <[f := v]> data.
Proof.
  unfold extract_binding. intros H.
  apply bind_Ok in H as (p & Hp & H).
  apply bind_Ok in H as (predicate & Hpred & H).
  apply bind_Ok in H as (o & Ho & H).
  apply bind_Ok in H as (v & Hval & H).
  destruct (negb (truthy predicate) || is_none v) eqn:Hskip;
    [left; injection H; auto|].
  apply orb_false_elim in Hskip as [Htruthy Hnone].
  apply negb_false_iff in Htruthy.
  apply bind_Ok in H as (field_name & Hmap & H).
  destruct field_name as [f|]; [| left; injection H; auto].
  destruct (String.eqb f "") eqn:Hf; [left; injection H; auto|].
  injection H as <-.
  apply py_get_Ok in Hp as (d & -> & ->).
  apply py_get_Ok in Hpred as (dp & Hdp & ->).
  apply py_get_Ok in Ho as (d' & [= <-] & ->).
  apply py_get_Ok in Hval as (dobj & Hdobj & ->).
  destruct (dp !! "value") as [predicate|] eqn:Hpv; [| discriminate].
  destruct (dobj !! "value") as [v|] eqn:Hov; [| discriminate].
  simpl in *.
  assert (d !! "predicate" = Some (PDict dp)) as Hp.
  { destruct (d !! "predicate"); simpl in Hdp; [congruence|].
    injection Hdp as <-. rewrite lookup_empty in Hpv. discriminate. }
  assert (d !! "object" = Some (PDict dobj)) as Ho.
  { destruct (d !! "object"); simpl in Hdobj; [congruence|].
    injection Hdobj as <-. rewrite lookup_empty in Hov. discriminate. }
  assert (exists u, predicate = PStr u) as [u ->].
  { unfold _map_predicate_to_field in Hmap.
    destruct predicate as [| | | | u | l | dd]; try discriminate; eauto.
    - simpl in Hmap.
      destruct (existsb (eq_str "/dimension/") l); [discriminate|].
      destruct (existsb (eq_str "example.com/") l); discriminate.
    - simpl in Hmap.
      destruct (bool_decide (is_Some (dd !! "/dimension/"))); [discriminate|].
      destruct (bool_decide (is_Some (dd !! "example.com/"))); discriminate. }
  right. exists u, v, f. split; [|split; [exact Hmap | reflexivity]].
  exists d, dp, dobj. repeat split; try assumption.
  intros ->. discriminate.
Qed.

(** A binding that carries a recognized URI stores its value. *)
Lemma extract_binding_carries (data : gmap string pyval) (b : pyval)
  (u f : string) (v : pyval) :
  carries b u v ->
  _map_predicate_to_field (PStr u) = Ok (Some f) ->
  extract_binding data b = Ok (<[f := v]> data).
Proof.
  intros (d & dp & dobj & -> & Hp & Hpv & Ho & Hov & Hv) Hmap.
  unfold extract_binding. simpl. rewrite Hp, Ho. simpl. rewrite Hpv, Hov. simpl.
  pose proof (mapped_uri_truthy u f Hmap) as Ht. simpl in Ht. rewrite Ht.
  destruct v; try congruence; simpl; rewrite Hmap; simpl;
    rewrite (mapped_field_not_empty _ _ Hmap); reflexivity.
Qed.

Lemma extract_loop_app (data : gmap string pyval) (l1 l2 : list pyval) :
  extract_loop data (l1 ++ l2) =
  extract_loop data l1 ≫= fun data' => extract_loop data' l2.
Proof.
  revert data. induction l1 as [|b l1 IH]; intros data; simpl; [reflexivity|].
  destruct (extract_binding data b) as [data'|e]; simpl; [apply IH | reflexivity].
Qed.

(** Bindings that do not store under [f] leave the field as it is. *)
Lemma extract_loop_keeps (f : string) (post : list pyval) :
  (forall b' u' v', b' ∈ post -> carries b' u' v' ->
                    _map_predicate_to_field (PStr u') <> Ok (Some f)) ->
  forall data data' : gmap string pyval,
    extract_loop data post = Ok data' -> data' !! f = data !! f.
Proof.
  induction post as [|b post IH]; intros Hpost data data' H; simpl in H.
  - injection H as <-. reflexivity.
  - destruct (extract_binding data b) as [data1|] eqn:Hb; simpl in H;
      [| discriminate].
    rewrite (IH ltac:(intros; eapply Hpost; eauto; set_solver) _ _ H).
    apply extract_binding_cases in Hb as [-> | (u & v & f' & Hc & Hm & ->)];
      [reflexivity|].
    apply lookup_insert_ne. intros ->.
    eapply (Hpost b u v); [set_solver | exact Hc | exact Hm].
Qed.

(** The station identifier is stored first and never overwritten. *)
Lemma extract_loop_station (l : list pyval) :
  forall data data' : gmap string pyval,
    extract_loop data l = Ok data' ->
    data' !! "station_id" = data !! "station_id".
Proof.
  apply extract_loop_keeps. intros b' u' v' _ _ Hm.
  exact (mapped_field_not_station _ _ Hm eq_refl).
Qed.

(** C10, as stated, fails: two bindings carry the recognized URI of the
    discharge, the last of them with the value 2, and the field does not
    hold 2: a later binding carries another URI the mapper recognizes for
    the same field, and its value, 3, is the one kept. *)
Lemma other_uri_overwrites :
  let results :=
    response (PList [ binding (uri DISCHARGE) (PStr "1");
                      binding (uri DISCHARGE) (PStr "2");
                      binding "http://example.com/discharge" (PStr "3") ]) in
  _map_predicate_to_field (PStr (uri DISCHARGE)) = Ok (Some "discharge") /\
  _map_predicate_to_field (PStr "http://example.com/discharge") =
    Ok (Some "discharge") /\
  _extract_data results "2044" =
    Ok (<["discharge" := PStr "3"]> {[ "station_id" := PStr "2044" ]}).
Proof. by_evaluation. Qed.

(** C10, amended: when extraction goes through, a field holds the value of
    the last binding, in input order, that carries a recognized predicate
    URI of that field, whichever of the field's URIs it is: whatever
    earlier bindings stored there is overwritten. *)
Theorem last_binding_wins (results : pyval) (sid : string)
  (pre post : list pyval) (b : pyval) (u f : string) (v : pyval)
  (data : gmap string pyval) :
  bindings_of results = Some (pre ++ b :: post) ->
  _extract_data results sid = Ok data ->
  carries b u v ->
  _map_predicate_to_field (PStr u) = Ok (Some f) ->
  (forall b' u' v', b' ∈ post -> carries b' u' v' ->
                    _map_predicate_to_field (PStr u') <> Ok (Some f)) ->
  data !! f = Some v.
Proof.
  intros Hbs Hex Hc Hm Hpost.
  unfold bindings_of in Hbs. unfold _extract_data in Hex.
  destruct results as [| | | | | | d]; try discriminate.
  simpl in Hex. destruct (d !! "results") as [[| | | | | | section]|];
    try discriminate.
  simpl in Hex. destruct (section !! "bindings") as [[| | | | | l |]|];
    try discriminate.
  injection Hbs as ->. simpl in Hex.
  rewrite extract_loop_app in Hex.
  destruct (extract_loop {[ "station_id" := PStr sid ]} pre) as [data1|];
    [| discriminate].
  simpl in Hex. rewrite (extract_binding_carries _ _ _ _ _ Hc Hm) in Hex.
  simpl in Hex.
  rewrite (extract_loop_keeps f post Hpost _ _ Hex).
  apply lookup_insert_eq.
Qed.

Lemma last_binding_wins_witness :
  (<["water_level" := PStr "3"]>
     (<["discharge" := PStr "2"]> {[ "station_id" := PStr "2044" ]})
   : gmap string pyval) !! "discharge" = Some (PStr "2").
Proof.
  apply (last_binding_wins
           (response (PList [ binding (uri DISCHARGE) (PStr "1");
                              binding (uri DISCHARGE) (PStr "2");
                              binding (uri WATER_LEVEL) (PStr "3") ]))
           "2044"
           [ binding (uri DISCHARGE) (PStr "1") ]
           [ binding (uri WATER_LEVEL) (PStr "3") ]
           (binding (uri DISCHARGE) (PStr "2"))
           (uri DISCHARGE) "discharge" (PStr "2")).
  - vm_compute. reflexivity.
  - vm_compute. reflexivity.
  - unfold carries, binding. do 3 eexists.
    split; [reflexivity|]. repeat split; try (vm_compute; reflexivity).
    discriminate.
  - vm_compute. reflexivity.
  - intros b' u' v' Hb' (d & dp & dobj & Hd & Hp & Hpv & _) Hm.
    apply list_elem_of_singleton in Hb'. subst b'.
    unfold binding in Hd. injection Hd as <-.
    vm_compute in Hp. injection Hp as <-.
    vm_compute in Hpv. injection Hpv as <-.
    vm_compute in Hm. discriminate.
Defined.

End Extraction.

(* --------------------------------------------------------------------- *)
(** ** When the mapper returns a Record (C1) *)

Section Acceptance.
Import DataProcessor.

(** The theorems of this section hold for every choice of the libraries
    whose [fromisoformat] refuses the empty text, as every version of it
    does. *)
Context {lib : Libraries}.
Hypothesis empty_text_refused : datetime_fromisoformat "" = None.

Lemma extract_data_station (results : pyval) (sid : string)
  (data : gmap string pyval) :
  _extract_data results sid = Ok data ->
  data !! "station_id" = Some (PStr sid).
Proof.
  unfold _extract_data. intros H.
  apply bind_Ok in H as (section & _ & H).
  apply bind_Ok in H as (bs & _ & H).
  apply bind_Ok in H as (items & _ & H).
  rewrite (extract_loop_station _ _ _ H). apply lookup_singleton_eq.
Qed.

(** A timestamp that fails the truth test of [process_results] would not
    have parsed either: it is absent, the empty string, or no string. *)
Lemma falsy_timestamp_unparseable (data : gmap string pyval) :
  has_timestamp data = false -> timestamp_of data = None.
Proof.
  unfold has_timestamp, timestamp_of.
  destruct (data !! "timestamp") as [v|]; [| reflexivity].
  destruct v as [| | | | s | |]; simpl; try reflexivity.
  destruct s; [| discriminate]. intros _.
  change (replace "Z" "+00:00" "") with "". rewrite empty_text_refused.
  reflexivity.
Qed.

Lemma parseable_timestamp_truthy (data : gmap string pyval) (ts : datetime) :
  timestamp_of data = Some ts -> has_timestamp data = true.
Proof.
  intros H. destruct (has_timestamp data) eqn:E; [reflexivity|].
  rewrite (falsy_timestamp_unparseable _ E) in H. discriminate.
Qed.

Lemma validate_timestamp_spec (data : gmap string pyval) :
  validate_timestamp (data !! "timestamp") =
  match timestamp_of data with
  | Some ts => Ok ts
  | None => Raise ValidationError
  end.
Proof.
  unfold validate_timestamp, timestamp_of.
  destruct (data !! "timestamp") as [v|]; [| reflexivity].
  destruct (parse_timestamp v); reflexivity.
Qed.

Lemma validate_decimal_spec (data : gmap string pyval) (field : string) :
  validate_decimal (data !! field) =
  match coerced data field with
  | Some d => if is_finite d then Ok (Some d) else Raise ValidationError
  | None => Ok None
  end.
Proof.
  unfold validate_decimal, coerced.
  destruct (data !! field) as [v|]; reflexivity.
Qed.

Lemma validate_danger_level_spec (data : gmap string pyval) :
  validate_danger_level (data !! "danger_level") =
  if danger_level_ok data then Ok (danger_level_of data)
  else Raise ValidationError.
Proof.
  unfold validate_danger_level, danger_level_ok, danger_level_of.
  destruct (data !! "danger_level") as [v|]; [| reflexivity].
  destruct v; simpl; try reflexivity;
    match goal with
    | |- context [pydantic_int ?s] => destruct (pydantic_int s)
    | |- context [int_of_float ?s] => destruct (int_of_float s)
    | _ => idtac
    end; simpl; try reflexivity;
    match goal with
    | |- context [(0 <=? ?z)%Z && (?z <=? 5)%Z] =>
        destruct ((0 <=? z)%Z && (z <=? 5)%Z); reflexivity
    end.
Qed.

(** The construction of the Record, field by field. *)
Lemma Measurement_init_spec (data : gmap string pyval) (sid : string) :
  data !! "station_id" = Some (PStr sid) ->
  Measurement_init data =
  match timestamp_of data with
  | Some ts =>
      if finite_decimals data && danger_level_ok data
      then Ok (record_of sid data ts)
      else Raise ValidationError
  | None => Raise ValidationError
  end.
Proof.
  intros Hsid. unfold Measurement_init. rewrite Hsid. simpl.
  rewrite validate_timestamp_spec.
  destruct (timestamp_of data) as [ts|]; [| reflexivity]. simpl.
  rewrite !validate_decimal_spec, validate_danger_level_spec.
  unfold finite_decimals, record_of, validate_is_liter. simpl.
  destruct (coerced data "discharge") as [q|]; simpl;
    [destruct (is_finite q); simpl; [| reflexivity] |];
  (destruct (coerced data "water_level") as [wl|]; simpl;
    [destruct (is_finite wl); simpl; [| reflexivity] |]);
  (destruct (coerced data "water_temperature") as [wt|]; simpl;
    [destruct (is_finite wt); simpl; [| reflexivity] |]);
  (destruct (danger_level_ok data); simpl; [| reflexivity]);
  destruct (data !! "is_liter"); reflexivity.
Qed.

Lemma has_measurements_record (sid : string) (data : gmap string pyval)
  (ts : datetime) :
  has_measurements (record_of sid data ts) = measured data.
Proof. reflexivity. Qed.

(** The gate of [process_results] behind validation and extraction. *)
Lemma process_results_gate (results : pyval) (sid : string)
  (data : gmap string pyval) :
  _validate_results results = Ok true ->
  _extract_data results sid = Ok data ->
  (acceptable data = true ->
   exists ts, timestamp_of data = Some ts /\
              (process_results results sid).2 = Ok (Some (record_of sid data ts))) /\
  (acceptable data = false -> (process_results results sid).2 = Ok None).
Proof.
  intros Hv He. unfold process_results. rewrite Hv, He.
  pose proof (extract_data_station _ _ _ He) as Hsid.
  rewrite (Measurement_init_spec data sid Hsid).
  unfold acceptable, claimed_acceptable.
  destruct (timestamp_of data) as [ts|] eqn:Hts.
  - rewrite (parseable_timestamp_truthy data ts Hts). simpl.
    destruct (finite_decimals data && danger_level_ok data) eqn:Hok.
    + rewrite has_measurements_record.
      apply andb_prop in Hok as [-> ->]. rewrite !andb_true_r.
      destruct (measured data); simpl; split; intros; try discriminate; eauto.
    + split; intros Ha; [| reflexivity].
      rewrite <- andb_assoc, Hok, andb_false_r in Ha. discriminate.
  - simpl. split; [discriminate|]. intros _.
    destruct (negb (has_timestamp data)); reflexivity.
Qed.

Lemma unmeasured_unacceptable (data : gmap string pyval) :
  measured data = false -> acceptable data = false.
Proof.
  intros H. unfold acceptable, claimed_acceptable. rewrite H.
  rewrite andb_false_r. reflexivity.
Qed.

(** The validation of a result set that has the response shape comes down
    to its bindings not being empty. *)
Lemma validate_results_shape (results : pyval) (bs : list pyval) :
  bindings_of results = Some bs ->
  _validate_results results = Ok (truthy (PList bs)).
Proof.
  unfold bindings_of, _validate_results. intros H.
  destruct results as [| | | | | | d]; try discriminate.
  destruct (d !! "results") as [[| | | | | | section]|] eqn:Hsec;
    try discriminate.
  destruct (section !! "bindings") as [[| | | | | l |]|] eqn:Hbs;
    try discriminate.
  injection H as ->.
  assert (d <> ∅) as Hne by (intros ->; rewrite lookup_empty in Hsec; discriminate).
  simpl. rewrite (bool_decide_false _ Hne). simpl.
  rewrite Hsec. simpl. rewrite Hbs. reflexivity.
Qed.

Lemma extract_data_shape (results : pyval) (sid : string) (bs : list pyval) :
  bindings_of results = Some bs ->
  _extract_data results sid =
  extract_loop {[ "station_id" := PStr sid ]} bs.
Proof.
  unfold bindings_of, _extract_data. intros H.
  destruct results as [| | | | | | d]; try discriminate.
  destruct (d !! "results") as [[| | | | | | section]|] eqn:Hsec;
    try discriminate.
  destruct (section !! "bindings") as [[| | | | | l |]|] eqn:Hbs;
    try discriminate.
  injection H as ->. simpl. rewrite Hsec. simpl. rewrite Hbs. reflexivity.
Qed.

(** Bindings that carry only URIs of the timestamp and of the danger level
    are all extracted and leave the three measured fields unset. *)
Lemma extract_loop_unmeasured (bs : list pyval) :
  (forall b, b ∈ bs ->
     exists p v, p ∈ [MEASUREMENT_TIME; DANGER_LEVEL] /\ carries b (uri p) v) ->
  forall data : gmap string pyval,
    exists data', extract_loop data bs = Ok data' /\
                  forall field, field ∈ measured_fields ->
                                data' !! field = data !! field.
Proof.
  induction bs as [|b bs IH]; intros Hbs data; simpl; [eauto|].
  destruct (Hbs b) as (p & v & Hp & Hc); [apply elem_of_cons; auto|].
  assert (exists f, _map_predicate_to_field (PStr (uri p)) = Ok (Some f) /\
                    f ∈ [ "timestamp"; "danger_level" ]) as (f & Hm & Hf).
  { apply elem_of_cons in Hp as [-> | Hp];
      [| apply list_elem_of_singleton in Hp as ->];
      eexists; (split; [vm_compute; reflexivity | repeat constructor]). }
  rewrite (extract_binding_carries data b _ f v Hc Hm). simpl.
  destruct (IH (fun b' Hb' => Hbs b' ltac:(apply elem_of_cons; auto))
               (<[f := v]> data)) as (data' & -> & Hkeep).
  exists data'. split; [reflexivity|].
  intros field Hfield. rewrite (Hkeep field Hfield).
  apply lookup_insert_ne. intros ->.
  unfold measured_fields in Hfield.
  apply elem_of_cons in Hf as [-> | Hf];
    [| apply list_elem_of_singleton in Hf as ->];
    repeat (apply elem_of_cons in Hfield as [Hfield | Hfield];
            [discriminate|]);
    apply elem_of_nil in Hfield; destruct Hfield.
Qed.

(** A result set that bears only measurementTime and dangerLevel yields
    [None]. *)
Lemma time_and_danger_only (results : pyval) (sid : string) :
  bears_only [MEASUREMENT_TIME; DANGER_LEVEL] results ->
  (process_results results sid).2 = Ok None.
Proof.
  intros (bs & Hshape & Hbs).
  pose proof (validate_results_shape results bs Hshape) as Hv.
  destruct bs as [|b bs].
  { rewrite (process_results_rejects results sid Hv). reflexivity. }
  destruct (extract_loop_unmeasured (b :: bs) Hbs {[ "station_id" := PStr sid ]})
    as (data & He & Hkeep).
  rewrite <- (extract_data_shape results sid _ Hshape) in He.
  apply (proj2 (process_results_gate results sid data Hv He)).
  apply unmeasured_unacceptable.
  unfold measured, coerced. simpl.
  rewrite !Hkeep by (unfold measured_fields; repeat constructor).
  rewrite !lookup_singleton_ne by discriminate. reflexivity.
Qed.

(** C1, amended: a result set that fails the structural validation yields
    [None]; on one that passes it and whose fields are extracted,
    [process_results] returns a Record exactly when the extracted fields
    hold a timestamp that parses, at least one of discharge, water level
    and water temperature is non-null after coercion, no coerced decimal is
    an infinity or a NaN, and the danger level, if one was extracted, is an
    integer from 0 to 5; the Record is then the one the fields coerce to.
    In every other such case it returns [None]; in particular a result set
    that bears only measurementTime and dangerLevel yields [None].  What
    parses and what a text coerces to is for the libraries to say: the
    statement holds whatever they say. *)
Theorem process_results_accepts :
  (forall (results : pyval) (sid : string),
      _validate_results results = Ok false ->
      (process_results results sid).2 = Ok None) /\
  (forall (results : pyval) (sid : string) (data : gmap string pyval),
      _validate_results results = Ok true ->
      _extract_data results sid = Ok data ->
      (acceptable data = true ->
       exists ts, timestamp_of data = Some ts /\
                  (process_results results sid).2 =
                    Ok (Some (record_of sid data ts))) /\
      (acceptable data = false -> (process_results results sid).2 = Ok None)) /\
  (forall (results : pyval) (sid : string),
      bears_only [MEASUREMENT_TIME; DANGER_LEVEL] results ->
      (process_results results sid).2 = Ok None).
Proof.
  split; [| split; [exact process_results_gate | exact time_and_danger_only]].
  intros results sid H. rewrite (process_results_rejects results sid H).
  reflexivity.
Qed.

End Acceptance.

Section AcceptanceExamples.
Import DataProcessor.

(** C1, as stated, fails: the response below carries a timestamp that
    parses and a discharge that is non-null after coercion, and the
    validation of the danger level 9 (the field allows 0 to 5) makes the
    construction of the Record fail, so [process_results] returns [None]. *)
Lemma danger_level_rejects_record :
  let results :=
    response (PList [ binding (uri MEASUREMENT_TIME) (PStr "2024-01-15T10:30:00Z");
                      binding (uri DISCHARGE) (PStr "123.45");
                      binding (uri DANGER_LEVEL) (PStr "9") ]) in
  let data : gmap string pyval :=
    <["danger_level" := PStr "9"]>
      (<["discharge" := PStr "123.45"]>
         (<["timestamp" := PStr "2024-01-15T10:30:00Z"]>
            {[ "station_id" := PStr "2044" ]})) in
  _validate_results results = Ok true /\
  _extract_data results "2044" = Ok data /\
  timestamp_of data = Some (mk_datetime 2024 1 15 10 30 0 0 (Some 0%Z)) /\
  coerced data "discharge" = Some (Finite false 12345 (-2)) /\
  claimed_acceptable data = true /\
  (process_results results "2044").2 = Ok None.
Proof. by_evaluation. Qed.

Lemma process_results_accepts_witness :
  datetime_fromisoformat "" = None /\
  let results :=
    response (PList [ binding (uri MEASUREMENT_TIME) (PStr "2024-01-15T10:30:00Z");
                      binding (uri DISCHARGE) (PStr "123.45") ]) in
  exists ts,
    timestamp_of
      (<["discharge" := PStr "123.45"]>
         (<["timestamp" := PStr "2024-01-15T10:30:00Z"]>
            {[ "station_id" := PStr "2044" ]}) : gmap string pyval) = Some ts /\
    (process_results results "2044").2 =
      Ok (Some (record_of "2044"
                  (<["discharge" := PStr "123.45"]>
                     (<["timestamp" := PStr "2024-01-15T10:30:00Z"]>
                        {[ "station_id" := PStr "2044" ]})) ts)).
Proof.
  split; [reflexivity|].
  destruct (@process_results_accepts reference eq_refl) as (_ & Hgate & _).
  apply (Hgate
           (response (PList [ binding (uri MEASUREMENT_TIME)
                                      (PStr "2024-01-15T10:30:00Z");
                              binding (uri DISCHARGE) (PStr "123.45") ]))
           "2044"
           (<["discharge" := PStr "123.45"]>
              (<["timestamp" := PStr "2024-01-15T10:30:00Z"]>
                 {[ "station_id" := PStr "2044" ]}))).
  - vm_compute. reflexivity.
  - vm_compute. reflexivity.
  - vm_compute. reflexivity.
Defined.

End AcceptanceExamples.

(* --------------------------------------------------------------------- *)
(** ** Saving: duplicate keys and idempotence (C3) *)

Section Saving.
Import CsvHandler.

(** The loop of [save_measurements] stages the new records in order and
    adds the key of every record it went through to the index. *)
Lemma stage_fold (index : gset string) (ms : list Measurement) :
  forall (earlier : list Measurement)
         (acc : list (gmap string (option string))),
    fold_left stage ms (acc, index ∪ batch_keys earlier) =
    (acc ++ (to_csv_dict <$> select_new index earlier ms),
     index ∪ batch_keys (earlier ++ ms)).
Proof.
  induction ms as [|m ms IH]; intros earlier acc; simpl.
  - rewrite !app_nil_r. reflexivity.
  - unfold is_new, batch_keys in *.
    assert ((unique_key m ∉ index ∪ list_to_set (unique_key <$> earlier)) <->
            (unique_key m ∉ index) /\ (unique_key m ∉ (unique_key <$> earlier)))
      as Hiff.
    { rewrite not_elem_of_union, elem_of_list_to_set. reflexivity. }
    assert (index ∪ list_to_set (unique_key <$> earlier) ∪ {[unique_key m]} =
            index ∪ list_to_set (unique_key <$> (earlier ++ [m]))) as Hkeys.
    { rewrite fmap_app, list_to_set_app_L. simpl.
      rewrite (right_id_L ∅ (∪)), (assoc_L (∪)). reflexivity. }
    rewrite (bool_decide_ext _ _ Hiff).
    destruct (bool_decide ((unique_key m ∉ index) /\
                           (unique_key m ∉ (unique_key <$> earlier)))) eqn:E.
    + rewrite Hkeys, IH. simpl. rewrite <- !app_assoc. reflexivity.
    + apply bool_decide_eq_false in E.
      assert (unique_key m ∈ index ∪ list_to_set (unique_key <$> earlier))
        as Hin.
      { destruct (decide (unique_key m ∈
                          index ∪ list_to_set (unique_key <$> earlier)));
          [assumption | exfalso; apply E, Hiff; assumption]. }
      assert (index ∪ list_to_set (unique_key <$> earlier) =
              index ∪ list_to_set (unique_key <$> (earlier ++ [m]))) as Hsame.
      { rewrite <- Hkeys. apply leibniz_equiv. set_solver. }
      rewrite Hsame at 1. rewrite IH. simpl. rewrite <- app_assoc. reflexivity.
Qed.

Lemma stage_fold_start (h : handler) (ms : list Measurement) :
  fold_left stage ms ([], _processed_keys h) =
  (to_csv_dict <$> select_new (_processed_keys h) [] ms,
   _processed_keys h ∪ batch_keys ms).
Proof.
  pose proof (stage_fold (_processed_keys h) ms [] []) as H.
  unfold batch_keys in H at 1. simpl in H.
  rewrite (right_id_L ∅ (∪)) in H. exact H.
Qed.

(** What a save whose write goes through returns and leaves. *)
Lemma save_measurements_writes (ms : list Measurement) (h : handler) :
  let staged := select_new (_processed_keys h) [] ms in
  (save_measurements ms true h).1.2 = length staged /\
  csv_file (save_measurements ms true h).2 =
    match staged with
    | [] => csv_file h
    | _ => append_lines (csv_file h) (record_line <$> staged)
    end /\
  _processed_keys (save_measurements ms true h).2 =
    _processed_keys h ∪ batch_keys ms.
Proof.
  intros staged. subst staged. unfold save_measurements.
  destruct ms as [|m ms].
  { simpl. repeat split. unfold batch_keys. simpl.
    rewrite (right_id_L ∅ (∪)). reflexivity. }
  rewrite stage_fold_start.
  destruct (select_new (_processed_keys h) [] (m :: ms)) as [|s staged];
    simpl; [repeat split|].
  rewrite length_fmap. repeat split.
  unfold record_line. rewrite <- list_fmap_compose. reflexivity.
Qed.

(** Whatever the write does, the keys of the batch join the index. *)
Lemma save_measurements_keys (ms : list Measurement) (w : bool) (h : handler) :
  _processed_keys (save_measurements ms w h).2 =
  _processed_keys h ∪ batch_keys ms.
Proof.
  unfold save_measurements. destruct ms as [|m ms].
  { simpl. unfold batch_keys. simpl. rewrite (right_id_L ∅ (∪)). reflexivity. }
  rewrite stage_fold_start.
  destruct (to_csv_dict <$> select_new (_processed_keys h) [] (m :: ms));
    [reflexivity|]. destruct w; reflexivity.
Qed.

(** A batch whose keys are all in the index stages nothing. *)
Lemma select_new_known (index : gset string) (ms : list Measurement) :
  batch_keys ms ⊆ index ->
  forall earlier, select_new index earlier ms = [].
Proof.
  induction ms as [|m ms IH]; intros Hsub earlier; simpl; [reflexivity|].
  unfold batch_keys in Hsub. simpl in Hsub.
  unfold is_new. rewrite bool_decide_false by (intros [Hn _]; set_solver).
  simpl. apply IH. unfold batch_keys. set_solver.
Qed.

(** Saving a batch whose keys are all in the index returns 0 and leaves the
    store, file and index, as it is. *)
Lemma save_known (ms : list Measurement) (w : bool) (h : handler) :
  batch_keys ms ⊆ _processed_keys h ->
  save_measurements ms w h = ([], O, h).
Proof.
  intros Hsub. unfold save_measurements. destruct ms as [|m ms]; [reflexivity|].
  rewrite stage_fold_start, (select_new_known _ _ Hsub). simpl.
  replace (_processed_keys h ∪ batch_keys (m :: ms)) with (_processed_keys h)
    by (apply leibniz_equiv; set_solver).
  destruct h; reflexivity.
Qed.

(** C3: the duplicate key is [isoformat(timestamp) + "_" + station_id];
    a save stages, in input order, exactly the records whose key is neither
    in the index nor the key of an earlier record of the batch, and, when
    there is one, leaves the lines the file held followed by the lines of
    the staged records and returns their number; so of two records with one
    key that the index does not hold, only the first is stored, its line
    the one line added; and a second save of the same batch returns 0 and
    changes nothing, whether or not the first write went through. *)
Theorem save_skips_duplicates :
  (forall m : Measurement,
      unique_key m = isoformat (timestamp m) +:+ "_" +:+ station_id m) /\
  (forall (ms : list Measurement) (h : handler),
      let staged := select_new (_processed_keys h) [] ms in
      (save_measurements ms true h).1.2 = length staged /\
      csv_file (save_measurements ms true h).2 =
        match staged with
        | [] => csv_file h
        | _ => Some (default [] (csv_file h) ++ (record_line <$> staged))
        end) /\
  (forall (m1 m2 : Measurement) (h : handler),
      unique_key m1 = unique_key m2 ->
      unique_key m1 ∉ _processed_keys h ->
      (save_measurements [m1; m2] true h).1.2 = 1%nat /\
      csv_file (save_measurements [m1; m2] true h).2 =
        Some (default [] (csv_file h) ++
              [[ isoformat (timestamp m1); station_id m1;
                 default "" (Decimal_str <$> discharge m1);
                 default "" (Decimal_str <$> water_level m1);
                 default "" (string_of_Z <$> danger_level m1);
                 default "" (Decimal_str <$> water_temperature m1);
                 default "" ((fun b : bool => if b then "true" else "false")
                               <$> is_liter m1) ]])) /\
  (forall (ms : list Measurement) (w1 w2 : bool) (h : handler),
      let h1 := (save_measurements ms w1 h).2 in
      save_measurements ms w2 h1 = ([], O, h1)).
Proof.
  split; [reflexivity|]. split; [|split].
  - intros ms h staged.
    destruct (save_measurements_writes ms h) as (Hn & Hf & _).
    split; [exact Hn | exact Hf].
  - intros m1 m2 h Hkey Hnew.
    destruct (save_measurements_writes [m1; m2] h) as (Hn & Hf & _).
    rewrite Hn, Hf. simpl. unfold is_new. simpl.
    rewrite bool_decide_true by (split; [exact Hnew | set_solver]).
    rewrite bool_decide_false by (intros [_ Hn2]; set_solver).
    split; [reflexivity|]. unfold append_lines. cbn [app fmap list_fmap].
    do 3 f_equal.
  - intros ms w1 w2 h h1. subst h1. apply save_known.
    rewrite save_measurements_keys. set_solver.
Qed.

Lemma save_skips_duplicates_witness :
  let h := mk_handler (Some [CSV_COLUMNS]) ∅ in
  let batch := [reading "123.45"; reading "999.99"] in
  ((save_measurements batch true h).1.2 = 1%nat /\
   csv_file (save_measurements batch true h).2 =
     Some [ CSV_COLUMNS;
            [ "2024-01-15T10:30:00+00:00"; "2044"; "123.45"; ""; ""; ""; "" ] ]) /\
  save_measurements batch true (save_measurements batch false h).2 =
    ([], O, (save_measurements batch false h).2).
Proof.
  destruct save_skips_duplicates as (_ & _ & Hfirst & Hagain).
  split.
  - apply (Hfirst (reading "123.45") (reading "999.99")
                  (mk_handler (Some [CSV_COLUMNS]) ∅)).
    + reflexivity.
    + apply not_elem_of_empty.
  - apply (Hagain [reading "123.45"; reading "999.99"] false true
                  (mk_handler (Some [CSV_COLUMNS]) ∅)).
Defined.

End Saving.

(* --------------------------------------------------------------------- *)
(** ** A failed write leaves its keys in the index (C9) *)

Section FailedWrite.
Import CsvHandler.

(** A save whose write fails returns 0 and leaves the file as it was. *)
Lemma save_fails (ms : list Measurement) (h : handler) :
  (save_measurements ms false h).1.2 = O /\
  csv_file (save_measurements ms false h).2 = csv_file h.
Proof.
  unfold save_measurements. destruct ms as [|m ms]; [split; reflexivity|].
  destruct (fold_left stage (m :: ms) ([], _processed_keys h)) as [new keys].
  destruct new; split; reflexivity.
Qed.

(** A de-duplication pass that returns 0 leaves the store as it was. *)
Lemma remove_duplicates_zero (r w : bool) (h : handler) :
  (remove_duplicates r w h).1.2 = O -> (remove_duplicates r w h).2 = h.
Proof.
  unfold remove_duplicates. destruct (csv_file h) as [lines|]; [| reflexivity].
  destruct (if r then read_csv lines else Raise OSError) as [df|];
    [| reflexivity].
  destruct (drop_duplicates df) as [df'|]; [| reflexivity].
  destruct (0 <? length (rows df) - length (rows df'))%nat eqn:Hpos;
    [| reflexivity].
  destruct w; [| reflexivity]. simpl. intros H0. rewrite H0 in Hpos.
  discriminate.
Qed.

(** Calls among which no pass drops a row only ever add keys. *)
Lemma after_keeps_keys (calls : list call) :
  forall h, drops_nothing calls h = true ->
            _processed_keys h ⊆ _processed_keys (after calls h).
Proof.
  induction calls as [|c calls IH]; intros h Hq; simpl; [reflexivity|].
  simpl in Hq. apply andb_prop in Hq as [Hc Hq].
  etransitivity; [| apply IH, Hq].
  destruct c as [ms w | r w]; simpl.
  - pose proof (save_measurements_keys ms w h) as Hk.
    destruct (save_measurements ms w h) as [[logs n] h']. simpl in *.
    rewrite Hk. set_solver.
  - simpl in Hc. apply Nat.eqb_eq in Hc.
    pose proof (remove_duplicates_zero r w h) as Hz.
    destruct (remove_duplicates r w h) as [[logs n] h']. simpl in *.
    rewrite (Hz Hc). reflexivity.
Qed.

(** C9, as stated, fails: a store whose file holds a duplicated older line
    fails to write a reading, keeps its key, and then runs a
    de-duplication pass; the pass drops the duplicate and rebuilds the
    index from the file, where the reading is not; the next save of the
    same reading by the same store writes it and returns 1. *)
Lemma index_rebuilt_by_dedup :
  let h := mk_handler (Some [CSV_COLUMNS; older_line; older_line])
                      {[ "2024-01-14T10:30:00+00:00_2044" ]} in
  let h1 := (save_measurements [reading "123.45"] false h).2 in
  let h2 := (remove_duplicates true true h1).2 in
  (save_measurements [reading "123.45"] false h).1.2 = O /\
  bool_decide (unique_key (reading "123.45") ∈ _processed_keys h1) = true /\
  (remove_duplicates true true h1).1.2 = 1%nat /\
  (save_measurements [reading "123.45"] true h2).1.2 = 1%nat /\
  csv_file (save_measurements [reading "123.45"] true h2).2 =
    Some [CSV_COLUMNS; older_line; record_line (reading "123.45")].
Proof. by_evaluation. Qed.

(** C9, amended: a save whose write fails returns 0 and leaves the file as
    it was, yet the keys of its batch are in the index afterwards; from
    then on, after any further saves and any de-duplication passes that
    drop no row, a save of the same batch by the same store returns 0 and
    changes nothing.  (A pass that drops rows rebuilds the index from the
    file.) *)
Theorem failed_write_keeps_keys (ms : list Measurement) (h : handler)
  (calls : list call) (w : bool) :
  let h1 := (save_measurements ms false h).2 in
  drops_nothing calls h1 = true ->
  (save_measurements ms false h).1.2 = O /\
  csv_file h1 = csv_file h /\
  batch_keys ms ⊆ _processed_keys h1 /\
  save_measurements ms w (after calls h1) = ([], O, after calls h1).
Proof.
  intros h1 Hq. subst h1.
  destruct (save_fails ms h) as [Hn Hf].
  assert (batch_keys ms ⊆ _processed_keys (save_measurements ms false h).2)
    as Hk by (rewrite save_measurements_keys; set_solver).
  repeat split; try assumption.
  apply save_known. etransitivity; [exact Hk | apply after_keeps_keys, Hq].
Qed.

Lemma failed_write_keeps_keys_witness :
  let h := mk_handler (Some [CSV_COLUMNS; older_line]) ∅ in
  let batch := [reading "123.45"] in
  let h1 := (save_measurements batch false h).2 in
  let calls := [Dedup true true; Save [reading "999.99"] true] in
  (save_measurements batch false h).1.2 = O /\
  csv_file h1 = csv_file h /\
  batch_keys batch ⊆ _processed_keys h1 /\
  save_measurements batch true (after calls h1) = ([], O, after calls h1).
Proof.
  apply (failed_write_keeps_keys [reading "123.45"]
           (mk_handler (Some [CSV_COLUMNS; older_line]) ∅)
           [Dedup true true; Save [reading "999.99"] true] true).
  vm_compute. reflexivity.
Defined.

End FailedWrite.

(* --------------------------------------------------------------------- *)
(** ** The de-duplication pass (C8) *)

Section Deduplication.
Import CsvHandler.

(** Rows whose pairs are all different, and different from those seen,
    are all kept. *)
Lemma keep_first_nodup (i j : nat) (rs : list (list (option string))) :
  forall seen,
    NoDup (pair_at i j <$> rs) ->
    (forall p, p ∈ seen -> p ∉ (pair_at i j <$> rs)) ->
    keep_first i j seen rs = rs.
Proof.
  induction rs as [|r rs IH]; intros seen Hnd Hseen; simpl; [reflexivity|].
  simpl in Hnd. apply NoDup_cons in Hnd as [Hr Hnd].
  rewrite bool_decide_false.
  - f_equal. apply IH; [exact Hnd|].
    intros p Hp. apply elem_of_cons in Hp as [-> | Hp]; [exact Hr|].
    intros Hin. apply (Hseen p Hp). simpl. apply elem_of_cons. auto.
  - intros Hin. apply (Hseen _ Hin). simpl. apply elem_of_cons. auto.
Qed.

(** Under the store's header the pair [drop_duplicates] compares is the
    pair of the line. *)
Lemma pair_at_read_row (l : line) :
  pair_at 0 1 (read_row (length CSV_COLUMNS) l) = pair_of l.
Proof. reflexivity. Qed.

Lemma not_blank_line (l : line) :
  length l = length CSV_COLUMNS -> blank_line l = false.
Proof. do 2 (destruct l as [|? l]; try discriminate). reflexivity. Qed.

(** A file of lines of seven cells under the store's header is read line
    by line: no line is passed over and none is refused. *)
Lemma read_csv_kept (body : list line) :
  Forall (fun l => length l = length CSV_COLUMNS) body ->
  read_csv (CSV_COLUMNS :: body) =
  Ok (mk_frame CSV_COLUMNS (map (read_row (length CSV_COLUMNS)) body)).
Proof.
  intros Hlen. unfold read_csv.
  change (List.filter (fun l => negb (blank_line l)) (CSV_COLUMNS :: body))
    with (CSV_COLUMNS :: List.filter (fun l => negb (blank_line l)) body).
  assert (List.filter (fun l => negb (blank_line l)) body = body) as ->.
  { induction Hlen as [|l body Hl _ IH]; [reflexivity|].
    cbn [List.filter]. rewrite (not_blank_line l Hl), IH. reflexivity. }
  assert (match body with
          | [] => length CSV_COLUMNS
          | first :: _ => Nat.max (length CSV_COLUMNS) (length first)
          end = length CSV_COLUMNS) as Hwidth.
  { destruct Hlen as [|l body Hl _]; [reflexivity|]. rewrite Hl. reflexivity. }
  cbv zeta. rewrite Hwidth.
  assert (forallb (fun l => (length l <=? length CSV_COLUMNS)%nat) body = true)
    as ->.
  { apply forallb_forall. intros l Hin.
    rewrite Forall_forall in Hlen. apply list_elem_of_In in Hin.
    rewrite (Hlen l Hin). reflexivity. }
  rewrite Nat.sub_diag. reflexivity.
Qed.

(** A row read under the store's header and written back. *)
Lemma written_back_row (l : line) :
  length l = length CSV_COLUMNS ->
  map (default "") (read_row (length CSV_COLUMNS) l) = written_back <$> l.
Proof.
  intros Hlen.
  do 8 (destruct l as [|? l]; try discriminate Hlen).
  unfold read_row, written_back, pd_cell.
  change (length CSV_COLUMNS) with 7%nat. cbn [seq map nth fmap list_fmap].
  repeat match goal with
         | |- context [existsb (String.eqb ?c) na_values] =>
             destruct (existsb (String.eqb c) na_values)
         end; reflexivity.
Qed.

(** C8, as stated, fails: in the table below the first and the third row
    share their timestamp and their station, "NA"; [remove_duplicates]
    drops the third row and returns 1, but the station of the first row is
    not kept: [pandas] reads "NA" as a missing value and writes the row back
    with an empty station. *)
Lemma missing_value_not_kept :
  let first := [ "2024-01-15T10:30:00+00:00"; "NA"; "123.45"; ""; ""; ""; "" ] in
  let third := [ "2024-01-15T10:30:00+00:00"; "NA"; "999.99"; ""; ""; ""; "" ] in
  let h := mk_handler (Some [CSV_COLUMNS; first; older_line; third]) ∅ in
  (remove_duplicates true true h).1.2 = 1%nat /\
  csv_file (remove_duplicates true true h).2 =
    Some [ CSV_COLUMNS;
           [ "2024-01-15T10:30:00+00:00"; ""; "123.45"; ""; ""; ""; "" ];
           older_line ].
Proof. by_evaluation. Qed.

(** C8, amended: on a table under the store's header of three rows of
    seven cells, of which the first and the third share their (timestamp,
    station) pair and the second has another one, [remove_duplicates]
    returns 1 and leaves the first and the second row, in this order, each
    with its own values but for those [pandas] reads as missing (NA, NaN,
    null, ...), which it writes back empty; on a path that does not exist
    it logs a warning and returns 0; and on a table of rows of seven cells
    no two of which share a pair it returns 0 and leaves file and index as
    they are. *)
Theorem remove_duplicates_cases :
  (forall (keys : gset string) (r1 r2 r3 : line),
      length r1 = length CSV_COLUMNS ->
      length r2 = length CSV_COLUMNS ->
      length r3 = length CSV_COLUMNS ->
      pair_of r1 = pair_of r3 ->
      pair_of r2 <> pair_of r1 ->
      let h := mk_handler (Some [CSV_COLUMNS; r1; r2; r3]) keys in
      (remove_duplicates true true h).1.2 = 1%nat /\
      csv_file (remove_duplicates true true h).2 =
        Some [CSV_COLUMNS; written_back <$> r1; written_back <$> r2]) /\
  (forall (r w : bool) (keys : gset string),
      remove_duplicates r w (mk_handler None keys) =
        ([(WARNING, "CSV file does not exist")], O, mk_handler None keys)) /\
  (forall (r w : bool) (keys : gset string) (body : list line),
      Forall (fun l => length l = length CSV_COLUMNS) body ->
      NoDup (pair_of <$> body) ->
      let h := mk_handler (Some (CSV_COLUMNS :: body)) keys in
      (remove_duplicates r w h).1.2 = O /\ (remove_duplicates r w h).2 = h).
Proof.
  split; [|split].
  - intros keys r1 r2 r3 H1 H2 H3 H13 H21 h. subst h.
    unfold remove_duplicates. cbn [csv_file].
    rewrite read_csv_kept by (repeat constructor; assumption).
    unfold drop_duplicates. cbn [columns rows].
    change (col_index "timestamp" CSV_COLUMNS) with (Some 0%nat).
    change (col_index "station_id" CSV_COLUMNS) with (Some 1%nat).
    cbn [map keep_first]. rewrite !pair_at_read_row.
    rewrite (bool_decide_false (pair_of r1 ∈ []))
      by (intros Hin; apply elem_of_nil in Hin; exact Hin).
    rewrite (bool_decide_false (pair_of r2 ∈ [pair_of r1]))
      by (intros Hin; apply list_elem_of_singleton in Hin; auto).
    rewrite (bool_decide_true (pair_of r3 ∈ [pair_of r2; pair_of r1]))
      by (rewrite H13; apply elem_of_cons; right; apply elem_of_cons; auto).
    cbn [rows length Nat.sub Nat.ltb Nat.leb fst snd csv_file].
    unfold to_csv. cbn [columns rows map].
    rewrite (written_back_row r1 H1), (written_back_row r2 H2).
    split; reflexivity.
  - reflexivity.
  - intros r w keys body Hlen Hnd h.
    assert ((remove_duplicates r w h).1.2 = O) as Hz.
    { subst h. unfold remove_duplicates. cbn [csv_file].
      destruct r; [| reflexivity]. rewrite (read_csv_kept body Hlen).
      unfold drop_duplicates. cbn [columns rows].
      change (col_index "timestamp" CSV_COLUMNS) with (Some 0%nat).
      change (col_index "station_id" CSV_COLUMNS) with (Some 1%nat).
      cbn iota. cbn [rows].
      rewrite keep_first_nodup.
      - rewrite Nat.sub_diag. reflexivity.
      - change (map (read_row (length CSV_COLUMNS)) body)
          with (read_row (length CSV_COLUMNS) <$> body).
        rewrite <- list_fmap_compose.
        erewrite list_fmap_ext; [exact Hnd|].
        intros k l _. reflexivity.
      - intros p Hp. apply elem_of_nil in Hp. destruct Hp. }
    split; [exact Hz | apply remove_duplicates_zero, Hz].
Qed.

Lemma remove_duplicates_cases_witness :
  let first := [ "2024-01-15T10:30:00+00:00"; "2044"; "123.45"; ""; ""; ""; "" ] in
  let third := [ "2024-01-15T10:30:00+00:00"; "2044"; "999.99"; ""; ""; ""; "" ] in
  let h := mk_handler (Some [CSV_COLUMNS; first; older_line; third]) ∅ in
  ((remove_duplicates true true h).1.2 = 1%nat /\
   csv_file (remove_duplicates true true h).2 =
     Some [CSV_COLUMNS; first; older_line]) /\
  (let h' := mk_handler (Some [CSV_COLUMNS; first; older_line]) ∅ in
   (remove_duplicates true true h').1.2 = O /\
   (remove_duplicates true true h').2 = h').
Proof.
  destruct remove_duplicates_cases as (Hthree & _ & Hnone).
  split.
  - apply (Hthree ∅
             [ "2024-01-15T10:30:00+00:00"; "2044"; "123.45"; ""; ""; ""; "" ]
             older_line
             [ "2024-01-15T10:30:00+00:00"; "2044"; "999.99"; ""; ""; ""; "" ]);
      try reflexivity.
    discriminate.
  - apply (Hnone true true ∅
             [ [ "2024-01-15T10:30:00+00:00"; "2044"; "123.45"; ""; ""; ""; "" ];
               older_line ]).
    + repeat constructor.
    + apply NoDup_cons. split.
      * intros Hin. apply list_elem_of_singleton in Hin. discriminate.
      * apply NoDup_singleton.
Defined.

End Deduplication.

(* --------------------------------------------------------------------- *)
(** ** The retrying client: schedule, result and exceptions *)

Section RetryTrace.
Import SparqlClient.

Variable c : client.
Variable endpoint : nat -> outcome.

Lemma effects_app (evs evs' : list event) :
  effects (evs ++ evs') = effects evs ++ effects evs'.
Proof. unfold effects. apply List.filter_app. Qed.

(** A converted response ends the pass with a [return]; the only effect is
    the request. *)
Lemma attempt_once_converted_effects (results : pyval) (a : nat) (d : number) :
  exists evs,
    attempt_once c (Converted results) a d =
      (evs, Return (if well_formed results then Some results else None)) /\
    queries evs = 1%nat /\ effects evs = [Query].
Proof.
  unfold attempt_once, on_results, _validate_results, bindings_count.
  destruct results as [| b | z | r | s | l | dm]; simpl;
    try (eexists; repeat split; reflexivity).
  destruct (dm !! "results") as [section|] eqn:Hsec; simpl;
    [| eexists; repeat split; reflexivity ].
  destruct section as [| b | z | r | s | l | ds]; simpl;
    try (eexists; repeat split; reflexivity).
  - destruct (contains "bindings" s); simpl; eexists; repeat split; reflexivity.
  - destruct (existsb (eq_str "bindings") l); simpl;
      eexists; repeat split; reflexivity.
  - destruct (ds !! "bindings") as [bs|] eqn:Hbs; simpl;
      [| eexists; repeat split; reflexivity ].
    destruct bs; simpl; eexists; repeat split; reflexivity.
Qed.

(** How a pass can end, read back from its result. *)
Lemma attempt_once_inv (answer : outcome) (a : nat) (d : number)
  (evs : list event) (p : pass) :
  attempt_once c answer a d = (evs, p) ->
  queries evs = 1%nat /\
  match p with
  | Return (Some r) =>
      answer = Converted r /\ well_formed r = true /\ effects evs = [Query]
  | Return None =>
      answer <> Raises SPARQLWrapperException /\ effects evs = [Query]
  | Continue d' =>
      answer = Raises SPARQLWrapperException /\
      (((Z.of_nat a < max_retries c - 1)%Z /\ time_sleep d = Ok tt /\
        d' = times2 d /\ effects evs = [Query; Sleep d]) \/
       ((max_retries c - 1 <= Z.of_nat a)%Z /\ d' = d /\
        effects evs = [Query]))
  | Escape e =>
      answer = Raises SPARQLWrapperException /\
      (Z.of_nat a < max_retries c - 1)%Z /\ time_sleep d = Raise e /\
      effects evs = [Query]
  end.
Proof.
  destruct answer as [results | e].
  - destruct (attempt_once_converted_effects results a d) as (evs0 & -> & Hq & He).
    intros [= <- <-]. split; [exact Hq|].
    destruct (well_formed results) eqn:Hwf; auto.
  - unfold attempt_once, on_exception.
    destruct e; try (intros [= <- <-]; split; [reflexivity|];
                     split; [discriminate | reflexivity]).
    unfold on_sparql_error.
    destruct (Z.of_nat a <? max_retries c - 1)%Z eqn:Ha.
    + apply Z.ltb_lt in Ha.
      destruct (time_sleep d) as [[]|e] eqn:Hd; intros [= <- <-];
        (split; [reflexivity|]); split; auto.
    + apply Z.ltb_ge in Ha. intros [= <- <-].
      split; [reflexivity|]. split; auto.
Qed.

Lemma schedule_step (d : number) (n : nat) :
  (0 < n)%nat ->
  Query :: Sleep d :: schedule (times2 d) n = schedule d (S n).
Proof. destruct n; [lia | reflexivity]. Qed.

(** The loop entered at attempt [a] with as many attempts left as
    [max_retries] allows. *)
Lemma attempts_schedule :
  forall (remaining a : nat) (d : number),
    Z.of_nat (a + remaining) = max_retries c \/ remaining = 0%nat ->
    let run := attempts c endpoint remaining a d in
    exists n, (n <= remaining)%nat /\ (0 < remaining -> 0 < n)%nat /\
      queries run.1 = n /\ effects run.1 = schedule d n.
Proof.
  induction remaining as [|remaining IH]; intros a d Hinv run; subst run.
  - exists 0%nat. simpl. repeat split; auto; lia.
  - destruct Hinv as [Hinv|]; [|lia]. simpl.
    destruct (attempt_once c (endpoint a) a d) as [evs p] eqn:Hp.
    apply attempt_once_inv in Hp as [Hq Hp].
    destruct p as [[r|] | d' | e].
    + exists 1%nat. simpl. destruct Hp as (_ & _ & He).
      repeat split; auto; lia.
    + exists 1%nat. simpl. destruct Hp as (_ & He). repeat split; auto; lia.
    + destruct Hp as (_ & [(Ha & Hd & -> & He) | (Ha & -> & He)]).
      * destruct (IH (S a) (times2 d)) as (n & Hn & Hpos & Hqn & Hen);
          [left; lia|].
        destruct (attempts c endpoint remaining (S a) (times2 d)) as [evs' r].
        simpl in *. exists (S n).
        rewrite queries_app, effects_app, Hq, Hqn, He, Hen.
        repeat split; try lia.
        simpl. apply schedule_step. apply Hpos. lia.
      * assert (remaining = 0%nat) as -> by lia. simpl.
        exists 1%nat. rewrite queries_app, effects_app, Hq, He.
        repeat split; auto.
    + exists 1%nat. simpl. destruct Hp as (_ & _ & _ & He).
      repeat split; auto; lia.
Qed.

(** No run sends more requests than [max_retries] allows. *)
Lemma execute_query_bound :
  (queries (execute_query c endpoint).1 <= Z.to_nat (max_retries c))%nat.
Proof.
  unfold execute_query.
  destruct (attempts_schedule (Z.to_nat (max_retries c)) 0 (initial_delay c))
    as (n & Hn & _ & Hq & _).
  - destruct (Z.le_gt_cases 0 (max_retries c)).
    + left. simpl. lia.
    + right. lia.
  - rewrite Hq. exact Hn.
Qed.

(** X1: whatever the endpoint answers, the requests and waits of
    [execute_query] follow the backoff schedule: at most [max_retries]
    requests, one wait between two requests and none after the last, the
    first wait of the initial delay and each later one twice the one
    before. *)
Theorem execute_query_schedule :
  let run := execute_query c endpoint in
  exists n, (n <= Z.to_nat (max_retries c))%nat /\
    queries run.1 = n /\
    effects run.1 = schedule (initial_delay c) n.
Proof.
  intros run. subst run. unfold execute_query.
  destruct (attempts_schedule (Z.to_nat (max_retries c)) 0 (initial_delay c))
    as (n & Hn & _ & Hq & He).
  - destruct (Z.le_gt_cases 0 (max_retries c)).
    + left. simpl. lia.
    + right. lia.
  - exists n. auto.
Qed.

(** The loop when it returns a response. *)
Lemma attempts_return (r : pyval) :
  forall (remaining a : nat) (d : number),
    (attempts c endpoint remaining a d).2 = Ok (Some r) ->
    exists k, (k < remaining)%nat /\
      endpoint (a + k)%nat = Converted r /\ well_formed r = true /\
      (forall i, (i < k)%nat ->
                 endpoint (a + i)%nat = Raises SPARQLWrapperException) /\
      queries (attempts c endpoint remaining a d).1 = S k.
Proof.
  induction remaining as [|remaining IH]; intros a d; simpl.
  - discriminate.
  - destruct (attempt_once c (endpoint a) a d) as [evs p] eqn:Hp.
    apply attempt_once_inv in Hp as [Hq Hp].
    destruct p as [[r'|] | d' | e]; simpl; try discriminate.
    + intros [= ->]. destruct Hp as (Ha & Hwf & _).
      exists 0%nat. rewrite Nat.add_0_r. repeat split; auto; lia.
    + destruct Hp as (Ha & _). specialize (IH (S a) d').
      destruct (attempts c endpoint remaining (S a) d') as [evs' r'].
      simpl in *. intros Hr. destruct (IH Hr) as (k & Hk & Hres & Hwf & Hfail & Hqk).
      exists (S k). replace (a + S k)%nat with (S (a + k)) by lia.
      repeat split; auto; try lia.
      * intros i Hi. destruct i as [|i]; [rewrite Nat.add_0_r; exact Ha|].
        replace (a + S i)%nat with (S (a + i)) by lia. apply Hfail. lia.
      * rewrite queries_app, Hq, Hqk. reflexivity.
Qed.

(** X2: a response returned by [execute_query] is the endpoint's answer to
    the last request sent, unchanged; it is well-formed, every earlier
    request failed with a [SPARQLWrapperException], and no more than
    [max_retries] requests were sent. *)
Theorem execute_query_returns_answer (r : pyval) :
  let run := execute_query c endpoint in
  run.2 = Ok (Some r) ->
  exists k, (Z.of_nat k < max_retries c)%Z /\
    endpoint k = Converted r /\ well_formed r = true /\
    (forall i, (i < k)%nat -> endpoint i = Raises SPARQLWrapperException) /\
    queries run.1 = S k.
Proof.
  intros run Hr. subst run. unfold execute_query in *.
  destruct (attempts_return r _ _ _ Hr) as (k & Hk & Hres & Hwf & Hfail & Hq).
  exists k. simpl in *. repeat split; auto. lia.
Qed.

Lemma sleeps_succeed_head (d : number) (k : nat) :
  sleeps_succeed d (S k) = true ->
  time_sleep d = Ok tt /\ sleeps_succeed (times2 d) k = true.
Proof. simpl. destruct (time_sleep d) as [[]|]; [auto | discriminate]. Qed.

(** The loop when every wait it may come to can be slept. *)
Lemma attempts_no_escape :
  forall (remaining a : nat) (d : number),
    Z.of_nat (a + remaining) = max_retries c \/ remaining = 0%nat ->
    sleeps_succeed d (remaining - 1) = true ->
    exists r, (attempts c endpoint remaining a d).2 = Ok r.
Proof.
  induction remaining as [|remaining IH]; intros a d Hinv Hsl; simpl.
  - eexists; reflexivity.
  - destruct Hinv as [Hinv|]; [|lia].
    destruct (attempt_once c (endpoint a) a d) as [evs p] eqn:Hp.
    apply attempt_once_inv in Hp as [Hq Hp].
    destruct p as [r | d' | e]; simpl.
    + eexists; reflexivity.
    + destruct Hp as (_ & [(Ha & Hd & -> & He) | (Ha & -> & He)]).
      * destruct remaining as [|remaining]; [lia|].
        replace (S (S remaining) - 1)%nat with (S remaining) in Hsl by lia.
        apply sleeps_succeed_head in Hsl as [_ Hsl].
        destruct (IH (S a) (times2 d)) as (r & Hr); [left; lia | |].
        { replace (S remaining - 1)%nat with remaining by lia. exact Hsl. }
        destruct (attempts c endpoint (S remaining) (S a) (times2 d)) as [evs' r'].
        simpl in *. eauto.
      * assert (remaining = 0%nat) as -> by lia. simpl. eauto.
    + destruct Hp as (_ & Ha & Hd & _).
      destruct remaining as [|remaining]; [lia|].
      replace (S (S remaining) - 1)%nat with (S remaining) in Hsl by lia.
      apply sleeps_succeed_head in Hsl as [Hd' _]. congruence.
Qed.

(** X3: when the delays of the schedule are delays [time.sleep] takes, no
    exception leaves [execute_query], whatever the endpoint answers or
    raises: the result is a response or [None]. *)
Theorem execute_query_never_raises :
  sleeps_succeed (initial_delay c) (Z.to_nat (max_retries c) - 1) = true ->
  exists r, (execute_query c endpoint).2 = Ok r.
Proof.
  intros Hsl. unfold execute_query. apply attempts_no_escape; auto.
  destruct (Z.le_gt_cases 0 (max_retries c)); [left; simpl; lia | right; lia].
Qed.

(** The loop entered at attempt [a] with [k] transient failures ahead of an
    exception of another class. *)
Lemma attempts_reach_error (e : exn) (k : nat) :
  e <> SPARQLWrapperException ->
  forall (remaining a : nat) (d : number),
    (forall i, (i < k)%nat ->
               endpoint (a + i)%nat = Raises SPARQLWrapperException) ->
    endpoint (a + k)%nat = Raises e ->
    (Z.of_nat (a + k) < max_retries c)%Z ->
    sleeps_succeed d k = true ->
    (k < remaining)%nat ->
    let run := attempts c endpoint remaining a d in
    run.2 = Ok None /\ queries run.1 = S k.
Proof.
  intros He.
  induction k as [|k IH]; intros remaining a d Hfail Hres Hmax Hsl Hrem run;
    subst run; (destruct remaining as [|remaining]; [lia|]); simpl.
  - rewrite Nat.add_0_r in Hres. rewrite Hres.
    unfold attempt_once, on_exception. destruct e; try congruence;
      split; reflexivity.
  - specialize (Hfail 0%nat ltac:(lia)) as H0. rewrite Nat.add_0_r in H0.
    rewrite H0. apply sleeps_succeed_head in Hsl as [Hd Hsl].
    destruct (attempt_once_transient c a d ltac:(lia) Hd) as (evs & -> & Hq).
    destruct (IH remaining (S a) (times2 d)) as [Hr Hqs].
    + intros i Hi. replace (S a + i)%nat with (a + S i)%nat by lia.
      apply Hfail. lia.
    + replace (S a + k)%nat with (a + S k)%nat by lia. exact Hres.
    + replace (S a + k)%nat with (a + S k)%nat by lia. exact Hmax.
    + exact Hsl.
    + lia.
    + destruct (attempts c endpoint remaining (S a) (times2 d)) as [evs' r].
      simpl in Hr, Hqs |- *. rewrite queries_app, Hq, Hqs. auto.
Qed.

(** X4: an exception of the request that is not a [SPARQLWrapperException]
    (a timeout, a response that is not JSON) is not retried: the run ends
    with [None] and the failed request is the last one sent. *)
Theorem unexpected_error_not_retried (k : nat) (e : exn) :
  e <> SPARQLWrapperException ->
  (Z.of_nat k < max_retries c)%Z ->
  (forall i, (i < k)%nat -> endpoint i = Raises SPARQLWrapperException) ->
  sleeps_succeed (initial_delay c) k = true ->
  endpoint k = Raises e ->
  let run := execute_query c endpoint in
  run.2 = Ok None /\ queries run.1 = S k.
Proof.
  intros He Hk Hfail Hsl Hres. unfold execute_query.
  apply (attempts_reach_error e k He); simpl; auto. lia.
Qed.

End RetryTrace.

Section RetryTraceExamples.
Import SparqlClient.

Lemma execute_query_returns_answer_witness :
  let c := mk_client "https://ld.admin.ch/query" 3 (NInt 2) in
  let endpoint := fun k : nat =>
    match k with
    | O => Raises SPARQLWrapperException
    | _ => Converted (response (PList []))
    end in
  exists k, (Z.of_nat k < max_retries c)%Z /\
    endpoint k = Converted (response (PList [])) /\
    well_formed (response (PList [])) = true /\
    (forall i, (i < k)%nat -> endpoint i = Raises SPARQLWrapperException) /\
    queries (execute_query c endpoint).1 = S k.
Proof.
  apply (execute_query_returns_answer
           (mk_client "https://ld.admin.ch/query" 3 (NInt 2))
           (fun k : nat =>
              match k with
              | O => Raises SPARQLWrapperException
              | _ => Converted (response (PList []))
              end)
           (response (PList []))).
  vm_compute. reflexivity.
Defined.

Lemma execute_query_never_raises_witness :
  exists r,
    (execute_query (mk_client "https://ld.admin.ch/query" 3 (NInt 2))
                   (fun _ => Raises SPARQLWrapperException)).2 = Ok r.
Proof.
  apply (execute_query_never_raises
           (mk_client "https://ld.admin.ch/query" 3 (NInt 2))
           (fun _ => Raises SPARQLWrapperException)).
  vm_compute. reflexivity.
Defined.

Lemma unexpected_error_not_retried_witness :
  let c := mk_client "https://ld.admin.ch/query" 3 (NInt 2) in
  let endpoint := fun k : nat =>
    match k with
    | O => Raises SPARQLWrapperException
    | _ => Raises OSError
    end in
  (execute_query c endpoint).2 = Ok None /\
  queries (execute_query c endpoint).1 = 2%nat.
Proof.
  apply (unexpected_error_not_retried
           (mk_client "https://ld.admin.ch/query" 3 (NInt 2))
           (fun k : nat =>
              match k with
              | O => Raises SPARQLWrapperException
              | _ => Raises OSError
              end)
           1%nat OSError).
  - discriminate.
  - simpl. lia.
  - intros i Hi. destruct i; [reflexivity | lia].
  - reflexivity.
  - reflexivity.
Defined.

Lemma backoff_in_general_witness :
  let c := mk_client "https://ld.admin.ch/query" 5 (NInt 3) in
  let run := execute_query c (fun _ => Raises SPARQLWrapperException) in
  run.2 = Ok None /\
  queries run.1 = 5%nat /\
  sleeps run.1 = [NInt 3; NInt 6; NInt 12; NInt 24].
Proof.
  apply (backoff_in_general
           (mk_client "https://ld.admin.ch/query" 5 (NInt 3))
           (fun _ => Raises SPARQLWrapperException)).
  - intros k. reflexivity.
  - simpl. lia.
  - vm_compute. reflexivity.
Defined.

End RetryTraceExamples.

(* --------------------------------------------------------------------- *)
(** ** The mapper on readable bindings *)

Section MapperTotality.
Import DataProcessor.

(** The mapper raises nothing on a string. *)
Lemma map_predicate_string (u : string) :
  exists f, _map_predicate_to_field (PStr u) = Ok f.
Proof.
  unfold _map_predicate_to_field. simpl.
  destruct (contains "/dimension/" u); simpl; [eauto|].
  destruct (contains "example.com/" u); simpl; eauto.
Qed.

Lemma extract_binding_readable (data : gmap string pyval) (b : pyval) :
  readable_binding b = true ->
  exists data', extract_binding data b = Ok data'.
Proof.
  destruct b as [| | | | | | d]; try discriminate. simpl.
  intros H. apply andb_prop in H as [Hp Ho].
  unfold extract_binding. simpl.
  destruct (d !! "predicate") as [[| | | | | | dp]|]; try discriminate;
    destruct (d !! "object") as [[| | | | | | dobj]|]; try discriminate; simpl.
  - simpl in Hp. destruct (dp !! "value") as [[| | | | u | |]|];
      try discriminate; simpl.
    + destruct (negb (negb (u =? "")%string) || is_none (default PNone (dobj !! "value")));
        [eauto|].
      destruct (map_predicate_string u) as (f & ->). simpl.
      destruct f as [f|]; [destruct (String.eqb f "")|]; eauto.
    + eauto.
  - simpl in Hp. destruct (dp !! "value") as [[| | | | u | |]|];
      try discriminate; simpl.
    + rewrite lookup_empty. simpl. rewrite orb_true_r. eauto.
    + eauto.
  - rewrite lookup_empty. simpl. eauto.
  - rewrite lookup_empty. simpl. eauto.
Qed.

Lemma extract_loop_readable (bs : list pyval) :
  forallb readable_binding bs = true ->
  forall data : gmap string pyval, exists data', extract_loop data bs = Ok data'.
Proof.
  induction bs as [|b bs IH]; intros H data; simpl; [eauto|].
  simpl in H. apply andb_prop in H as [Hb Hbs].
  destruct (extract_binding_readable data b Hb) as (data1 & ->). simpl.
  apply IH, Hbs.
Qed.

(** X6: on a result set that has the response shape and whose bindings
    are mappings with readable "predicate" and "object" entries
    (every answer in the SPARQL JSON results format is one),
    [process_results] raises nothing: it returns a Record or [None]. *)
Theorem process_results_no_exception (results : pyval) (sid : string)
  (bs : list pyval) :
  bindings_of results = Some bs ->
  forallb readable_binding bs = true ->
  exists r, (process_results results sid).2 = Ok r.
Proof.
  intros Hshape Hbs. unfold process_results.
  rewrite (validate_results_shape results bs Hshape).
  destruct (truthy (PList bs)); [| eauto].
  rewrite (extract_data_shape results sid bs Hshape).
  destruct (extract_loop_readable bs Hbs {[ "station_id" := PStr sid ]})
    as (data & ->).
  destruct (negb (has_timestamp data)); [eauto|].
  destruct (Measurement_init data) as [m|]; [| eauto].
  destruct (has_measurements m); eauto.
Qed.

Lemma process_results_no_exception_witness :
  exists r,
    (process_results
       (response (PList [ binding (uri MEASUREMENT_TIME) (PStr "2024-01-15T10:30:00Z");
                          PDict {[ "predicate" := PDict ∅ ]};
                          PDict ∅ ]))
       "2044").2 = Ok r.
Proof.
  apply (process_results_no_exception
           (response (PList [ binding (uri MEASUREMENT_TIME)
                                      (PStr "2024-01-15T10:30:00Z");
                              PDict {[ "predicate" := PDict ∅ ]};
                              PDict ∅ ]))
           "2044"
           [ binding (uri MEASUREMENT_TIME) (PStr "2024-01-15T10:30:00Z");
             PDict {[ "predicate" := PDict ∅ ]};
             PDict ∅ ]).
  - vm_compute. reflexivity.
  - vm_compute. reflexivity.
Defined.

Lemma extract_binding_fields (data data' : gmap string pyval) (b : pyval) :
  extract_binding data b = Ok data' ->
  forall k, is_Some (data' !! k) -> is_Some (data !! k) \/ k ∈ model_fields.
Proof.
  intros H k Hk.
  apply extract_binding_cases in H as [-> | (u & v & f & _ & Hm & ->)]; [auto|].
  destruct (decide (k = f)) as [->|Hne].
  - right. apply mapped_field_range in Hm. unfold model_fields.
    cases_of_list Hm; in_list.
  - left. rewrite lookup_insert_ne in Hk by congruence. exact Hk.
Qed.

Lemma extract_loop_fields (bs : list pyval) :
  forall data data' : gmap string pyval,
    extract_loop data bs = Ok data' ->
    forall k, is_Some (data' !! k) -> is_Some (data !! k) \/ k ∈ model_fields.
Proof.
  induction bs as [|b bs IH]; intros data data' H k Hk; simpl in H.
  - injection H as <-. auto.
  - apply bind_Ok in H as (data1 & Hb & H).
    destruct (IH _ _ H k Hk) as [Hk1 | ?]; [| auto].
    exact (extract_binding_fields _ _ _ Hb k Hk1).
Qed.

(** X7: the fields [_extract_data] hands to the Record are fields of the
    Record and nothing else, and the station identifier among them is the
    one the caller gave: no binding, whatever its predicate URI, replaces
    it or adds a key of its own. *)
Theorem extracted_fields_are_record_fields (results : pyval) (sid : string)
  (data : gmap string pyval) :
  _extract_data results sid = Ok data ->
  data !! "station_id" = Some (PStr sid) /\
  forall k, is_Some (data !! k) -> k ∈ model_fields.
Proof.
  intros H. split; [exact (extract_data_station _ _ _ H)|].
  unfold _extract_data in H.
  apply bind_Ok in H as (section & _ & H).
  apply bind_Ok in H as (bs & _ & H).
  apply bind_Ok in H as (items & _ & H).
  intros k Hk. destruct (extract_loop_fields _ _ _ H k Hk) as [Hs | ?]; [| auto].
  destruct (decide (k = "station_id")) as [->|Hne]; [in_list|].
  rewrite lookup_singleton_ne in Hs by congruence. destruct Hs; discriminate.
Qed.

Lemma extracted_fields_are_record_fields_witness :
  ({[ "station_id" := PStr "2044" ]} : gmap string pyval) !! "station_id"
    = Some (PStr "2044") /\
  forall k, is_Some (({[ "station_id" := PStr "2044" ]} : gmap string pyval) !! k) ->
            k ∈ model_fields.
Proof.
  apply (extracted_fields_are_record_fields
           (response (PList [ binding (uri STATION) (PStr "9999") ]))
           "2044").
  vm_compute. reflexivity.
Defined.

End MapperTotality.

(* --------------------------------------------------------------------- *)
(** ** The store and its file *)

Section StoreInvariant.
Import CsvHandler.

Lemma pd_cell_Some (s t : string) : pd_cell s = Some t -> t = s.
Proof. unfold pd_cell. destruct (existsb _ _); congruence. Qed.

Lemma pd_cell_default (s : string) :
  pd_cell (default "" (pd_cell s)) = pd_cell s.
Proof.
  destruct (pd_cell s) as [t|] eqn:E; simpl; [| reflexivity].
  apply pd_cell_Some in E as Ht. subst t. exact E.
Qed.

Lemma line_key_pair (l : line) : line_key l = key_of_pair (pair_of l).
Proof. reflexivity. Qed.

Lemma frame_keys_file (body : list line) :
  frame_keys (mk_frame CSV_COLUMNS (map (read_row (length CSV_COLUMNS)) body)) =
  list_to_set (file_keys body).
Proof.
  unfold frame_keys, file_keys. f_equal.
  change (omap (row_key CSV_COLUMNS)
               (map (read_row (length CSV_COLUMNS)) body) = omap line_key body).
  induction body as [|l body IH]; [reflexivity|].
  transitivity
    (match line_key l with
     | Some k =>
         k :: omap (row_key CSV_COLUMNS)
                   (map (read_row (length CSV_COLUMNS)) body)
     | None =>
         omap (row_key CSV_COLUMNS) (map (read_row (length CSV_COLUMNS)) body)
     end); [reflexivity|].
  rewrite IH. reflexivity.
Qed.

(** The cells of the line a Record is written as. *)
Lemma dict_to_line_cells (a b c d e f g : option string) :
  dict_to_line CSV_COLUMNS
    (list_to_map [ ("timestamp", a); ("station_id", b); ("discharge", c);
                   ("water_level", d); ("danger_level", e);
                   ("water_temperature", f); ("is_liter", g) ]) =
  [ default "" a; default "" b; default "" c; default "" d; default "" e;
    default "" f; default "" g ].
Proof.
  destruct a, b, c, d, e, f, g; vm_compute; reflexivity.
Qed.

Lemma record_line_cells (m : Measurement) :
  exists c d e f g,
    record_line m = [ isoformat (timestamp m); station_id m; c; d; e; f; g ].
Proof.
  unfold record_line, to_csv_dict. rewrite dict_to_line_cells. simpl. eauto 10.
Qed.

Lemma record_line_length (m : Measurement) :
  length (record_line m) = length CSV_COLUMNS.
Proof. destruct (record_line_cells m) as (c & d & e & f & g & ->). reflexivity. Qed.

Lemma record_line_pair (m : Measurement) :
  pair_of (record_line m) =
  (pd_cell (isoformat (timestamp m)), pd_cell (station_id m)).
Proof. destruct (record_line_cells m) as (c & d & e & f & g & ->). reflexivity. Qed.

(** The key read off the line of a Record, when one is read, is the key of
    the Record. *)
Lemma record_line_key (m : Measurement) (k : string) :
  line_key (record_line m) = Some k -> k = unique_key m.
Proof.
  rewrite line_key_pair, record_line_pair. unfold key_of_pair, unique_key.
  destruct (pd_cell (isoformat (timestamp m))) as [t|] eqn:Ht; [| discriminate].
  destruct (pd_cell (station_id m)) as [s|] eqn:Hs; [| discriminate].
  apply pd_cell_Some in Ht, Hs. subst. congruence.
Qed.

Lemma select_new_sublist (index : gset string) (ms : list Measurement) :
  forall earlier, select_new index earlier ms `sublist_of` ms.
Proof.
  induction ms as [|m ms IH]; intros earlier; simpl; [constructor|].
  destruct (is_new index earlier m); simpl.
  - apply sublist_skip, IH.
  - apply sublist_cons, IH.
Qed.

(** The records staged have keys that are new to the index and differ from
    one another. *)
Lemma select_new_keys (index : gset string) (ms : list Measurement) :
  forall earlier,
    NoDup (unique_key <$> select_new index earlier ms) /\
    forall k, k ∈ (unique_key <$> select_new index earlier ms) ->
              (k ∉ index) /\ (k ∉ (unique_key <$> earlier)).
Proof.
  induction ms as [|m ms IH]; intros earlier; simpl.
  - split; [constructor|]. intros k Hk. apply elem_of_nil in Hk. destruct Hk.
  - destruct (IH (earlier ++ [m])) as [Hnd Hnew].
    assert (forall k, k ∈ (unique_key <$> select_new index (earlier ++ [m]) ms) ->
                      (k ∉ index) /\ (k ∉ (unique_key <$> earlier)) /\
                      k <> unique_key m) as Hnew'.
    { intros k Hk. destruct (Hnew k Hk) as [Hi He].
      rewrite fmap_app in He. split; [exact Hi|]. split.
      - intros Hin. apply He, elem_of_app. auto.
      - intros ->. apply He, elem_of_app. right. simpl. apply elem_of_cons. auto. }
    unfold is_new. destruct (bool_decide _) eqn:E; simpl.
    + apply bool_decide_eq_true in E as [Hi He]. split.
      * apply NoDup_cons. split; [| exact Hnd].
        intros Hin. apply Hnew' in Hin as (_ & _ & Hne). congruence.
      * intros k Hk. apply elem_of_cons in Hk as [-> | Hk]; [auto|].
        apply Hnew' in Hk as (? & ? & _). auto.
    + split; [exact Hnd|]. intros k Hk. apply Hnew' in Hk as (? & ? & _). auto.
Qed.

(** What a save returns and leaves, whether the write goes through or not. *)
Lemma save_measurements_step (ms : list Measurement) (w : bool) (h : handler) :
  let staged := select_new (_processed_keys h) [] ms in
  let new := if w then record_line <$> staged else [] in
  (save_measurements ms w h).1.2 = length new /\
  csv_file (save_measurements ms w h).2 =
    match new with
    | [] => csv_file h
    | _ => Some (default [] (csv_file h) ++ new)
    end /\
  _processed_keys (save_measurements ms w h).2 =
    _processed_keys h ∪ batch_keys ms.
Proof.
  intros staged new. subst staged new.
  split; [| split; [| apply save_measurements_keys]].
  - destruct w.
    + destruct (save_measurements_writes ms h) as (-> & _).
      rewrite length_fmap. reflexivity.
    + apply save_fails.
  - destruct w.
    + destruct (save_measurements_writes ms h) as (_ & -> & _).
      destruct (select_new _ _ _); reflexivity.
    + apply save_fails.
Qed.

(** X8: a save only ever appends.  Whatever the batch and whether or not
    the write goes through, the lines the file held stay where they were,
    unchanged; the lines added after them are as many as the count
    returned, they are the lines of records of the batch, in batch order,
    each record at most once, and each has the seven cells of the header. *)
Theorem save_appends_only (ms : list Measurement) (w : bool) (h : handler) :
  exists written : list Measurement,
    written `sublist_of` ms /\
    (save_measurements ms w h).1.2 = length written /\
    default [] (csv_file (save_measurements ms w h).2) =
      default [] (csv_file h) ++ (record_line <$> written) /\
    Forall (fun l => length l = length CSV_COLUMNS) (record_line <$> written).
Proof.
  destruct (save_measurements_step ms w h) as (Hn & Hf & _).
  exists (if w then select_new (_processed_keys h) [] ms else []).
  split; [| split; [| split]].
  - destruct w; [apply select_new_sublist | apply sublist_nil_l].
  - rewrite Hn. destruct w; [apply length_fmap | reflexivity].
  - rewrite Hf. destruct w; simpl; [| rewrite app_nil_r; reflexivity].
    destruct (select_new _ _ _); simpl; [rewrite app_nil_r|]; reflexivity.
  - apply Forall_fmap, Forall_forall. intros m _. apply record_line_length.
Qed.

Lemma keep_first_sublist (i j : nat) (rs : list (list (option string))) :
  forall seen, keep_first i j seen rs `sublist_of` rs.
Proof.
  induction rs as [|r rs IH]; intros seen; simpl; [constructor|].
  destruct (bool_decide _).
  - apply sublist_cons, IH.
  - apply sublist_skip, IH.
Qed.

(** The rows kept have pairs that were not seen before and differ from one
    another, and every pair met is seen or kept. *)
Lemma keep_first_pairs (i j : nat) (rs : list (list (option string))) :
  forall seen,
    NoDup (pair_at i j <$> keep_first i j seen rs) /\
    (forall p, p ∈ (pair_at i j <$> keep_first i j seen rs) -> p ∉ seen) /\
    (forall p, p ∈ (pair_at i j <$> rs) ->
               p ∈ seen \/ p ∈ (pair_at i j <$> keep_first i j seen rs)).
Proof.
  induction rs as [|r rs IH]; intros seen; simpl.
  - split; [constructor|]. split; intros p Hp; apply elem_of_nil in Hp; destruct Hp.
  - destruct (bool_decide (pair_at i j r ∈ seen)) eqn:E.
    + apply bool_decide_eq_true in E.
      destruct (IH seen) as (Hnd & Hnew & Hall).
      split; [exact Hnd|]. split; [exact Hnew|].
      intros p Hp. apply elem_of_cons in Hp as [-> | Hp]; auto.
    + apply bool_decide_eq_false in E.
      destruct (IH (pair_at i j r :: seen)) as (Hnd & Hnew & Hall).
      split; [| split].
      * simpl. apply NoDup_cons. split; [| exact Hnd].
        intros Hin. apply (Hnew _ Hin), elem_of_cons. auto.
      * intros p Hp. simpl in Hp. apply elem_of_cons in Hp as [-> | Hp]; [exact E|].
        intros Hin. apply (Hnew _ Hp), elem_of_cons. auto.
      * intros p Hp. apply elem_of_cons in Hp as [-> | Hp].
        { right. simpl. apply elem_of_cons. auto. }
        destruct (Hall p Hp) as [Hs | Hk].
        -- apply elem_of_cons in Hs as [-> | Hs]; [| auto].
           right. simpl. apply elem_of_cons. auto.
        -- right. simpl. apply elem_of_cons. auto.
Qed.

Lemma omap_sublist {A B : Type} (f : A -> option B) (l1 l2 : list A) :
  l1 `sublist_of` l2 -> omap f l1 `sublist_of` omap f l2.
Proof.
  induction 1 as [| x l1 l2 _ IH | x l1 l2 _ IH]; simpl.
  - constructor.
  - destruct (f x); [apply sublist_skip, IH | exact IH].
  - destruct (f x); [apply sublist_cons, IH | exact IH].
Qed.

Lemma read_row_length (n : nat) (l : line) : length (read_row n l) = n.
Proof. unfold read_row. rewrite length_map, length_seq. reflexivity. Qed.

(** A row read, written back and read again is the row read. *)
Lemma read_row_rewritten (n : nat) (l : line) :
  read_row n (map (default "") (read_row n l)) = read_row n l.
Proof.
  unfold read_row. apply map_ext_in. intros i Hi. apply in_seq in Hi.
  rewrite map_map.
  rewrite (nth_indep _ "" (default "" (pd_cell (nth 0 l ""))))
    by (rewrite length_map, length_seq; lia).
  rewrite (map_nth (fun i => default "" (pd_cell (nth i l ""))) (seq 0 n) 0%nat i).
  rewrite seq_nth by lia. simpl. apply pd_cell_default.
Qed.

(** What a pass leaves of a kept file when it does rewrite it. *)
Lemma file_keys_rewritten (rows : list (list (option string))) :
  Forall (fun row => exists l, row = read_row (length CSV_COLUMNS) l) rows ->
  file_keys (map (map (default "")) rows) = omap (row_key CSV_COLUMNS) rows.
Proof.
  induction 1 as [| row rows (l & ->) _ IH]; [reflexivity|].
  transitivity
    (match row_key CSV_COLUMNS
             (read_row (length CSV_COLUMNS)
                (map (default "") (read_row (length CSV_COLUMNS) l))) with
     | Some k => k :: file_keys (map (map (default "")) rows)
     | None => file_keys (map (map (default "")) rows)
     end); [reflexivity|].
  rewrite read_row_rewritten, IH. reflexivity.
Qed.

Lemma file_keys_rows (body : list line) :
  omap (row_key CSV_COLUMNS) (map (read_row (length CSV_COLUMNS)) body) =
  file_keys body.
Proof.
  induction body as [|l body IH]; [reflexivity|].
  transitivity
    (match line_key l with
     | Some k =>
         k :: omap (row_key CSV_COLUMNS)
                   (map (read_row (length CSV_COLUMNS)) body)
     | None =>
         omap (row_key CSV_COLUMNS) (map (read_row (length CSV_COLUMNS)) body)
     end); [reflexivity|].
  rewrite IH. reflexivity.
Qed.

(** A pass either leaves the store as it was or, when it could read and
    rewrite the file and dropped a row, leaves the rows kept. *)
Lemma remove_duplicates_kept (r w : bool) (keys : gset string)
  (body : list line) :
  Forall (fun l => length l = length CSV_COLUMNS) body ->
  let h := mk_handler (Some (CSV_COLUMNS :: body)) keys in
  let rows' :=
    keep_first 0 1 [] (map (read_row (length CSV_COLUMNS)) body) in
  ((remove_duplicates r w h).1.2 = O /\ (remove_duplicates r w h).2 = h /\
   (r = true -> w = true -> length rows' = length body)) \/
  (r = true /\ w = true /\
   (remove_duplicates r w h).1.2 = (length body - length rows')%nat /\
   (0 < length body - length rows')%nat /\
   (remove_duplicates r w h).2 =
     mk_handler (Some (CSV_COLUMNS :: map (map (default "")) rows'))
                (frame_keys (mk_frame CSV_COLUMNS rows'))).
Proof.
  intros Hkept h rows'.
  pose proof (sublist_length _ _
    (keep_first_sublist 0 1 (map (read_row (length CSV_COLUMNS)) body) []))
    as Hlen.
  rewrite length_map in Hlen. fold rows' in Hlen.
  destruct r; [| left; repeat split; discriminate].
  unfold remove_duplicates. cbn [csv_file h]. rewrite (read_csv_kept body Hkept).
  unfold drop_duplicates. cbn [columns rows].
  change (col_index "timestamp" CSV_COLUMNS) with (Some 0%nat).
  change (col_index "station_id" CSV_COLUMNS) with (Some 1%nat).
  cbn iota. cbn [rows]. fold rows'. rewrite length_map.
  destruct (0 <? length body - length rows')%nat eqn:Hpos.
  - apply Nat.ltb_lt in Hpos. destruct w.
    + right. repeat split; auto.
    + left. repeat split; auto. discriminate.
  - apply Nat.ltb_ge in Hpos. left. simpl. repeat split; lia.
Qed.

Lemma in_step_init (r : bool) (logs : list log_record) (h0 : handler) :
  init true r None = Ok (logs, h0) -> in_step h0.
Proof.
  destruct r; intros [= <- <-]; exists []; (split; [split; [reflexivity | constructor]|]);
    (split; [constructor|]); set_solver.
Qed.

Lemma loaded_keys (body : list line) :
  Forall (fun l => length l = length CSV_COLUMNS) body ->
  (_load_processed_keys true (Some (CSV_COLUMNS :: body))).2 =
  list_to_set (file_keys body).
Proof.
  intros Hkept. unfold _load_processed_keys.
  rewrite (read_csv_kept body Hkept). apply frame_keys_file.
Qed.

Lemma record_keys_sublist (ms : list Measurement) :
  file_keys (record_line <$> ms) `sublist_of` (unique_key <$> ms).
Proof.
  induction ms as [|m ms IH]; [constructor|].
  unfold file_keys in *. simpl.
  destruct (line_key (record_line m)) as [k|] eqn:E.
  - apply record_line_key in E as ->. apply sublist_skip, IH.
  - apply sublist_cons, IH.
Qed.

Lemma in_step_save (ms : list Measurement) (w : bool) (h : handler) :
  in_step h -> in_step (save_measurements ms w h).2.
Proof.
  intros (body & [Hf Hlen] & Hnd & Hcov).
  rewrite Hf, (loaded_keys _ Hlen) in Hcov.
  destruct (save_measurements_step ms w h) as (_ & Hfile & Hkeys).
  destruct (select_new_keys (_processed_keys h) ms []) as [Hsnd Hsnew].
  pose proof (select_new_sublist (_processed_keys h) ms []) as Hsub.
  set (staged := select_new (_processed_keys h) [] ms) in *.
  cbv zeta in Hfile.
  destruct (if w then record_line <$> staged else []) as [|l new'] eqn:Enew.
  - exists body. rewrite Hfile, Hf, (loaded_keys _ Hlen), Hkeys.
    split; [split; [reflexivity | exact Hlen]|]. split; [exact Hnd|]. set_solver.
  - destruct w; [| discriminate]. rewrite <- Enew in Hfile. clear Enew l new'.
    exists (body ++ (record_line <$> staged)).
    pose proof (record_keys_sublist staged) as Hks.
    assert (forall k, k ∈ file_keys (record_line <$> staged) ->
                      k ∈ (unique_key <$> staged)) as Hin
      by (intros k Hk; eapply elem_of_sublist; eauto).
    rewrite Hf in Hfile.
    change (default [] (Some (CSV_COLUMNS :: body)) ++ (record_line <$> staged))
      with (CSV_COLUMNS :: (body ++ (record_line <$> staged))) in Hfile.
    assert (Forall (fun l => length l = length CSV_COLUMNS)
                   (body ++ (record_line <$> staged))) as Hlen'.
    { apply Forall_app. split; [exact Hlen|].
      apply Forall_fmap, Forall_forall. intros m _. apply record_line_length. }
    rewrite Hfile. split; [split; [reflexivity | exact Hlen']|].
    rewrite (loaded_keys _ Hlen'), Hkeys. unfold file_keys in *.
    rewrite omap_app. split.
    + apply NoDup_app. split; [exact Hnd|]. split.
      * intros k Hk Hk'. apply Hin, Hsnew in Hk' as [Hk' _].
        apply Hk', Hcov, elem_of_list_to_set, Hk.
      * eapply sublist_NoDup; eauto.
    + intros k Hk. apply elem_of_list_to_set, elem_of_app in Hk as [Hk | Hk].
      * apply elem_of_union. left. apply Hcov, elem_of_list_to_set, Hk.
      * apply elem_of_union. right. unfold batch_keys.
        apply elem_of_list_to_set. apply Hin in Hk.
        eapply elem_of_sublist; [exact Hk|]. apply fmap_sublist, Hsub.
Qed.

Lemma in_step_dedup (r w : bool) (h : handler) :
  in_step h -> in_step (remove_duplicates r w h).2.
Proof.
  intros Hstep. pose proof Hstep as (body & [Hf Hlen] & Hnd & Hcov).
  destruct h as [f keys]. simpl in Hf. subst f.
  destruct (remove_duplicates_kept r w keys body Hlen)
    as [(_ & -> & _) | (_ & _ & _ & _ & ->)]; [exact Hstep|].
  set (rows' := keep_first 0 1 [] (map (read_row (length CSV_COLUMNS)) body)).
  assert (rows' `sublist_of` map (read_row (length CSV_COLUMNS)) body) as Hsub
    by apply keep_first_sublist.
  assert (Forall (fun row => exists l, row = read_row (length CSV_COLUMNS) l) rows')
    as Himg.
  { apply Forall_forall. intros row Hin.
    apply (elem_of_sublist _ _ _ Hin) in Hsub.
    apply list_elem_of_In, in_map_iff in Hsub as (l & <- & _). eauto. }
  assert (Forall (fun l => length l = length CSV_COLUMNS)
                 (map (map (default "")) rows')) as Hlen'.
  { apply Forall_forall. intros l Hl.
    apply list_elem_of_In, in_map_iff in Hl as (row & <- & Hrow).
    apply list_elem_of_In in Hrow.
    rewrite Forall_forall in Himg. destruct (Himg row Hrow) as (l & ->).
    rewrite length_map. apply read_row_length. }
  exists (map (map (default "")) rows').
  split; [split; [reflexivity | exact Hlen']|].
  cbn [csv_file _processed_keys].
  rewrite (loaded_keys _ Hlen'), file_keys_rewritten by exact Himg.
  split.
  - apply (sublist_NoDup _ (omap (row_key CSV_COLUMNS)
                                 (map (read_row (length CSV_COLUMNS)) body))).
    + rewrite file_keys_rows. exact Hnd.
    + apply omap_sublist, Hsub.
  - reflexivity.
Qed.

Lemma in_step_after (calls : list call) :
  forall h, in_step h -> in_step (after calls h).
Proof.
  induction calls as [|c calls IH]; intros h Hh; [exact Hh|].
  simpl. apply IH. destruct c as [ms w | r w]; simpl.
  - pose proof (in_step_save ms w h Hh) as H.
    destruct (save_measurements ms w h) as [[logs n] h']. exact H.
  - pose proof (in_step_dedup r w h Hh) as H.
    destruct (remove_duplicates r w h) as [[logs n] h']. exact H.
Qed.

(** X9: a store built on a path that did not exist stays in step with
    its file through any saves and de-duplication passes, failed ones
    included: the file keeps the header and lines of seven cells, no key
    stands on two lines, and every key a new store would load from the file
    is in the index, so that no save appends a line whose key the file
    already holds. *)
Theorem store_stays_in_step (r : bool) (logs : list log_record) (h0 : handler)
  (calls : list call) :
  init true r None = Ok (logs, h0) ->
  in_step (after calls h0).
Proof. intros H. eapply in_step_after, in_step_init, H. Qed.

Lemma sublist_same_length {A : Type} (l1 l2 : list A) :
  l1 `sublist_of` l2 -> length l1 = length l2 -> l1 = l2.
Proof.
  induction 1 as [| x l1 l2 _ IH | x l1 l2 Hs _]; simpl; intros Hlen.
  - reflexivity.
  - f_equal. apply IH. lia.
  - apply sublist_length in Hs. lia.
Qed.

Lemma pairs_rows (body : list line) :
  pair_at 0 1 <$> map (read_row (length CSV_COLUMNS)) body = pair_of <$> body.
Proof.
  induction body as [|l body IH]; [reflexivity|].
  change (pair_of l :: (pair_at 0 1 <$> map (read_row (length CSV_COLUMNS)) body) =
          pair_of l :: (pair_of <$> body)).
  rewrite IH. reflexivity.
Qed.

Lemma pairs_rewritten (rows : list (list (option string))) :
  Forall (fun row => exists l, row = read_row (length CSV_COLUMNS) l) rows ->
  pair_of <$> map (map (default "")) rows = pair_at 0 1 <$> rows.
Proof.
  induction 1 as [| row rows (l & ->) _ IH]; [reflexivity|].
  change (pair_at 0 1 (read_row (length CSV_COLUMNS)
                         (map (default "") (read_row (length CSV_COLUMNS) l)))
          :: (pair_of <$> map (map (default "")) rows) =
          pair_at 0 1 (read_row (length CSV_COLUMNS) l) :: (pair_at 0 1 <$> rows)).
  rewrite read_row_rewritten, IH. reflexivity.
Qed.

(** What a pass that can read and rewrite leaves of a kept file. *)
Lemma remove_duplicates_leaves (keys : gset string) (body : list line) :
  Forall (fun l => length l = length CSV_COLUMNS) body ->
  let h := mk_handler (Some (CSV_COLUMNS :: body)) keys in
  exists body',
    csv_file (remove_duplicates true true h).2 = Some (CSV_COLUMNS :: body') /\
    NoDup (pair_of <$> body') /\
    (forall p, p ∈ (pair_of <$> body) <-> p ∈ (pair_of <$> body')) /\
    length body = ((remove_duplicates true true h).1.2 + length body')%nat /\
    Forall (fun l => length l = length CSV_COLUMNS) body'.
Proof.
  intros Hseven h. subst h.
  pose proof (remove_duplicates_kept true true keys body Hseven) as Hkept.
  cbv zeta in Hkept.
  set (h := mk_handler (Some (CSV_COLUMNS :: body)) keys) in *.
  set (rows := map (read_row (length CSV_COLUMNS)) body) in *.
  set (rows' := keep_first 0 1 [] rows) in *.
  pose proof (keep_first_sublist 0 1 rows []) as Hsub. fold rows' in Hsub.
  destruct (keep_first_pairs 0 1 rows []) as (Hnd & _ & Hall). fold rows' in Hnd, Hall.
  assert (forall p, p ∈ (pair_of <$> body) <-> p ∈ (pair_at 0 1 <$> rows')) as Hiff.
  { intros p. rewrite <- pairs_rows. fold rows. split.
    - intros Hp. destruct (Hall p Hp) as [Hn | Hk]; [| exact Hk].
      apply elem_of_nil in Hn. destruct Hn.
    - intros Hp. eapply elem_of_sublist; [exact Hp|]. apply fmap_sublist, Hsub. }
  assert (Forall (fun row => exists l, row = read_row (length CSV_COLUMNS) l) rows')
    as Himg.
  { apply Forall_forall. intros row Hin.
    apply (elem_of_sublist _ _ _ Hin) in Hsub.
    apply list_elem_of_In, in_map_iff in Hsub as (l & <- & _). eauto. }
  destruct Hkept as [(Hn & Hh & Hlen) | (_ & _ & Hn & Hpos & Hh)].
  - specialize (Hlen eq_refl eq_refl).
    assert (rows' = rows) as Hsame.
    { apply sublist_same_length; [exact Hsub|].
      subst rows. rewrite length_map. exact Hlen. }
    exists body. rewrite Hh, Hn. split; [reflexivity|].
    rewrite Hsame in Hnd, Hiff. subst rows. rewrite pairs_rows in Hnd, Hiff.
    repeat split; auto; apply Hiff.
  - exists (map (map (default "")) rows'). rewrite Hh, Hn.
    rewrite (pairs_rewritten rows' Himg). split; [reflexivity|].
    split; [exact Hnd|]. split; [exact Hiff|]. split.
    + rewrite length_map. lia.
    + apply Forall_forall. intros l Hl.
      apply list_elem_of_In, in_map_iff in Hl as (row & <- & Hrow).
      apply list_elem_of_In in Hrow.
      rewrite Forall_forall in Himg. destruct (Himg row Hrow) as (l & ->).
      rewrite length_map. apply read_row_length.
Qed.

(** A pass over a file whose lines have pairwise different pairs returns 0
    and leaves the store as it is. *)
Lemma remove_duplicates_nodup (r w : bool) (keys : gset string)
  (body : list line) :
  Forall (fun l => length l = length CSV_COLUMNS) body ->
  NoDup (pair_of <$> body) ->
  let h := mk_handler (Some (CSV_COLUMNS :: body)) keys in
  (remove_duplicates r w h).1.2 = O /\ (remove_duplicates r w h).2 = h.
Proof.
  intros Hseven Hnd h.
  assert ((remove_duplicates r w h).1.2 = O) as Hz.
  { destruct (remove_duplicates_kept r w keys body Hseven)
      as [(Hn & _) | (_ & _ & Hn & Hpos & _)]; [exact Hn|].
    exfalso. rewrite keep_first_nodup in Hpos.
    - rewrite length_map in Hpos. lia.
    - rewrite pairs_rows. exact Hnd.
    - intros p Hp. apply elem_of_nil in Hp. destruct Hp. }
  split; [exact Hz | apply remove_duplicates_zero, Hz].
Qed.

(** X12: what a de-duplication pass that can read and rewrite leaves of a
    file the store keeps: no two lines with the same (timestamp, station)
    pair, every pair the file held still on some line, lines of seven
    cells, and as many lines fewer as the count returned. *)
Theorem remove_duplicates_keeps_every_pair (keys : gset string)
  (body : list line) :
  Forall (fun l => length l = length CSV_COLUMNS) body ->
  let h := mk_handler (Some (CSV_COLUMNS :: body)) keys in
  exists body',
    csv_file (remove_duplicates true true h).2 = Some (CSV_COLUMNS :: body') /\
    NoDup (pair_of <$> body') /\
    (forall p, p ∈ (pair_of <$> body) <-> p ∈ (pair_of <$> body')) /\
    length body = ((remove_duplicates true true h).1.2 + length body')%nat /\
    Forall (fun l => length l = length CSV_COLUMNS) body'.
Proof.
  intros Hlen h.
  destruct (remove_duplicates_leaves keys body Hlen)
    as (body' & Hf & Hnd & Hiff & Hn & Hlen').
  exists body'. repeat split; auto; apply Hiff.
Qed.

(** X13: de-duplication is idempotent.  After a pass that could read and
    rewrite a file the store keeps, a second pass, whatever the file
    system lets it do, returns 0 and leaves file and index as they are. *)
Theorem remove_duplicates_idempotent (keys : gset string) (body : list line)
  (r w : bool) :
  Forall (fun l => length l = length CSV_COLUMNS) body ->
  let h1 :=
    (remove_duplicates true true
       (mk_handler (Some (CSV_COLUMNS :: body)) keys)).2 in
  (remove_duplicates r w h1).1.2 = O /\ (remove_duplicates r w h1).2 = h1.
Proof.
  intros Hseven h1.
  destruct (remove_duplicates_leaves keys body Hseven)
    as (body' & Hf & Hnd & _ & _ & Hlen').
  fold h1 in Hf. destruct h1 as [f keys']. simpl in Hf. subst f.
  apply remove_duplicates_nodup; assumption.
Qed.

Lemma length_append (a b : string) :
  String.length (a +:+ b) = (String.length a + String.length b)%nat.
Proof. induction a as [|c a IH]; simpl; [reflexivity | rewrite IH; reflexivity]. Qed.

Lemma length_zeros (n : nat) : String.length (zeros n) = n.
Proof. induction n as [|n IH]; simpl; [reflexivity|]. unfold zeros in IH. rewrite IH. reflexivity. Qed.

Lemma length_pad (width : nat) (n : N) : (width <= String.length (pad width n))%nat.
Proof. unfold pad. rewrite length_append, length_zeros. lia. Qed.

Lemma length_isoformat (d : datetime) : (19 <= String.length (isoformat d))%nat.
Proof.
  unfold isoformat. rewrite !length_append.
  pose proof (length_pad 4 (year d)). pose proof (length_pad 2 (month d)).
  pose proof (length_pad 2 (day d)). pose proof (length_pad 2 (hour d)).
  pose proof (length_pad 2 (minute d)). pose proof (length_pad 2 (second d)).
  simpl String.length. lia.
Qed.

(** [pandas] reads a text of more than eight characters as it is. *)
Lemma pd_cell_long (s : string) :
  (8 < String.length s)%nat -> pd_cell s = Some s.
Proof.
  intros Hlen. unfold pd_cell.
  destruct (existsb (String.eqb s) na_values) eqn:E; [| reflexivity].
  apply existsb_exists in E as (x & Hx & Heq). apply String.eqb_eq in Heq. subst x.
  exfalso. unfold na_values in Hx. simpl in Hx.
  repeat (destruct Hx as [<- | Hx]; [simpl in Hlen; lia|]). exact Hx.
Qed.

Lemma isoformat_plain (d : datetime) : pd_cell (isoformat d) = Some (isoformat d).
Proof. apply pd_cell_long. pose proof (length_isoformat d). lia. Qed.

Lemma plain_station_cell (m : Measurement) :
  plain_station m = true -> pd_cell (station_id m) = Some (station_id m).
Proof.
  unfold plain_station, pd_cell. intros H. apply negb_true_iff in H.
  rewrite H. reflexivity.
Qed.

(** The line of a Record with a plain station identifier carries the key of
    the Record. *)
Lemma plain_record_key (m : Measurement) :
  plain_station m = true -> line_key (record_line m) = Some (unique_key m).
Proof.
  intros H. rewrite line_key_pair, record_line_pair, isoformat_plain.
  rewrite (plain_station_cell m H). reflexivity.
Qed.

Lemma file_keys_cons (l : line) (body : list line) :
  file_keys (l :: body) =
  match line_key l with
  | Some k => k :: file_keys body
  | None => file_keys body
  end.
Proof. reflexivity. Qed.

Lemma plain_records_keys (ms : list Measurement) :
  forallb plain_station ms = true ->
  file_keys (record_line <$> ms) = unique_key <$> ms /\
  Forall (fun l => is_Some (line_key l)) (record_line <$> ms).
Proof.
  induction ms as [|m ms IH]; intros H; [split; [reflexivity | constructor]|].
  simpl in H. apply andb_prop in H as [Hm Hms]. destruct (IH Hms) as [IHk IHs].
  rewrite !fmap_cons, file_keys_cons, (plain_record_key m Hm), IHk.
  split; [reflexivity|]. constructor; [| exact IHs].
  rewrite (plain_record_key m Hm). eauto.
Qed.

(** Lines that all have a key and whose keys differ have different
    pairs. *)
Lemma keyed_pairs_nodup (body : list line) :
  Forall (fun l => is_Some (line_key l)) body ->
  NoDup (file_keys body) -> NoDup (pair_of <$> body).
Proof.
  induction 1 as [| l body [k Hk] Hall IH]; intros Hnd; [constructor|].
  rewrite file_keys_cons, Hk in Hnd.
  apply NoDup_cons in Hnd as [Hnew Hnd]. rewrite fmap_cons. apply NoDup_cons.
  split; [| exact (IH Hnd)].
  intros Hin. apply list_elem_of_fmap in Hin as (l' & Heq & Hl').
  apply Hnew. unfold file_keys. apply list_elem_of_omap.
  exists l'. split; [exact Hl'|].
  rewrite line_key_pair, <- Heq, <- line_key_pair. exact Hk.
Qed.

Lemma sublist_forallb {A : Type} (p : A -> bool) (l1 l2 : list A) :
  l1 `sublist_of` l2 -> forallb p l2 = true -> forallb p l1 = true.
Proof.
  induction 1 as [| x l1 l2 _ IH | x l1 l2 _ IH]; simpl; intros H.
  - reflexivity.
  - apply andb_prop in H as [-> H]. simpl. auto.
  - apply andb_prop in H as [_ H]. auto.
Qed.

(** The keys a save adds to the index beyond those it held are the keys of
    the records it stages. *)
Lemma select_new_covers (index : gset string) (ms : list Measurement) :
  forall earlier,
    index ∪ batch_keys earlier ∪ batch_keys ms =
    index ∪ batch_keys earlier ∪
      list_to_set (unique_key <$> select_new index earlier ms).
Proof.
  induction ms as [|m ms IH]; intros earlier; [reflexivity|].
  specialize (IH (earlier ++ [m])). unfold batch_keys in *.
  rewrite fmap_app, list_to_set_app_L in IH.
  change (select_new index earlier (m :: ms))
    with ((if is_new index earlier m then [m] else [])
          ++ select_new index (earlier ++ [m]) ms).
  rewrite fmap_cons, list_to_set_cons, fmap_app, list_to_set_app_L.
  set (A := list_to_set (unique_key <$> ms) : gset string) in *.
  set (B := list_to_set (unique_key <$> select_new index (earlier ++ [m]) ms)
            : gset string) in *.
  set (Ee := list_to_set (unique_key <$> earlier) : gset string) in *.
  change (list_to_set (unique_key <$> [m]) : gset string)
    with ({[ unique_key m ]} ∪ ∅ : gset string) in IH.
  apply leibniz_equiv_iff in IH. apply leibniz_equiv.
  assert (unique_key m ∈ (unique_key <$> earlier) -> unique_key m ∈ Ee) as HEe
    by (intros ?; apply elem_of_list_to_set; assumption).
  clearbody A B Ee.
  unfold is_new. destruct (bool_decide _) eqn:E.
  - change (list_to_set (unique_key <$> [m]) : gset string)
      with ({[ unique_key m ]} ∪ ∅ : gset string).
    clear E HEe. set_solver.
  - apply bool_decide_eq_false in E.
    assert (unique_key m ∈ index ∪ Ee) as Hin.
    { destruct (decide (unique_key m ∈ index)) as [|Hn1];
        [apply elem_of_union; auto|].
      destruct (decide (unique_key m ∈ (unique_key <$> earlier))) as [|Hn2].
      - apply elem_of_union. auto.
      - exfalso. apply E. auto. }
    change (list_to_set (unique_key <$> []) : gset string) with (∅ : gset string).
    clear E HEe. set_solver.
Qed.

Lemma matches_file_init (r : bool) (logs : list log_record) (h0 : handler) :
  init true r None = Ok (logs, h0) -> matches_file h0.
Proof.
  destruct r; intros [= <- <-]; exists [];
    (split; [split; [reflexivity | constructor]|]);
    (split; [constructor|]); (split; [constructor | reflexivity]).
Qed.

(** A save of plain records keeps lines keyed and keys apart; when the
    write goes through the index stays the set of the keys of the file. *)
Lemma keyed_save (ms : list Measurement) (w : bool) (h : handler)
  (body : list line) :
  forallb plain_station ms = true ->
  kept_file (csv_file h) body ->
  NoDup (file_keys body) ->
  Forall (fun l => is_Some (line_key l)) body ->
  list_to_set (file_keys body) ⊆ _processed_keys h ->
  exists body',
    kept_file (csv_file (save_measurements ms w h).2) body' /\
    NoDup (file_keys body') /\
    Forall (fun l => is_Some (line_key l)) body' /\
    list_to_set (file_keys body') ⊆ _processed_keys (save_measurements ms w h).2 /\
    (w = true -> _processed_keys h = list_to_set (file_keys body) ->
     _processed_keys (save_measurements ms w h).2 = list_to_set (file_keys body')).
Proof.
  intros Hplain [Hf Hlen] Hnd Hkeyed Hcov.
  destruct (save_measurements_step ms w h) as (_ & Hfile & Hkeys).
  destruct (select_new_keys (_processed_keys h) ms []) as [Hsnd Hsnew].
  pose proof (select_new_sublist (_processed_keys h) ms []) as Hsub.
  pose proof (select_new_covers (_processed_keys h) ms []) as Hcovers.
  unfold batch_keys in Hcovers at 1 3. simpl in Hcovers.
  rewrite !(right_id_L ∅ (∪)) in Hcovers.
  set (staged := select_new (_processed_keys h) [] ms) in *.
  destruct (plain_records_keys staged (sublist_forallb _ _ _ Hsub Hplain))
    as [Hskeys Hskeyed].
  cbv zeta in Hfile.
  destruct (if w then record_line <$> staged else []) as [|l new'] eqn:Enew.
  - exists body. rewrite Hfile, Hkeys.
    split; [split; [exact Hf | exact Hlen]|]. split; [exact Hnd|].
    split; [exact Hkeyed|]. split; [set_solver|].
    intros -> Hidx. rewrite Hcovers, Hidx.
    destruct staged; [| discriminate]. simpl.
    rewrite (right_id_L ∅ (∪)). reflexivity.
  - destruct w; [| discriminate]. rewrite <- Enew in Hfile. clear Enew l new'.
    exists (body ++ (record_line <$> staged)).
    rewrite Hf in Hfile.
    change (default [] (Some (CSV_COLUMNS :: body)) ++ (record_line <$> staged))
      with (CSV_COLUMNS :: (body ++ (record_line <$> staged))) in Hfile.
    rewrite Hfile, Hkeys. split; [split; [reflexivity|]|].
    { apply Forall_app. split; [exact Hlen|].
      apply Forall_fmap, Forall_forall. intros m _. apply record_line_length. }
    assert (file_keys (body ++ (record_line <$> staged)) =
            file_keys body ++ (unique_key <$> staged)) as Hfk.
    { unfold file_keys in *. rewrite omap_app, Hskeys. reflexivity. }
    rewrite Hfk. split; [| split; [| split]].
    + apply NoDup_app. split; [exact Hnd|]. split; [| exact Hsnd].
      intros k Hk Hk'. apply Hsnew in Hk' as [Hk' _].
      apply Hk', Hcov, elem_of_list_to_set, Hk.
    + apply Forall_app. auto.
    + rewrite Hcovers, list_to_set_app_L. set_solver.
    + intros _ Hidx. rewrite Hcovers, list_to_set_app_L, Hidx. reflexivity.
Qed.

Lemma keyed_store_init (r : bool) (logs : list log_record) (h0 : handler) :
  init true r None = Ok (logs, h0) -> keyed_store h0.
Proof.
  intros H. destruct (matches_file_init r logs h0 H) as (body & ? & ? & ? & Hk).
  exists body. rewrite Hk. auto.
Qed.

Lemma keyed_store_dedup (r w : bool) (h : handler) :
  keyed_store h ->
  (remove_duplicates r w h).1.2 = O /\ (remove_duplicates r w h).2 = h.
Proof.
  intros (body & [Hf Hlen] & Hnd & Hkeyed & _).
  destruct h as [f keys]. simpl in Hf. subst f.
  apply remove_duplicates_nodup; [exact Hlen|].
  apply keyed_pairs_nodup; assumption.
Qed.

Lemma keyed_store_after (calls : list call) :
  plain_batches calls = true ->
  forall h, keyed_store h -> keyed_store (after calls h).
Proof.
  induction calls as [|c calls IH]; intros Hplain h Hh; [exact Hh|].
  simpl in Hplain. apply andb_prop in Hplain as [Hc Hplain].
  simpl. apply (IH Hplain). destruct c as [ms w | r w]; simpl.
  - destruct Hh as (body & Hkept & Hnd & Hkeyed & Hcov).
    destruct (keyed_save ms w h body Hc Hkept Hnd Hkeyed Hcov)
      as (body' & ? & ? & ? & ? & _).
    destruct (save_measurements ms w h) as [[logs n] h']. exists body'. auto.
  - destruct (keyed_store_dedup r w h Hh) as [_ Hsame].
    destruct (remove_duplicates r w h) as [[logs n] h']. simpl in Hsame.
    subst h'. exact Hh.
Qed.

Lemma matches_file_after (calls : list call) :
  plain_batches calls = true ->
  writes_succeed calls = true ->
  forall h, matches_file h -> matches_file (after calls h).
Proof.
  induction calls as [|c calls IH]; intros Hplain Hw h Hh; [exact Hh|].
  simpl in Hplain, Hw.
  apply andb_prop in Hplain as [Hc Hplain]. apply andb_prop in Hw as [Hwc Hw].
  simpl. apply (IH Hplain Hw). destruct c as [ms w | r w]; simpl.
  - destruct Hh as (body & Hkept & Hnd & Hkeyed & Hidx). subst w.
    destruct (keyed_save ms true h body Hc Hkept Hnd Hkeyed)
      as (body' & ? & ? & ? & _ & Hidx'); [rewrite Hidx; reflexivity|].
    specialize (Hidx' eq_refl Hidx).
    destruct (save_measurements ms true h) as [[logs n] h']. exists body'. auto.
  - assert (keyed_store h) as Hk.
    { destruct Hh as (body & ? & ? & ? & Hidx). exists body. rewrite Hidx. auto. }
    destruct (keyed_store_dedup r w h Hk) as [_ Hsame].
    destruct (remove_duplicates r w h) as [[logs n] h']. simpl in Hsame.
    subst h'. exact Hh.
Qed.

(** X10: the store makes no duplicates of its own.  On a store built on a
    path that did not exist, after any saves (failed ones included) of
    records whose station identifiers pandas reads as text, and any
    de-duplication passes, a de-duplication pass finds nothing to remove:
    it returns 0 and leaves the store as it is. *)
Theorem store_makes_no_duplicates (r : bool) (logs : list log_record)
  (h0 : handler) (calls : list call) (r' w' : bool) :
  init true r None = Ok (logs, h0) ->
  plain_batches calls = true ->
  (remove_duplicates r' w' (after calls h0)).1.2 = O /\
  (remove_duplicates r' w' (after calls h0)).2 = after calls h0.
Proof.
  intros Hinit Hplain. apply keyed_store_dedup.
  apply keyed_store_after; [exact Hplain|]. eapply keyed_store_init, Hinit.
Qed.

(** X11: what the store wrote can be loaded again.  After saves whose
    writes all went through, of records whose station identifiers pandas
    reads as text, a store opened on the file of the first one finds the
    file as it is and loads exactly the index the first one holds. *)
Theorem reopened_store_same_index (r : bool) (logs : list log_record)
  (h0 : handler) (calls : list call) (w' : bool) :
  init true r None = Ok (logs, h0) ->
  plain_batches calls = true ->
  writes_succeed calls = true ->
  exists logs',
    init w' true (csv_file (after calls h0)) = Ok (logs', after calls h0).
Proof.
  intros Hinit Hplain Hw.
  destruct (matches_file_after calls Hplain Hw h0
              (matches_file_init r logs h0 Hinit))
    as (body & [Hf Hlen] & _ & _ & Hidx).
  destruct (after calls h0) as [f keys]. simpl in Hf, Hidx. subst f keys.
  unfold init. cbn [csv_file]. unfold _ensure_csv_exists.
  cbn [mbind res_bind].
  pose proof (loaded_keys body Hlen) as Hk.
  destruct (_load_processed_keys true (Some (CSV_COLUMNS :: body)))
    as [logs2 keys2].
  cbn [snd] in Hk. subst keys2. eexists. reflexivity.
Qed.

End StoreInvariant.



Section UniqueKey.

Lemma chars_append (a b : string) :
  list_ascii_of_string (a +:+ b) =
  list_ascii_of_string a ++ list_ascii_of_string b.
Proof. induction a as [|c a IH]; simpl; [reflexivity | rewrite IH; reflexivity]. Qed.

Lemma chars_of_uint (u : Decimal.uint) :
  forallb iso_char (list_ascii_of_string (NilEmpty.string_of_uint u)) = true.
Proof. induction u; simpl; auto. Qed.

Lemma chars_of_zeros (n : nat) :
  forallb iso_char (list_ascii_of_string (zeros n)) = true.
Proof.
  unfold zeros. rewrite list_ascii_of_string_of_list_ascii.
  induction n as [|n IH]; simpl; auto.
Qed.

Lemma chars_of_pad (width : nat) (n : N) :
  forallb iso_char (list_ascii_of_string (pad width n)) = true.
Proof.
  unfold pad, string_of_N. rewrite chars_append, forallb_app.
  rewrite chars_of_zeros, chars_of_uint. reflexivity.
Qed.

(** [isoformat] prints digits and the marks [-], [T], [:], [.] and [+]. *)
Lemma chars_of_isoformat (d : datetime) :
  forallb iso_char (list_ascii_of_string (isoformat d)) = true.
Proof.
  unfold isoformat, format_offset.
  repeat first
    [ rewrite chars_append
    | rewrite forallb_app
    | rewrite chars_of_pad ].
  simpl.
  destruct (microsecond d =? 0)%N; simpl;
    repeat first [ rewrite chars_append | rewrite forallb_app
                 | rewrite chars_of_pad ]; simpl;
  (destruct (tzinfo d) as [off|]; simpl; [| reflexivity]);
  (destruct (off <? 0)%Z; simpl);
  repeat first [ rewrite chars_append | rewrite forallb_app
               | rewrite chars_of_pad ]; simpl;
  repeat match goal with
         | |- context [if ?b then _ else _] => destruct b; simpl
         end;
  repeat first [ rewrite chars_append | rewrite forallb_app
               | rewrite chars_of_pad ]; reflexivity.
Qed.

(** A text cut at its first underscore is cut in one way only. *)
Lemma cut_at_underscore (a a' b b' : string) :
  forallb iso_char (list_ascii_of_string a) = true ->
  forallb iso_char (list_ascii_of_string a') = true ->
  a +:+ "_" +:+ b = a' +:+ "_" +:+ b' -> a = a' /\ b = b'.
Proof.
  revert a'. induction a as [|c a IH]; intros [|c' a'] Ha Ha' H; simpl in *.
  - injection H as H. auto.
  - injection H as Hc _. subst c'. discriminate.
  - injection H as Hc _. subst c. discriminate.
  - injection H as Hc H. subst c'.
    apply andb_prop in Ha as [_ Ha]. apply andb_prop in Ha' as [_ Ha'].
    destruct (IH a' Ha Ha' H) as [-> ->]. auto.
Qed.

(** X14: the duplicate key is unambiguous.  Two Records have the same key
    exactly when they have the same station identifier and timestamps that
    read the same in ISO 8601, whatever characters the station identifier
    holds (underscores included). *)
Theorem unique_key_unambiguous (m1 m2 : Measurement) :
  unique_key m1 = unique_key m2 <->
  isoformat (timestamp m1) = isoformat (timestamp m2) /\
  station_id m1 = station_id m2.
Proof.
  unfold unique_key. split.
  - apply cut_at_underscore; apply chars_of_isoformat.
  - intros [-> ->]. reflexivity.
Qed.

End UniqueKey.

Section StoreExamples.
Import CsvHandler.

Lemma store_stays_in_step_witness :
  in_step (after [ Save [reading "123.45"; reading "999.99"] false;
                   Save [reading "123.45"] true;
                   Dedup true true ]
                 (mk_handler (Some [CSV_COLUMNS]) ∅)).
Proof.
  apply (store_stays_in_step true
           [ (INFO, "Created new CSV file: {self.csv_path}");
             (DEBUG, "Loaded {len(self._processed_keys)} existing records") ]
           (mk_handler (Some [CSV_COLUMNS]) ∅)
           [ Save [reading "123.45"; reading "999.99"] false;
             Save [reading "123.45"] true;
             Dedup true true ]).
  vm_compute. reflexivity.
Defined.

Lemma store_makes_no_duplicates_witness :
  let h := after [ Save [reading "123.45"; reading "999.99"] true;
                   Save [reading "123.45"] false ]
                 (mk_handler (Some [CSV_COLUMNS]) ∅) in
  (remove_duplicates true true h).1.2 = O /\
  (remove_duplicates true true h).2 = h.
Proof.
  apply (store_makes_no_duplicates true
           [ (INFO, "Created new CSV file: {self.csv_path}");
             (DEBUG, "Loaded {len(self._processed_keys)} existing records") ]
           (mk_handler (Some [CSV_COLUMNS]) ∅)
           [ Save [reading "123.45"; reading "999.99"] true;
             Save [reading "123.45"] false ]
           true true).
  - vm_compute. reflexivity.
  - vm_compute. reflexivity.
Defined.

Lemma reopened_store_same_index_witness :
  let h := after [ Save [reading "123.45"; reading "999.99"] true ]
                 (mk_handler (Some [CSV_COLUMNS]) ∅) in
  exists logs', init false true (csv_file h) = Ok (logs', h).
Proof.
  apply (reopened_store_same_index true
           [ (INFO, "Created new CSV file: {self.csv_path}");
             (DEBUG, "Loaded {len(self._processed_keys)} existing records") ]
           (mk_handler (Some [CSV_COLUMNS]) ∅)
           [ Save [reading "123.45"; reading "999.99"] true ]
           false).
  - vm_compute. reflexivity.
  - vm_compute. reflexivity.
  - vm_compute. reflexivity.
Defined.

Lemma remove_duplicates_keeps_every_pair_witness :
  let h := mk_handler (Some [CSV_COLUMNS; older_line; older_line]) ∅ in
  exists body',
    csv_file (remove_duplicates true true h).2 = Some (CSV_COLUMNS :: body') /\
    NoDup (pair_of <$> body') /\
    (forall p, p ∈ (pair_of <$> [older_line; older_line]) <->
               p ∈ (pair_of <$> body')) /\
    length [older_line; older_line] =
      ((remove_duplicates true true h).1.2 + length body')%nat /\
    Forall (fun l => length l = length CSV_COLUMNS) body'.
Proof.
  apply (remove_duplicates_keeps_every_pair ∅ [older_line; older_line]).
  repeat constructor.
Defined.

Lemma remove_duplicates_idempotent_witness :
  let h1 :=
    (remove_duplicates true true
       (mk_handler (Some [CSV_COLUMNS; older_line; older_line]) ∅)).2 in
  (remove_duplicates true false h1).1.2 = O /\
  (remove_duplicates true false h1).2 = h1.
Proof.
  apply (remove_duplicates_idempotent ∅ [older_line; older_line] true false).
  repeat constructor.
Defined.

End StoreExamples.

(* --------------------------------------------------------------------- *)
(** ** The query builder *)

Section QueryText.
Import QueryBuilder.

Lemma prefix_append (n b : string) : String.prefix n (n +:+ b) = true.
Proof.
  induction n as [|c n IH]; simpl; [destruct b; reflexivity|].
  destruct (ascii_dec c c); [exact IH | congruence].
Qed.

Lemma contains_prefix (n hay : string) :
  String.prefix n hay = true -> contains n hay = true.
Proof. destruct hay as [|c h]; cbn [contains]; intros ->; reflexivity. Qed.

Lemma contains_here (n b : string) : contains n (n +:+ b) = true.
Proof. apply contains_prefix, prefix_append. Qed.

Lemma contains_right (n a b : string) :
  contains n b = true -> contains n (a +:+ b) = true.
Proof.
  intros H. induction a as [|c a IH]; simpl; [exact H|].
  rewrite IH. apply orb_true_r.
Qed.

Lemma contains_self (n : string) : contains n n = true.
Proof.
  apply contains_prefix. induction n as [|c n IH]; simpl; [reflexivity|].
  destruct (ascii_dec c c); [exact IH | congruence].
Qed.

Lemma contains_concat (sep x : string) (l : list string) :
  x ∈ l -> contains x (String.concat sep l) = true.
Proof.
  induction l as [|y l IH]; intros Hin; [apply elem_of_nil in Hin; destruct Hin|].
  destruct l as [|z l].
  - apply list_elem_of_singleton in Hin as ->. apply contains_self.
  - change (String.concat sep (y :: z :: l))
      with (y +:+ sep +:+ String.concat sep (z :: l)).
    apply elem_of_cons in Hin as [-> | Hin]; [apply contains_here|].
    apply contains_right, contains_right, IH, Hin.
Qed.

Lemma prefix_cong (a n hay : string) :
  String.prefix n hay = true -> String.prefix (a +:+ n) (a +:+ hay) = true.
Proof.
  intros H. induction a as [|c a IH]; simpl; [exact H|].
  destruct (ascii_dec c c); [exact IH | congruence].
Qed.

Lemma prefix_left (n : string) :
  forall a b, String.prefix n a = true -> String.prefix n (a +:+ b) = true.
Proof.
  induction n as [|c n IH]; intros a b H.
  - destruct (a +:+ b); reflexivity.
  - destruct a as [|c' a]; [discriminate|]. simpl in *.
    destruct (ascii_dec c c'); [apply IH, H | discriminate].
Qed.

Lemma contains_left (n a b : string) :
  contains n a = true -> contains n (a +:+ b) = true.
Proof.
  induction a as [|c a IH]; cbn [contains]; intros H.
  - rewrite orb_false_r in H. apply contains_prefix, (prefix_left n "" b), H.
  - apply orb_prop in H as [H | H].
    + apply contains_prefix, (prefix_left n (String c a) b), H.
    + change (contains n (String c (a +:+ b)) = true). cbn [contains].
      rewrite (IH H). apply orb_true_r.
Qed.

Lemma param_uris_members (items : list item) (us : list string) :
  param_uris items = Ok us ->
  (forall i, i ∈ items -> exists p, i = Member p) /\
  (forall p, Member p ∈ items -> ("<" +:+ uri p +:+ ">") ∈ us).
Proof.
  revert us. induction items as [|i items IH]; intros us H; simpl in H.
  - split; intros ? Hin; apply elem_of_nil in Hin; destruct Hin.
  - destruct i as [p|s]; [| discriminate]. simpl in H.
    destruct (param_uris items) as [us'|] eqn:E; [| discriminate].
    simpl in H. injection H as <-. destruct (IH us' eq_refl) as [Hm Hu]. split.
    + intros i Hin. apply elem_of_cons in Hin as [-> | Hin]; eauto.
    + intros q Hin. apply elem_of_cons in Hin as [[= ->] | Hin];
        apply elem_of_cons; auto.
Qed.

(** X15: a query [build_query] returns is about the station and the
    parameters asked for.  It is returned only for parameters that passed
    the validation and are all members of the enumeration, and its text
    holds the IRI of the station under the base URL and, for every
    parameter of the request, the URI of that parameter, each in angle
    brackets. *)
Theorem build_query_asks_for (b : builder) (params : QueryParameters)
  (query : string) :
  build_query b params = Ok query ->
  _validate_parameters params = Ok tt /\
  (forall i, i ∈ parameters params -> exists p, i = Member p) /\
  contains (subject_of b params) query = true /\
  (forall p, Member p ∈ parameters params ->
             contains ("<" +:+ uri p +:+ ">") query = true).
Proof.
  unfold build_query, _build_parameters_filter. intros H.
  destruct (_validate_parameters params) as [[]|] eqn:Hv; [| discriminate].
  simpl in H. destruct (param_uris (parameters params)) as [us|] eqn:Hus;
    [| discriminate].
  simpl in H. injection H as <-.
  destruct (param_uris_members _ _ Hus) as [Hm Hu].
  split; [reflexivity|]. split; [exact Hm|]. split.
  - do 14 apply contains_right.
    change ("  BIND(<" +:+ base_url b +:+ "/river/observation/" +:+
            site_code params +:+ "> AS ?subject)" +:+ ?rest)
      with ("  BIND(" +:+ "<" +:+ base_url b +:+ "/river/observation/" +:+
            site_code params +:+ ">" +:+ " AS ?subject)" +:+ rest).
    do 2 apply contains_right. unfold subject_of.
    apply contains_prefix. do 4 apply prefix_cong. apply prefix_append.
  - intros p Hp. do 26 apply contains_right. apply contains_left.
    apply contains_concat, Hu, Hp.
Qed.

End QueryText.

Section SiteCodes.
Import QueryBuilder.

Lemma digit_not_space (c : ascii) : is_digit c = true -> unicode_space c = false.
Proof.
  unfold is_digit, unicode_space. intros H.
  apply andb_prop in H as [H1 H2]. apply Nat.leb_le in H1, H2.
  repeat apply orb_false_intro; [apply andb_false_intro2 | | |].
  - apply Nat.leb_gt. lia.
  - apply Nat.eqb_neq. lia.
  - apply Nat.eqb_neq. lia.
  - apply Nat.eqb_neq. lia.
Qed.

Lemma digit_not_mark (c m : ascii) :
  is_digit c = true -> is_digit m = false -> Ascii.eqb c m = false.
Proof.
  intros Hc Hm. destruct (Ascii.eqb c m) eqn:E; [| reflexivity].
  apply Ascii.eqb_eq in E. subst. congruence.
Qed.

Lemma drop_while_head (p : ascii -> bool) (l : list ascii) :
  match l with [] => True | c :: _ => p c = false end -> drop_while p l = l.
Proof. destruct l as [|c l]; simpl; [reflexivity | intros ->; reflexivity]. Qed.

(** Stripping leaves a text of digits as it is. *)
Lemma strip_digits (s : string) :
  forallb is_digit (list_ascii_of_string s) = true ->
  strip_with unicode_space s = s.
Proof.
  intros H. unfold strip_with.
  assert (forall l, forallb is_digit l = true ->
                    drop_while unicode_space l = l) as Hdrop.
  { intros l Hl. apply drop_while_head. destruct l as [|c l]; [exact I|].
    simpl in Hl. apply andb_prop in Hl as [Hc _]. apply digit_not_space, Hc. }
  rewrite (Hdrop _ H), Hdrop, rev_involutive, string_of_list_ascii_of_string;
    [reflexivity|].
  apply forallb_forall. intros c Hc. apply in_rev in Hc.
  rewrite forallb_forall in H. apply H, Hc.
Qed.

Lemma literal_digits_plain (l : list ascii) :
  l <> [] -> forallb is_digit l = true -> literal_digits l = Some l.
Proof.
  induction l as [|c l IH]; intros Hne H; [congruence|].
  simpl in H. apply andb_prop in H as [Hc Hl]. cbn [literal_digits]. rewrite Hc.
  destruct l as [|u l]; [reflexivity|].
  pose proof Hl as Hl'. simpl in Hl'. apply andb_prop in Hl' as [Hu _].
  rewrite (digit_not_mark u "_" Hu eq_refl).
  rewrite IH by (congruence || assumption). reflexivity.
Qed.

Lemma digit_val_bound (c : ascii) : is_digit c = true -> (digit_val c <= 9)%N.
Proof.
  unfold is_digit, digit_val. intros H.
  apply andb_prop in H as [H1 H2]. apply Nat.leb_le in H1, H2. lia.
Qed.

(** The value of a run of digits read after [acc]. *)
Lemma digits_fold_bounds (l : list ascii) :
  forallb is_digit l = true ->
  forall acc : N,
    (acc * 10 ^ N.of_nat (length l)
       <= fold_left (fun acc c => 10 * acc + digit_val c) l acc
       < (acc + 1) * 10 ^ N.of_nat (length l))%N.
Proof.
  induction l as [|c l IH]; intros H acc.
  - simpl. lia.
  - simpl in H. apply andb_prop in H as [Hc Hl].
    pose proof (digit_val_bound c Hc) as Hd.
    specialize (IH Hl (10 * acc + digit_val c)%N).
    cbn [fold_left length]. rewrite Nat2N.inj_succ, N.pow_succ_r'.
    set (P := (10 ^ N.of_nat (length l))%N) in *. nia.
Qed.

(** A text of digits that does not start with 0 reads as a number from 1
    to 9999 exactly when it has one to four digits. *)
Lemma py_int_digits (s : string) :
  forallb is_digit (list_ascii_of_string s) = true ->
  String.prefix "0" s = false ->
  match py_int s with
  | Some n => (1 <= n <= 9999)%Z
  | None => False
  end <-> (1 <= String.length s <= 4)%nat.
Proof.
  intros Hd Hz. unfold py_int. rewrite (strip_digits s Hd).
  destruct s as [|c s]; [simpl; lia|].
  cbn [list_ascii_of_string] in *. pose proof Hd as Hd'.
  simpl in Hd'. apply andb_prop in Hd' as [Hc Hs].
  unfold parse_sign.
  rewrite (digit_not_mark c "-" Hc eq_refl), (digit_not_mark c "+" Hc eq_refl).
  rewrite literal_digits_plain by (congruence || assumption).
  assert (1 <= digit_val c)%N as Hlead.
  { assert ("0"%char <> c) as Hne.
    { intros <-. clear -Hz. simpl in Hz.
      destruct (ascii_dec "0" "0"); [destruct s; discriminate | congruence]. }
    unfold is_digit, digit_val in *.
    apply andb_prop in Hc as [H1 H2]. apply Nat.leb_le in H1, H2.
    assert (nat_of_ascii c <> 48%nat) as Hn.
    { intros E. apply Hne. rewrite <- (ascii_nat_embedding c), E. reflexivity. }
    lia. }
  pose proof (digit_val_bound c Hc) as Hd9.
  pose proof (digits_fold_bounds (list_ascii_of_string s) Hs (digit_val c)) as Hb.
  assert (digits_value (c :: list_ascii_of_string s) =
          fold_left (fun acc c => 10 * acc + digit_val c)%N
                    (list_ascii_of_string s) (digit_val c)) as Hv.
  { unfold digits_value. cbn [fold_left]. f_equal; lia. }
  assert (length (list_ascii_of_string s) = String.length s) as Hlen.
  { clear. induction s as [|c s IH]; simpl; [|rewrite IH]; reflexivity. }
  rewrite Hv. cbn [length String.length]. rewrite Hlen in *.
  set (v := fold_left _ _ _) in *. set (n := String.length s) in *.
  destruct (4300 <? S n)%nat eqn:Hlim.
  - apply Nat.ltb_lt in Hlim. split; [tauto | lia].
  - split.
    + intros [_ Hhi]. split; [lia|].
      destruct (Nat.le_gt_cases n 3) as [|Hbig]; [lia|]. exfalso.
      assert (10 ^ 4 <= 10 ^ N.of_nat n)%N
        by (apply N.pow_le_mono_r; lia).
      change (10 ^ 4)%N with 10000%N in *. nia.
    + intros [_ Hn].
      assert (10 ^ N.of_nat n <= 10 ^ 3)%N
        by (apply N.pow_le_mono_r; lia).
      assert (1 <= 10 ^ N.of_nat n)%N
        by (change 1%N with (10 ^ 0)%N; apply N.pow_le_mono_r; lia).
      change (10 ^ 3)%N with 1000%N in *. nia.
Qed.

(** X16: the station codes the builder takes.  For a code written in
    digits only that does not start with 0 and a request for at least one
    parameter, [_validate_parameters] passes exactly when the code has one
    to four digits, and otherwise raises [ValueError] (the empty code and
    every code of five digits or more included). *)
Theorem site_code_digits (params : QueryParameters) :
  forallb is_digit (list_ascii_of_string (site_code params)) = true ->
  String.prefix "0" (site_code params) = false ->
  parameters params <> [] ->
  _validate_parameters params =
    if ((1 <=? String.length (site_code params)) &&
        (String.length (site_code params) <=? 4))%nat
    then Ok tt else Raise ValueError.
Proof.
  intros Hd Hz Hp. pose proof (py_int_digits _ Hd Hz) as Hiff.
  unfold _validate_parameters.
  destruct (String.eqb (site_code params) "") eqn:He.
  { apply String.eqb_eq in He. rewrite He. reflexivity. }
  destruct (py_int (site_code params)) as [n|].
  - destruct ((1 <=? String.length (site_code params)) &&
              (String.length (site_code params) <=? 4))%nat eqn:Hlen.
    + apply andb_prop in Hlen as [H1 H2]. apply Nat.leb_le in H1, H2.
      destruct (proj2 Hiff (conj H1 H2)) as [Hn1 Hn2].
      apply Z.leb_le in Hn1, Hn2. rewrite Hn1, Hn2. simpl.
      destruct (parameters params); [congruence | reflexivity].
    + destruct ((1 <=? n)%Z && (n <=? 9999)%Z) eqn:Hn; [| reflexivity].
      apply andb_prop in Hn as [Hn1 Hn2]. apply Z.leb_le in Hn1, Hn2.
      destruct (proj1 Hiff (conj Hn1 Hn2)) as [H1 H2].
      apply Nat.leb_le in H1, H2. rewrite H1, H2 in Hlen. discriminate.
  - destruct ((1 <=? String.length (site_code params)) &&
              (String.length (site_code params) <=? 4))%nat eqn:Hlen;
      [| reflexivity].
    apply andb_prop in Hlen as [H1 H2]. apply Nat.leb_le in H1, H2.
    destruct (proj2 Hiff (conj H1 H2)).
Qed.

End SiteCodes.

Section QueryExamples.
Import QueryBuilder.

Lemma build_query_asks_for_witness :
  let params := mk_QueryParameters "2044" [Member DISCHARGE; Member WATER_LEVEL] in
  _validate_parameters params = Ok tt /\
  (forall i, i ∈ parameters params -> exists p, i = Member p) /\
  contains (subject_of default_builder params)
    ("PREFIX schema: <http://schema.org/>" +:+ newline +:+
     "PREFIX rdf: <http://www.w3.org/1999/02/22-rdf-syntax-ns#>" +:+ newline +:+
     "PREFIX rdfs: <http://www.w3.org/2000/01/rdf-schema#>" +:+ newline +:+
     newline +:+
     "SELECT ?predicate ?object" +:+ newline +:+
     "FROM <https://lindas.admin.ch/foen/hydro>" +:+ newline +:+
     "WHERE {" +:+ newline +:+
     "  BIND(<https://environment.ld.admin.ch/foen/hydro/river/observation/2044> AS ?subject)" +:+ newline +:+
     "  ?subject ?predicate ?object ." +:+ newline +:+
     "  FILTER (?predicate IN (" +:+ newline +:+
     "    <https://environment.ld.admin.ch/foen/hydro/dimension/discharge>," +:+ newline +:+
     "    <https://environment.ld.admin.ch/foen/hydro/dimension/waterLevel>" +:+ newline +:+
     "  ))" +:+ newline +:+
     "}") = true /\
  (forall p, Member p ∈ parameters params ->
     contains ("<" +:+ uri p +:+ ">")
       ("PREFIX schema: <http://schema.org/>" +:+ newline +:+
        "PREFIX rdf: <http://www.w3.org/1999/02/22-rdf-syntax-ns#>" +:+ newline +:+
        "PREFIX rdfs: <http://www.w3.org/2000/01/rdf-schema#>" +:+ newline +:+
        newline +:+
        "SELECT ?predicate ?object" +:+ newline +:+
        "FROM <https://lindas.admin.ch/foen/hydro>" +:+ newline +:+
        "WHERE {" +:+ newline +:+
        "  BIND(<https://environment.ld.admin.ch/foen/hydro/river/observation/2044> AS ?subject)" +:+ newline +:+
        "  ?subject ?predicate ?object ." +:+ newline +:+
        "  FILTER (?predicate IN (" +:+ newline +:+
        "    <https://environment.ld.admin.ch/foen/hydro/dimension/discharge>," +:+ newline +:+
        "    <https://environment.ld.admin.ch/foen/hydro/dimension/waterLevel>" +:+ newline +:+
        "  ))" +:+ newline +:+
        "}") = true).
Proof.
  apply (build_query_asks_for default_builder
           (mk_QueryParameters "2044" [Member DISCHARGE; Member WATER_LEVEL])).
  vm_compute. reflexivity.
Defined.

Lemma site_code_digits_witness :
  _validate_parameters (mk_QueryParameters "99999" [Member DISCHARGE]) =
    Raise ValueError.
Proof.
  apply (site_code_digits (mk_QueryParameters "99999" [Member DISCHARGE])).
  - reflexivity.
  - reflexivity.
  - discriminate.
Defined.

End QueryExamples.

(* --------------------------------------------------------------------- *)
(** ** The scraper *)

Section ScraperRun.
Import Scraper QueryBuilder.
Context {lib : Libraries}.

Variable s : scraper.

Lemma queries_logged (logs : list log_record) :
  SparqlClient.queries (logged logs) = 0%nat.
Proof. induction logs as [|l logs IH]; [reflexivity | exact IH]. Qed.

(** [_validate_parameters] raises nothing but [ValueError], and it passes
    no empty list of parameters. *)
Lemma validate_parameters_cases (params : QueryParameters) :
  (_validate_parameters params = Ok tt /\ QueryBuilder.parameters params <> []) \/
  _validate_parameters params = Raise ValueError.
Proof.
  unfold _validate_parameters.
  destruct (String.eqb (site_code params) ""); [right; reflexivity|].
  destruct (py_int (site_code params)) as [code_int|]; [| right; reflexivity].
  destruct (negb _); [right; reflexivity|].
  destruct (QueryBuilder.parameters params); [right; reflexivity|].
  left. split; [reflexivity | discriminate].
Qed.

(** On the parameters a [QueryParameters] holds, plain strings,
    [build_query] fails: with the [ValueError] of the validation or, past
    it, with the [AttributeError] of the first [param.uri]. *)
Lemma build_query_plain (b : builder) (code : string) (ps : list Param) :
  build_query b (QueryParameters_init code ps) =
  match _validate_parameters (QueryParameters_init code ps) with
  | Ok _ => Raise AttributeError
  | Raise _ => Raise ValueError
  end.
Proof.
  unfold build_query.
  destruct (validate_parameters_cases (QueryParameters_init code ps))
    as [[-> Hne] | ->]; [| reflexivity].
  destruct ps as [|p ps]; [destruct Hne; reflexivity | reflexivity].
Qed.

(** [_scrape_site] ends before any request is sent. *)
Lemma scrape_site_plain (endpoint : nat -> SparqlClient.outcome)
  (code : string) :
  _scrape_site s endpoint code =
  match _validate_parameters (QueryParameters_init code (Scraper.parameters s)) with
  | Ok _ =>
      (logged [(DEBUG, "Processing site {site_code}")], Raise AttributeError)
  | Raise _ =>
      (logged [(DEBUG, "Processing site {site_code}")] ++
       logged [(ERROR, "Invalid parameters for site {site_code}: {e}")],
       Ok None)
  end.
Proof.
  unfold _scrape_site. rewrite build_query_plain.
  destruct (_validate_parameters _); reflexivity.
Qed.

(** The loop of [run] collects no Record and sends no request. *)
Lemma sites_loop_plain (answers : nat -> nat -> SparqlClient.outcome)
  (codes : list string) :
  forall i evs ms errors,
    (sites_loop s answers i codes evs ms errors).1.2 = ms /\
    SparqlClient.queries (sites_loop s answers i codes evs ms errors).1.1 =
      SparqlClient.queries evs.
Proof.
  induction codes as [|code codes IH]; intros i evs ms errors;
    cbn [sites_loop]; [split; reflexivity|].
  rewrite scrape_site_plain.
  destruct (_validate_parameters _);
    match goal with
    | |- context [sites_loop s answers (S i) codes ?e ?m ?n] =>
        destruct (IH (S i) e m n) as [-> ->]
    end;
    (split; [reflexivity|]); rewrite !queries_app, !queries_logged; lia.
Qed.

(** [run] leaves the store as it found it and sends the requests of the
    connection test only. *)
Lemma run_plain (connection : nat -> SparqlClient.outcome)
  (answers : nat -> nat -> SparqlClient.outcome) (writable : bool)
  (h : CsvHandler.handler) :
  (run s connection answers writable h).2 = h /\
  SparqlClient.queries (run s connection answers writable h).1 =
    SparqlClient.queries
      (SparqlClient.test_connection (sparql_client s) connection).1.
Proof.
  unfold run.
  destruct (SparqlClient.test_connection (sparql_client s) connection)
    as [evs0 connected].
  destruct connected; cbn [negb fst snd].
  - destruct (sites_loop_plain answers (site_codes s) 0 [] [] 0) as [Hms Hq].
    destruct (sites_loop s answers 0 (site_codes s) [] [] 0)
      as [[evs ms] errors].
    cbn [fst snd] in Hms, Hq. subst ms. cbn [fst snd].
    split; [reflexivity|].
    rewrite !queries_app, !queries_logged, Hq.
    change (SparqlClient.queries []) with 0%nat. lia.
  - split; [reflexivity|]. rewrite !queries_app, !queries_logged. lia.
Qed.


(** X18: the scraper, as written, stores nothing.  [QueryParameters] keeps
    the values of the parameters, plain strings, and [build_query] reads
    [param.uri] off each: whatever the endpoint answers, [_scrape_site]
    sends no request and ends with [AttributeError], or, when the builder
    refuses the site code or there is no parameter, with no Record; and
    [run] leaves the store, file and index, as it found it, having sent the
    requests of the connection test only. *)
Theorem scraper_stores_nothing :
  (forall (endpoint : nat -> SparqlClient.outcome) (code : string),
      SparqlClient.queries (_scrape_site s endpoint code).1 = 0%nat /\
      (_scrape_site s endpoint code).2 =
        match _validate_parameters
                (QueryParameters_init code (Scraper.parameters s)) with
        | Ok _ => Raise AttributeError
        | Raise _ => Ok None
        end) /\
  (forall (connection : nat -> SparqlClient.outcome)
          (answers : nat -> nat -> SparqlClient.outcome) (writable : bool)
          (h : CsvHandler.handler),
      (run s connection answers writable h).2 = h /\
      SparqlClient.queries (run s connection answers writable h).1 =
        SparqlClient.queries
          (SparqlClient.test_connection (sparql_client s) connection).1).
Proof.
  split; [| exact run_plain].
  intros endpoint code. rewrite scrape_site_plain.
  destruct (_validate_parameters _); split; reflexivity.
Qed.

Lemma scrape_site_queries (endpoint : nat -> SparqlClient.outcome)
  (code : string) :
  (SparqlClient.queries (_scrape_site s endpoint code).1
     <= Z.to_nat (SparqlClient.max_retries (sparql_client s)))%nat.
Proof.
  rewrite scrape_site_plain.
  destruct (_validate_parameters _); cbn [fst];
    rewrite ?queries_app, ?queries_logged; lia.
Qed.

Lemma sites_loop_queries (answers : nat -> nat -> SparqlClient.outcome)
  (codes : list string) :
  forall i evs ms errors,
    (SparqlClient.queries (sites_loop s answers i codes evs ms errors).1.1
     <= SparqlClient.queries evs +
        length codes * Z.to_nat (SparqlClient.max_retries (sparql_client s)))%nat.
Proof.
  induction codes as [|code codes IH]; intros i evs ms errors;
    cbn [sites_loop length]; [simpl; lia|].
  pose proof (scrape_site_queries (answers i) code) as Hq.
  destruct (_scrape_site s (answers i) code) as [evs1 r]. cbn [fst snd] in Hq.
  destruct r as [[m|]|e];
    match goal with
    | |- context [sites_loop s answers (S i) codes ?e ?m ?n] =>
        specialize (IH (S i) e m n);
        rewrite ?queries_app, ?queries_logged in IH
    end; lia.
Qed.

(** X19: [run] is bounded in the requests it sends.  Whatever the endpoint
    answers, a run sends at most [max_retries] requests for the connection
    test and at most [max_retries] for each site of [site_codes]. *)
Theorem run_requests_bounded (connection : nat -> SparqlClient.outcome)
  (answers : nat -> nat -> SparqlClient.outcome) (writable : bool)
  (h : CsvHandler.handler) :
  (SparqlClient.queries (run s connection answers writable h).1
   <= (1 + length (site_codes s)) *
      Z.to_nat (SparqlClient.max_retries (sparql_client s)))%nat.
Proof.
  unfold run. cbv zeta.
  pose proof (execute_query_bound (sparql_client s) connection) as Hq.
  unfold SparqlClient.test_connection.
  destruct (SparqlClient.execute_query (sparql_client s) connection)
    as [evs0 r0]. cbn [fst snd] in Hq.
  pose proof (sites_loop_queries answers (site_codes s) 0 [] [] 0) as Hl.
  change (SparqlClient.queries []) with 0%nat in Hl.
  destruct (sites_loop s answers 0 (site_codes s) [] [] 0) as [[evs ms] errors].
  cbn [fst snd] in Hl.
  destruct r0 as [[r|]|e]; cbn [negb fst snd];
    rewrite ?queries_app, ?queries_logged;
    change (SparqlClient.queries [SparqlClient.Log _]) with 0%nat; try lia.
  destruct ms as [|m0 ms]; cbn [fst snd].
  - rewrite ?queries_app, ?queries_logged. lia.
  - destruct (CsvHandler.save_measurements (m0 :: ms) writable h)
      as [[logs k] h']. cbn [fst snd].
    rewrite ?queries_app, ?queries_logged. lia.
Qed.

(** X20: the client and the mapper agree on what a response is.  The
    mapper's structural validation of a response that [execute_query]
    returned raises nothing, and it fails exactly when the "bindings" list
    of the response is empty. *)
Theorem returned_response_validates (c : SparqlClient.client)
  (endpoint : nat -> SparqlClient.outcome) (results : pyval) :
  (SparqlClient.execute_query c endpoint).2 = Ok (Some results) ->
  exists bs,
    bindings_of results = Some bs /\
    DataProcessor._validate_results results =
      Ok (negb (bool_decide (bs = []))).
Proof.
  intros H. unfold SparqlClient.execute_query in H.
  destruct (attempts_return c endpoint results _ _ _ H) as (k & _ & _ & Hwf & _).
  unfold well_formed in Hwf. unfold bindings_of.
  destruct results as [| | | | | | d]; try discriminate.
  destruct (d !! "results") as [[| | | | | | section]|] eqn:Hsec;
    try discriminate.
  destruct (section !! "bindings") as [[| | | | | bs |]|] eqn:Hbs;
    try discriminate.
  exists bs. split; [reflexivity|].
  rewrite (validate_results_shape (PDict d) bs)
    by (unfold bindings_of; rewrite Hsec, Hbs; reflexivity).
  destruct bs; reflexivity.
Qed.

End ScraperRun.

Section ScraperExamples.
Import Scraper QueryBuilder.

Lemma returned_response_validates_witness :
  exists bs,
    bindings_of (response (PList [])) = Some bs /\
    DataProcessor._validate_results (response (PList [])) =
      Ok (negb (bool_decide (bs = []))).
Proof.
  apply (returned_response_validates
           (SparqlClient.mk_client "https://ld.admin.ch/query" 3
                                   (SparqlClient.NInt 2))
           (fun _ : nat => SparqlClient.Converted (response (PList [])))
           (response (PList []))).
  vm_compute. reflexivity.
Defined.

End ScraperExamples.

(* --------------------------------------------------------------------- *)
(** ** The validators of the settings *)

Section SettingsValidators.
Import Config.

Lemma drop_while_again (p : ascii -> bool) (l : list ascii) :
  drop_while p (drop_while p l) = drop_while p l.
Proof.
  induction l as [|c l IH]; simpl; [reflexivity|].
  destruct (p c) eqn:E; [exact IH|]. simpl. rewrite E. reflexivity.
Qed.

Lemma drop_while_split (p : ascii -> bool) (l : list ascii) :
  exists w, l = w ++ drop_while p l.
Proof.
  induction l as [|c l [w IH]]; simpl; [exists []; reflexivity|].
  destruct (p c); [exists (c :: w); simpl; congruence | exists []; reflexivity].
Qed.

Lemma drop_while_first (p : ascii -> bool) (l : list ascii) (c : ascii)
  (r : list ascii) :
  drop_while p l = c :: r -> p c = false.
Proof.
  induction l as [|a l IH]; simpl; [discriminate|].
  destruct (p a) eqn:E; [exact IH|]. intros [= -> _]. exact E.
Qed.

(** What is left after stripping has no white space at either end. *)
Lemma strip_with_again (p : ascii -> bool) (s : string) :
  strip_with p (strip_with p s) = strip_with p s.
Proof.
  unfold strip_with. rewrite list_ascii_of_string_of_list_ascii.
  set (u := drop_while p (list_ascii_of_string s)).
  set (t := drop_while p (rev u)).
  assert (drop_while p (rev t) = rev t) as Hhead.
  { destruct (rev t) as [|c r] eqn:Er; [reflexivity|].
    destruct (drop_while_split p (rev u)) as (w & Hw). fold t in Hw.
    apply (f_equal (@rev ascii)) in Hw.
    rewrite rev_involutive, rev_app_distr, Er in Hw. simpl in Hw.
    unfold u in Hw. apply drop_while_first in Hw. simpl. rewrite Hw. reflexivity. }
  rewrite Hhead, rev_involutive. unfold t at 1. rewrite drop_while_again.
  reflexivity.
Qed.

Lemma drop_while_In (p : ascii -> bool) (l : list ascii) (c : ascii) :
  In c (drop_while p l) -> In c l.
Proof.
  induction l as [|a l IH]; simpl; [auto|].
  destruct (p a); [auto|]. simpl. auto.
Qed.

Lemma strip_with_In (p : ascii -> bool) (s : string) (c : ascii) :
  In c (list_ascii_of_string (strip_with p s)) -> In c (list_ascii_of_string s).
Proof.
  unfold strip_with. rewrite list_ascii_of_string_of_list_ascii.
  intros H. apply in_rev, drop_while_In, in_rev, drop_while_In in H. exact H.
Qed.

Lemma prefix_empty (s : string) : String.prefix "" s = true.
Proof. destruct s; reflexivity. Qed.

(** [c in s] for a single character. *)
Lemma contains_char (c : ascii) (s : string) :
  contains (String c "") s = true <-> In c (list_ascii_of_string s).
Proof.
  induction s as [|a s IH]; cbn [contains list_ascii_of_string].
  - simpl. split; [discriminate | tauto].
  - cbn [String.prefix]. rewrite prefix_empty. simpl In.
    destruct (ascii_dec c a) as [->|Hne]; simpl.
    + split; auto.
    + rewrite IH. split; [auto | intros [E | H]; [congruence | exact H]].
Qed.

Lemma contains_char_false (c : ascii) (s : string) :
  contains (String c "") s = false <-> ~ In c (list_ascii_of_string s).
Proof.
  rewrite <- contains_char. destruct (contains (String c "") s); split;
    congruence.
Qed.

(** One step of cutting at the occurrences of a character [k]. *)
Lemma split_char_step (k c : ascii) (s : string) (cur : list ascii) :
  split_aux (String k "") 0 cur (String c s) =
  if ascii_dec k c
  then string_of_rev cur :: split_aux (String k "") 0 [] s
  else split_aux (String k "") 0 (c :: cur) s.
Proof.
  change (split_aux (String k "") 0 cur (String c s))
    with (if String.prefix (String k "") (String c s)
          then string_of_rev cur :: split_aux (String k "") 0 [] s
          else split_aux (String k "") 0 (c :: cur) s).
  change (String.prefix (String k "") (String c s))
    with (if ascii_dec k c then String.prefix "" s else false).
  rewrite prefix_empty. destruct (ascii_dec k c); reflexivity.
Qed.

(** The pieces of a text cut at a character do not hold it. *)
Lemma split_char_pieces (k : ascii) (s : string) :
  forall cur piece,
    ~ In k cur ->
    In piece (split_aux (String k "") 0 cur s) ->
    ~ In k (list_ascii_of_string piece).
Proof.
  induction s as [|c s IH]; intros cur piece Hcur.
  - intros [<- | []]. unfold string_of_rev.
    rewrite list_ascii_of_string_of_list_ascii. intros H. apply in_rev in H. auto.
  - rewrite split_char_step. destruct (ascii_dec k c) as [<-|Hne].
    + intros [<- | H].
      * unfold string_of_rev. rewrite list_ascii_of_string_of_list_ascii.
        intros H. apply in_rev in H. auto.
      * apply (IH [] piece); [simpl; tauto | exact H].
    + apply IH. simpl. intros [E | H]; [congruence | auto].
Qed.

Lemma comma_separated_plain (v x : string) :
  In x (comma_separated v) -> plain_item x.
Proof.
  unfold comma_separated. intros H.
  apply in_map_iff in H as (y & <- & Hy).
  apply filter_In in Hy as [Hy Hne]. apply negb_true_iff in Hne.
  split; [| split].
  - intros E. rewrite E in Hne. discriminate.
  - apply strip_with_again.
  - apply contains_char_false. intros Hc. apply strip_with_In in Hc.
    revert Hc. apply (split_char_pieces "," v [] y); [simpl; tauto | exact Hy].
Qed.

(** A text that does not hold [k], read from [cur] on up to a [k] or the
    end. *)
Lemma split_char_item (k : ascii) (x : string) :
  ~ In k (list_ascii_of_string x) ->
  forall cur,
    split_aux (String k "") 0 cur x =
      [string_of_rev (rev (list_ascii_of_string x) ++ cur)] /\
    forall rest,
      split_aux (String k "") 0 cur (x +:+ String k rest) =
        string_of_rev (rev (list_ascii_of_string x) ++ cur)
        :: split_aux (String k "") 0 [] rest.
Proof.
  induction x as [|c x IH]; intros Hx cur.
  - split; [reflexivity|]. intros rest.
    change ("" +:+ String k rest) with (String k rest).
    rewrite split_char_step.
    destruct (ascii_dec k k); [reflexivity | congruence].
  - assert (~ In k (list_ascii_of_string x)) as Hx'
      by (intros H; apply Hx; simpl; auto).
    assert (k <> c) as Hc by (intros <-; apply Hx; simpl; auto).
    destruct (IH Hx' (c :: cur)) as [IH1 IH2].
    cbn [list_ascii_of_string rev]. rewrite <- app_assoc. cbn [app].
    split; [| intros rest;
              change (String c x +:+ String k rest)
                with (String c (x +:+ String k rest))];
      rewrite split_char_step;
      (destruct (ascii_dec k c); [congruence|]); auto.
Qed.

Lemma string_of_rev_chars (x : string) :
  string_of_rev (rev (list_ascii_of_string x) ++ []) = x.
Proof.
  unfold string_of_rev. rewrite app_nil_r, rev_involutive.
  apply string_of_list_ascii_of_string.
Qed.

(** Texts that do not hold [k], joined by [k] and cut again, are the
    texts. *)
Lemma split_char_concat (k : ascii) (x : string) (xs : list string) :
  Forall (fun y => ~ In k (list_ascii_of_string y)) (x :: xs) ->
  split (String k "") (String.concat (String k "") (x :: xs)) = x :: xs.
Proof.
  revert x. induction xs as [|y xs IH]; intros x H.
  - apply Forall_cons in H as [Hx _]. unfold split. cbn [String.concat].
    rewrite (proj1 (split_char_item k x Hx [])), string_of_rev_chars.
    reflexivity.
  - apply Forall_cons in H as [Hx H]. unfold split in *.
    change (String.concat (String k "") (x :: y :: xs))
      with (x +:+ String k (String.concat (String k "") (y :: xs))).
    rewrite (proj2 (split_char_item k x Hx [])), string_of_rev_chars.
    rewrite (IH y H). reflexivity.
Qed.

Lemma plain_items_kept (xs : list string) :
  Forall plain_item xs ->
  map strip (List.filter (fun x => negb (String.eqb (strip x) "")) xs) = xs.
Proof.
  induction 1 as [|x xs (Hne & Hs & _) _ IH]; [reflexivity|].
  cbn [List.filter]. rewrite Hs.
  destruct (String.eqb x "") eqn:E; [apply String.eqb_eq in E; congruence|].
  cbn [negb map]. rewrite Hs, IH. reflexivity.
Qed.

Lemma comma_separated_concat (xs : list string) :
  Forall plain_item xs -> comma_separated (String.concat "," xs) = xs.
Proof.
  intros H. unfold comma_separated. destruct xs as [|x xs]; [reflexivity|].
  rewrite (split_char_concat ","); [apply plain_items_kept, H|].
  eapply Forall_impl; [exact H|]. intros y (_ & _ & Hc).
  apply contains_char_false, Hc.
Qed.

(** X21: what [parse_site_codes] makes of a comma-separated text.  Every
    code it yields is non-empty, free of white space at both ends and free
    of commas; and a list of such codes, joined by commas and parsed, comes
    back as it was (the empty list included). *)
Theorem parse_site_codes_round_trip :
  (forall v : string, exists codes,
      parse_site_codes (PStr v) = PList (map PStr codes) /\
      Forall plain_item codes) /\
  (forall codes : list string,
      Forall plain_item codes ->
      parse_site_codes (PStr (String.concat "," codes)) = PList (map PStr codes)).
Proof.
  split.
  - intros v. exists (comma_separated v). split; [reflexivity|].
    apply Forall_forall. intros x Hx. apply list_elem_of_In in Hx.
    exact (comma_separated_plain v x Hx).
  - intros codes H. unfold parse_site_codes.
    rewrite (comma_separated_concat codes H). reflexivity.
Qed.

Lemma value_plain (p : Param) : plain_item (value p).
Proof. destruct p; (split; [discriminate | split; reflexivity]). Qed.

Lemma Parameter_of_value_value (p : Param) : Parameter_of_value (value p) = Ok p.
Proof. destruct p; reflexivity. Qed.

(** X22: parameter names round trip through the settings.  The values of
    any list of members of the enumeration, joined by commas, are parsed
    by [parse_parameters] back into those members, in order; a name that
    is the value of no member makes it raise [ValueError]. *)
Theorem parse_parameters_round_trip :
  (forall ps : list Param,
      parse_parameters (PStr (String.concat "," (map value ps))) =
        Ok (map Parsed ps)) /\
  (forall name : string,
      plain_item name ->
      (forall p, value p <> name) ->
      parse_parameters (PStr name) = Raise ValueError).
Proof.
  split.
  - intros ps. unfold parse_parameters.
    rewrite comma_separated_concat
      by (apply Forall_forall; intros x Hx;
          apply list_elem_of_In, in_map_iff in Hx as (p & <- & _);
          apply value_plain).
    induction ps as [|p ps IH]; [reflexivity|].
    cbn [map comprehension]. rewrite Parameter_of_value_value. simpl.
    rewrite IH. reflexivity.
  - intros name Hplain Hnone. unfold parse_parameters.
    assert (Forall plain_item [name]) as Hall by (repeat constructor; apply Hplain).
    pose proof (comma_separated_concat [name] Hall) as Hc.
    cbn [String.concat] in Hc. rewrite Hc. cbn [comprehension].
    unfold Parameter_of_value.
    destruct (List.find _ all_parameters) as [p|] eqn:Hf; [| reflexivity].
    apply find_some in Hf as [_ Hf]. apply String.eqb_eq in Hf.
    destruct (Hnone p Hf).
Qed.

End SettingsValidators.

(* --------------------------------------------------------------------- *)
(** ** The Record and its fields *)

Section RecordFields.
Context {lib : Libraries}.

Lemma append_empty (s : string) : s +:+ "" = s.
Proof.
  induction s as [|c s IH]; [reflexivity|].
  change (String c (s +:+ "") = String c s). rewrite IH. reflexivity.
Qed.

(** [replace] of a character that ends a text and stands nowhere else in
    it, and in a text where it does not stand. *)
Lemma replace_last_char (k : ascii) (new s : string) :
  ~ In k (list_ascii_of_string s) ->
  replace (String k "") new (s +:+ String k "") = s +:+ new.
Proof.
  intros H. unfold replace, split.
  rewrite (proj2 (split_char_item k s H [])), string_of_rev_chars.
  cbn [split_aux String.concat]. unfold string_of_rev. simpl.
  rewrite append_empty. reflexivity.
Qed.

Lemma replace_absent_char (k : ascii) (new s : string) :
  ~ In k (list_ascii_of_string s) ->
  replace (String k "") new s = s.
Proof.
  intros H. unfold replace, split.
  rewrite (proj1 (split_char_item k s H [])), string_of_rev_chars. reflexivity.
Qed.

(** X23: a timestamp that ends in Z is read as the same timestamp ending
    in +00:00.  For every text that holds no Z, [parse_timestamp] gives
    the same result, a datetime or an error, on the text followed by Z as
    on the text followed by +00:00. *)
Theorem zulu_suffix_is_utc (s : string) :
  contains "Z" s = false ->
  parse_timestamp (PStr (s +:+ "Z")) = parse_timestamp (PStr (s +:+ "+00:00")).
Proof.
  intros H. apply contains_char_false in H. unfold parse_timestamp.
  rewrite (replace_last_char "Z" "+00:00" s H).
  rewrite (replace_absent_char "Z" "+00:00" (s +:+ "+00:00")); [reflexivity|].
  rewrite chars_append. intros Hin. apply in_app_or in Hin as [Hin | Hin]; [auto|].
  simpl in Hin. repeat (destruct Hin as [Hin | Hin]; [discriminate|]). exact Hin.
Qed.

End RecordFields.

Section RecordCount.
Import CsvHandler.

Lemma get_record_count_kept (keys : gset string) (body : list line) :
  Forall (fun l => length l = length CSV_COLUMNS) body ->
  get_record_count true (mk_handler (Some (CSV_COLUMNS :: body)) keys) =
  length body.
Proof.
  intros Hlen. unfold get_record_count. cbn [csv_file].
  rewrite (read_csv_kept body Hlen). apply length_map.
Qed.

(** The lines a pass writes back have seven cells. *)
Lemma rewritten_lines_length (body : list line) :
  Forall (fun l => length l = length CSV_COLUMNS)
         (map (map (default ""))
              (keep_first 0 1 [] (map (read_row (length CSV_COLUMNS)) body))).
Proof.
  apply Forall_forall. intros l Hl.
  apply list_elem_of_In, in_map_iff in Hl as (row & <- & Hrow).
  apply list_elem_of_In in Hrow.
  pose proof (keep_first_sublist 0 1
                (map (read_row (length CSV_COLUMNS)) body) []) as Hsub.
  apply (elem_of_sublist _ _ _ Hrow) in Hsub.
  apply list_elem_of_In, in_map_iff in Hsub as (l & <- & _).
  rewrite length_map. apply read_row_length.
Qed.

(** X25: the counts the store returns are the changes of its record
    count.  On a file with the header of [CSV_COLUMNS] and lines of seven
    cells, [get_record_count] after a save is the count before plus the
    number the save returned, and after a de-duplication pass it is the
    count before minus the number the pass returned. *)
Theorem record_count_tracks_calls (keys : gset string) (body : list line) :
  Forall (fun l => length l = length CSV_COLUMNS) body ->
  let h := mk_handler (Some (CSV_COLUMNS :: body)) keys in
  (forall ms w,
      get_record_count true (save_measurements ms w h).2 =
      (get_record_count true h + (save_measurements ms w h).1.2)%nat) /\
  (forall r w,
      (get_record_count true (remove_duplicates r w h).2 +
       (remove_duplicates r w h).1.2)%nat = get_record_count true h).
Proof.
  intros Hlen h. subst h. split.
  - intros ms w.
    destruct (save_measurements_step ms w
                (mk_handler (Some (CSV_COLUMNS :: body)) keys))
      as (Hn & Hf & _).
    cbv zeta in Hn, Hf. rewrite Hn. clear Hn.
    set (new := if w then _ else _) in *.
    assert (Forall (fun l : line => length l = length CSV_COLUMNS) new)
      as Hnew.
    { subst new. destruct w; [| constructor].
      apply Forall_fmap, Forall_forall. intros m _. apply record_line_length. }
    clearbody new.
    destruct (save_measurements ms w _) as [[logs n] [f keys']].
    cbn [fst snd csv_file] in Hf |- *. subst f.
    destruct new as [|l new].
    + cbn [csv_file]. rewrite !get_record_count_kept by exact Hlen.
      simpl. lia.
    + change (default [] (Some (CSV_COLUMNS :: body)) ++ l :: new)
        with (CSV_COLUMNS :: (body ++ l :: new)).
      rewrite (get_record_count_kept _ _ Hlen).
      rewrite get_record_count_kept by (apply Forall_app; auto).
      rewrite length_app. reflexivity.
  - intros r w. rewrite (get_record_count_kept _ _ Hlen).
    destruct (remove_duplicates_kept r w keys body Hlen)
      as [(-> & -> & _) | (_ & _ & -> & Hpos & ->)].
    + rewrite (get_record_count_kept _ _ Hlen). lia.
    + rewrite get_record_count_kept by apply rewritten_lines_length.
      rewrite length_map. lia.
Qed.

End RecordCount.

Section RecordExamples.
Import CsvHandler.

Lemma zulu_suffix_is_utc_witness :
  parse_timestamp (PStr "2024-01-15T10:30:00Z") =
  parse_timestamp (PStr "2024-01-15T10:30:00+00:00").
Proof.
  apply (zulu_suffix_is_utc "2024-01-15T10:30:00"). reflexivity.
Defined.

Lemma record_count_tracks_calls_witness :
  let h := mk_handler (Some [CSV_COLUMNS; older_line; older_line]) ∅ in
  (forall ms w,
      get_record_count true (save_measurements ms w h).2 =
      (get_record_count true h + (save_measurements ms w h).1.2)%nat) /\
  (forall r w,
      (get_record_count true (remove_duplicates r w h).2 +
       (remove_duplicates r w h).1.2)%nat = get_record_count true h).
Proof.
  apply (record_count_tracks_calls ∅ [older_line; older_line]).
  repeat constructor.
Defined.

End RecordExamples.
